(** * FlexiMart ETL pipeline: a shallow embedding of [etl_pipeline.py]

    The development follows the source file top to bottom: the metrics
    tracker, the field normalizers ([clean_phone], [clean_date_series]),
    the storage boundary (the four tables of the DDL in
    [create_database_schema]), and the three loaders
    ([process_customers], [process_products], [process_sales]).

    Conventions of the embedding.
    - A CSV cell that the source tests for absence ([pd.isna], [fillna],
      [dropna], [safe_value]) is an [option]; [None] is pandas' NaN.
      Source identifiers, quantities and unit prices are present values.
    - Strings are byte strings; source identifiers are strings ('C001').
    - Money is a [Z] number of hundredths, the DECIMAL(10,2) of the DDL;
      binary floating point rounding of amounts is not modelled.
    - Two library functions are parameters of the development: Python's
      [float] on a [str], a builtin of the language, and the range of
      the datetime64 column of pandas, which depends on its version.
    - The storage is the schema of [create_database_schema]; a statement
      that violates NOT NULL, UNIQUE or a FOREIGN KEY raises. *)

From Stdlib Require Import ZArith Lia List Bool Ascii String.
From Stdlib Require Import SpecFloat OrdersEx Sorted.
From stdpp Require Import base strings gmap list.

Local Open Scope string_scope.
Local Open Scope list_scope.
Local Open Scope Z_scope.

(** ** Python and pandas primitives used by the source *)

(** A raw cell as [pd.read_csv] hands it to [clean_phone]: a float64 (the
    column had only numbers and blanks; a blank is NaN), an int64 (only
    integers) or a Python [str] (anything else). *)
Inductive raw_value :=
| RawFloat (f : spec_float)
| RawInt (z : Z)
| RawStr (s : string).

(** [pd.isna] on a scalar. *)
Definition pd_isna (v : raw_value) : bool :=
  match v with
  | RawFloat S754_nan => true
  | _ => false
  end.

(** [int(f)] on a Python float: truncation toward zero; [None] stands for
    the [OverflowError] (infinities) and [ValueError] (NaN) it raises. *)
Definition py_int_of_float (f : spec_float) : option Z :=
  match f with
  | S754_zero _ => Some 0
  | S754_finite s m e =>
      let a := if 0 <=? e then Z.pos m * 2 ^ e else Z.pos m / 2 ^ (- e) in
      Some (if s then - a else a)
  | S754_infinity _ => None
  | S754_nan => None
  end.

(** [float(z)] on a Python int: round to nearest even binary64.  Python
    raises [OverflowError] where this yields an infinity; [int] of an
    infinity raises too, so [int(float(z))] agrees. *)
Definition py_float_of_int (z : Z) : spec_float :=
  binary_normalize 53 1024 z 0 false.

(** The decimal digit for [d] in 0..9. *)
Definition digit_char (d : Z) : ascii := ascii_of_nat (48 + Z.to_nat d).

(** Digits of a non-negative integer, most significant first. *)
Fixpoint digits_fuel (fuel : nat) (n : Z) (acc : string) : string :=
  match fuel with
  | O => acc
  | S fuel' =>
      let acc' := String (digit_char (n mod 10)) acc in
      if n <? 10 then acc' else digits_fuel fuel' (n / 10) acc'
  end.

Definition str_of_nonneg (n : Z) : string :=
  digits_fuel (S (Z.to_nat (Z.log2 n))) n "".

(** [str(z)] on a Python int. *)
Definition py_str_of_int (z : Z) : string :=
  if z <? 0 then String "-" (str_of_nonneg (- z)) else str_of_nonneg z.

(** [s[-k:]] for [k <= len(s)]. *)
Definition str_last (k : nat) (s : string) : string :=
  substring (String.length s - k) k s.

Definition is_digit (c : ascii) : bool :=
  let n := nat_of_ascii c in (Nat.leb 48 n && Nat.leb n 57)%bool.

Fixpoint all_digits (s : string) : bool :=
  match s with
  | EmptyString => true
  | String c s' => is_digit c && all_digits s'
  end.

(** The canonical form of the docstring of [clean_phone]:
    "+91-" followed by exactly ten decimal digits. *)
Definition canonical_phone (s : string) : Prop :=
  exists d, s = "+91-" +:+ d /\ String.length d = 10%nat /\ all_digits d = true.

(** ** The data quality metrics tracker (class [DataQualityMetrics]) *)

(** Both attributes are a [defaultdict(lambda: defaultdict(int))]: a
    missing file or counter reads as 0. *)
Record DataQualityMetrics := Metrics {
  metrics : gmap string (gmap string nat);
  drop_reasons : gmap string (gmap string nat)
}.

(** [METRICS = DataQualityMetrics()]. *)
Definition METRICS : DataQualityMetrics := Metrics ∅ ∅.

(** [t[file][key]]. *)
Definition counter (t : gmap string (gmap string nat)) (file key : string) : nat :=
  default 0%nat (default ∅ (t !! file) !! key).

(** [t[file][key] += n]. *)
Definition bump (t : gmap string (gmap string nat)) (file key : string) (n : nat)
    : gmap string (gmap string nat) :=
  <[file := <[key := (counter t file key + n)%nat]> (default ∅ (t !! file))]> t.

Definition metrics_read (M : DataQualityMetrics) (file : string) (n : nat) :=
  Metrics (bump (metrics M) file "records_read" n) (drop_reasons M).

Definition metrics_dup (M : DataQualityMetrics) (file : string) (n : nat) :=
  Metrics (bump (metrics M) file "duplicates_removed" n) (drop_reasons M).

Definition metrics_filled (M : DataQualityMetrics) (file : string) (n : nat) :=
  Metrics (bump (metrics M) file "missing_values_filled" n) (drop_reasons M).

Definition metrics_loaded (M : DataQualityMetrics) (file : string) (n : nat) :=
  Metrics (bump (metrics M) file "records_loaded" n) (drop_reasons M).

Definition metrics_dropped (M : DataQualityMetrics) (file reason : string) (n : nat) :=
  Metrics (bump (metrics M) file "rows_dropped" n)
          (bump (drop_reasons M) file reason n).

(** Readers for the five counters of a file and for a drop reason. *)
Definition records_read M file := counter (metrics M) file "records_read".
Definition duplicates_removed M file := counter (metrics M) file "duplicates_removed".
Definition missing_values_filled M file := counter (metrics M) file "missing_values_filled".
Definition records_loaded M file := counter (metrics M) file "records_loaded".
Definition rows_dropped M file := counter (metrics M) file "rows_dropped".
Definition drop_reason M file reason := counter (drop_reasons M) file reason.

(** ** The storage boundary

    The four tables of [schema_statements_exec]: AUTO_INCREMENT keys,
    NOT NULL columns, the UNIQUE email and the three foreign keys.  A
    statement that violates a constraint raises [mysql.connector.Error]
    and leaves the tables as they were.  Column widths and numeric
    ranges are not modelled. *)

Record customer_row := CustomerRow {
  c_customer_id : Z;
  c_first_name : string;
  c_last_name : string;
  c_email : string;
  c_phone : option string;
  c_city : option string;
  c_registration_date : option string
}.

Record product_row := ProductRow {
  p_product_id : Z;
  p_product_name : string;
  p_category : string;
  p_price : Z;
  p_stock_quantity : option Z
}.

Record order_row := OrderRow {
  o_order_id : Z;
  o_customer_id : Z;
  o_order_date : string;
  o_total_amount : Z;
  o_status : string
}.

Record order_item_row := OrderItemRow {
  i_order_item_id : Z;
  i_order_id : Z;
  i_product_id : Z;
  i_quantity : Z;
  i_unit_price : Z;
  i_subtotal : Z
}.

Record database := Database {
  customers : list customer_row;
  products : list product_row;
  orders : list order_row;
  order_items : list order_item_row;
  next_customer_id : Z;
  next_product_id : Z;
  next_order_id : Z;
  next_order_item_id : Z
}.

(** What [cur.execute] of an INSERT does: the new key in [cur.lastrowid],
    or one of the two kinds of [Error] the customer loader tells apart
    ('Duplicate entry' on the key 'email', anything else). *)
Inductive insert_result :=
| Inserted (new_id : Z)
| DuplicateEmail
| StorageError.

Definition has_email (e : string) (c : customer_row) : bool := String.eqb (c_email c) e.

(** [INSERT INTO customers (first_name, last_name, email, phone, city,
    registration_date)]; [None] is SQL NULL.  NOT NULL is checked on the
    values before the unique index is touched. *)
Definition insert_customer (db : database)
    (first_name last_name email phone city registration_date : option string)
    : insert_result * database :=
  match first_name, last_name, email with
  | Some fn, Some ln, Some em =>
      if existsb (has_email em) (customers db) then (DuplicateEmail, db)
      else
        let new_id := next_customer_id db in
        (Inserted new_id,
         Database (customers db ++ [CustomerRow new_id fn ln em phone city registration_date])
                  (products db) (orders db) (order_items db)
                  (new_id + 1) (next_product_id db) (next_order_id db)
                  (next_order_item_id db))
  | _, _, _ => (StorageError, db)
  end.

(** [SELECT customer_id FROM customers WHERE email = %s] and [fetchone]. *)
Definition select_customer_id_by_email (db : database) (email : string) : option Z :=
  match List.filter (has_email email) (customers db) with
  | c :: _ => Some (c_customer_id c)
  | [] => None
  end.

(** [INSERT INTO products (product_name, category, price, stock_quantity)]. *)
Definition insert_product (db : database)
    (product_name category : option string) (price stock_quantity : option Z)
    : insert_result * database :=
  match product_name, category, price with
  | Some pn, Some cat, Some pr =>
      let new_id := next_product_id db in
      (Inserted new_id,
       Database (customers db) (products db ++ [ProductRow new_id pn cat pr stock_quantity])
                (orders db) (order_items db)
                (next_customer_id db) (new_id + 1) (next_order_id db)
                (next_order_item_id db))
  | _, _, _ => (StorageError, db)
  end.

Definition has_customer (db : database) (id : Z) : bool :=
  existsb (fun c => c_customer_id c =? id) (customers db).
Definition has_product (db : database) (id : Z) : bool :=
  existsb (fun p => p_product_id p =? id) (products db).
Definition has_order (db : database) (id : Z) : bool :=
  existsb (fun o => o_order_id o =? id) (orders db).

(** [INSERT INTO orders (customer_id, order_date, total_amount, status)
    VALUES (%s, %s, %s, 'Completed')]. *)
Definition insert_order (db : database) (customer_id : Z)
    (order_date : option string) (total_amount : Z) : insert_result * database :=
  match order_date with
  | Some od =>
      if has_customer db customer_id then
        let new_id := next_order_id db in
        (Inserted new_id,
         Database (customers db) (products db)
                  (orders db ++ [OrderRow new_id customer_id od total_amount "Completed"])
                  (order_items db)
                  (next_customer_id db) (next_product_id db) (new_id + 1)
                  (next_order_item_id db))
      else (StorageError, db)
  | None => (StorageError, db)
  end.

(** [INSERT INTO order_items (order_id, product_id, quantity, unit_price,
    subtotal)]. *)
Definition insert_order_item (db : database)
    (order_id product_id quantity unit_price subtotal : Z) : insert_result * database :=
  if has_order db order_id && has_product db product_id then
    let new_id := next_order_item_id db in
    (Inserted new_id,
     Database (customers db) (products db) (orders db)
              (order_items db ++ [OrderItemRow new_id order_id product_id quantity unit_price subtotal])
              (next_customer_id db) (next_product_id db) (next_order_id db)
              (new_id + 1))
  else (StorageError, db).

(** *** Calendar dates and the [strptime] formats of the source *)

Record date := Date { year : Z; month : Z; day : Z }.

Definition date_eqb (a b : date) : bool :=
  (year a =? year b) && (month a =? month b) && (day a =? day b).

Definition is_leap (y : Z) : bool :=
  ((y mod 4 =? 0) && negb (y mod 100 =? 0)) || (y mod 400 =? 0).

Definition days_in_month (y m : Z) : Z :=
  if m =? 2 then (if is_leap y then 29 else 28)
  else if (m =? 4) || (m =? 6) || (m =? 9) || (m =? 11) then 30
  else 31.

(** A date of the proleptic Gregorian calendar, as [datetime.date] has
    them (years 1 to 9999). *)
Definition valid_date (d : date) : bool :=
  (1 <=? year d) && (year d <=? 9999) &&
  (1 <=? month d) && (month d <=? 12) &&
  (1 <=? day d) && (day d <=? days_in_month (year d) (month d)).

Definition digit_val (c : ascii) : option Z :=
  if is_digit c then Some (Z.of_nat (nat_of_ascii c) - 48) else None.

(** [%Y]: exactly four digits. *)
Definition read_year (s : string) : option (Z * string) :=
  match s with
  | String a (String b (String c (String d rest))) =>
      match digit_val a, digit_val b, digit_val c, digit_val d with
      | Some a, Some b, Some c, Some d => Some (1000 * a + 100 * b + 10 * c + d, rest)
      | _, _, _, _ => None
      end
  | _ => None
  end.

(** [%m] and [%d]: one or two digits, the value in 1..[hi]. *)
Definition read_field (hi : Z) (s : string) : option (Z * string) :=
  match s with
  | String a rest =>
      match digit_val a with
      | None => None
      | Some a =>
          let '(v, rest') :=
            match rest with
            | String b rest2 =>
                match digit_val b with
                | Some b => (10 * a + b, rest2)
                | None => (a, rest)
                end
            | EmptyString => (a, rest)
            end in
          if (1 <=? v) && (v <=? hi) then Some (v, rest') else None
      end
  | EmptyString => None
  end.

Inductive directive := DirYear | DirMonth | DirDay | DirLit (c : ascii).

(** The four format strings of [clean_date_series]. *)
Definition fmt_ymd_dash : list directive :=   (* '%Y-%m-%d' *)
  [DirYear; DirLit "-"; DirMonth; DirLit "-"; DirDay].
Definition fmt_dmy_slash : list directive :=  (* '%d/%m/%Y' *)
  [DirDay; DirLit "/"; DirMonth; DirLit "/"; DirYear].
Definition fmt_mdy_dash : list directive :=   (* '%m-%d-%Y' *)
  [DirMonth; DirLit "-"; DirDay; DirLit "-"; DirYear].
Definition fmt_mdy_slash : list directive :=  (* '%m/%d/%Y' *)
  [DirMonth; DirLit "/"; DirDay; DirLit "/"; DirYear].

(** Match the whole of [s] against the format (pandas parses with
    [exact=True]), collecting the three fields. *)
Fixpoint match_format (fmt : list directive) (s : string)
    (y m d : option Z) : option (option Z * option Z * option Z) :=
  match fmt with
  | [] => match s with EmptyString => Some (y, m, d) | _ => None end
  | DirYear :: fmt' =>
      match read_year s with
      | Some (v, rest) => match_format fmt' rest (Some v) m d
      | None => None
      end
  | DirMonth :: fmt' =>
      match read_field 12 s with
      | Some (v, rest) => match_format fmt' rest y (Some v) d
      | None => None
      end
  | DirDay :: fmt' =>
      match read_field 31 s with
      | Some (v, rest) => match_format fmt' rest y m (Some v)
      | None => None
      end
  | DirLit c :: fmt' =>
      match s with
      | String c' rest => if Ascii.eqb c c' then match_format fmt' rest y m d else None
      | EmptyString => None
      end
  end.

(** Two decimal digits, zero padded. *)
Definition two_digits (v : Z) : string :=
  String (digit_char (v / 10 mod 10)) (String (digit_char (v mod 10)) "").

Definition four_digits (v : Z) : string :=
  String (digit_char (v / 1000 mod 10)) (String (digit_char (v / 100 mod 10)) (two_digits v)).

(** [x.strftime('%Y-%m-%d')] on a date. *)
Definition strftime_ymd (d : date) : string :=
  four_digits (year d) +:+ "-" +:+ two_digits (month d) +:+ "-" +:+ two_digits (day d).

(** *** pandas frame operations used by the loaders *)

(** [df.drop_duplicates(subset=..., keep='first')]: a row is kept when
    its key has not been seen before; two missing keys are equal. *)
Fixpoint drop_duplicates_from {A K} `{EqDecision K} (key : A -> K)
    (seen : list K) (df : list A) : list A :=
  match df with
  | [] => []
  | r :: df' =>
      if decide (key r ∈ seen) then drop_duplicates_from key seen df'
      else r :: drop_duplicates_from key (key r :: seen) df'
  end.

Definition drop_duplicates {A K} `{EqDecision K} (key : A -> K) (df : list A) : list A :=
  drop_duplicates_from key [] df.

(** [col.isna()] and [col.isna().sum()]. *)
Definition isna {A} (c : option A) : bool :=
  match c with Some _ => false | None => true end.

Definition count_true (mask : list bool) : nat := length (List.filter id mask).

(** [safe_value], lines 235-247: NaN becomes [None]; both are [None]
    here, so the function is the identity on cells. *)
Definition safe_value {A} (val : option A) : option A :=
  if isna val then None else val.

Definition is_upper (c : ascii) : bool :=
  let n := nat_of_ascii c in (Nat.leb 65 n && Nat.leb n 90)%bool.
Definition is_lower (c : ascii) : bool :=
  let n := nat_of_ascii c in (Nat.leb 97 n && Nat.leb n 122)%bool.
Definition to_upper (c : ascii) : ascii :=
  if is_lower c then ascii_of_nat (nat_of_ascii c - 32) else c.
Definition to_lower (c : ascii) : ascii :=
  if is_upper c then ascii_of_nat (nat_of_ascii c + 32) else c.

(** [str.title()]: a letter after a non-letter is upper-cased, a letter
    after a letter lower-cased. *)
Fixpoint title_from (prev_cased : bool) (s : string) : string :=
  match s with
  | EmptyString => EmptyString
  | String c s' =>
      if is_upper c || is_lower c
      then String (if prev_cased then to_lower c else to_upper c) (title_from true s')
      else String c (title_from false s')
  end.

Definition py_title (s : string) : string := title_from false s.

(** [astype(str)] on a text cell: NaN prints as 'nan'. *)
Definition astype_str (c : option string) : string :=
  match c with Some s => s | None => "nan" end.

(** The keys of a [groupby] (sort=True): distinct and ascending. *)
Fixpoint insert_key (k : string) (ks : list string) : list string :=
  match ks with
  | [] => [k]
  | k' :: ks' =>
      match String_as_OT.compare k k' with
      | Lt => k :: ks
      | Eq => ks
      | Gt => k' :: insert_key k ks'
      end
  end.

Definition sorted_keys (ks : list string) : list string := fold_right insert_key [] ks.

(** [df.groupby(key)]: for each key in ascending order, the rows with that
    key in frame order. *)
Definition groupby {A} (key : A -> string) (df : list A) : list (string * list A) :=
  map (fun k => (k, List.filter (fun r => String.eqb (key r) k) df))
      (sorted_keys (map key df)).

Definition sum_Z (l : list Z) : Z := fold_right Z.add 0 l.

(** ** Rows of the three source files *)

(** customers{customer_id, first_name, last_name, email, phone, city,
    registration_date}. *)
Record customer_raw := CustomerRaw {
  cust_customer_id : string;
  cust_first_name : option string;
  cust_last_name : option string;
  cust_email : option string;
  cust_phone : raw_value;
  cust_city : option string;
  cust_registration_date : option string
}.

(** A customer row after step 4 (phone and date standardized). *)
Record customer_clean := CustomerClean {
  cc_customer_id : string;
  cc_first_name : option string;
  cc_last_name : option string;
  cc_email : option string;
  cc_phone : option string;
  cc_city : option string;
  cc_registration_date : option string
}.

(** products{product_id, product_name, category, price, stock_quantity}. *)
Record product_raw := ProductRaw {
  prod_product_id : string;
  prod_product_name : option string;
  prod_category : option string;
  prod_price : option Z;
  prod_stock_quantity : option Z
}.

(** A product row after steps 3 and 4. *)
Record product_clean := ProductClean {
  pc_product_id : string;
  pc_product_name : option string;
  pc_category : string;
  pc_price : option Z;
  pc_stock_quantity : Z
}.

(** sales{transaction_id, customer_id, product_id, quantity, unit_price,
    transaction_date}. *)
Record sale_raw := SaleRaw {
  sale_transaction_id : string;
  sale_customer_id : string;
  sale_product_id : string;
  sale_quantity : Z;
  sale_unit_price : Z;
  sale_transaction_date : option string
}.

#[global] Instance sale_raw_eq_dec : EqDecision sale_raw.
Proof. solve_decision. Defined.

(** A sales row with the two mapped columns [db_customer_id] and
    [db_product_id]; [None] is the NaN that [Series.map] gives an id
    that is not in the dictionary. *)
Record sale_mapped := SaleMapped {
  sm_raw : sale_raw;
  sm_db_customer_id : option Z;
  sm_db_product_id : option Z
}.

(** A row of [valid_sales]: both references resolved. *)
Record sale_valid := SaleValid {
  sv_transaction_id : string;
  sv_db_customer_id : Z;
  sv_db_product_id : Z;
  sv_quantity : Z;
  sv_unit_price : Z;
  sv_transaction_date : option string
}.

(** How a loader ends: it returns, or an exception it does not catch
    leaves it (nothing of the loader is committed; [METRICS] is as the
    exception found it). *)
Inductive outcome (A : Type) :=
| Finished (a : A)
| Raised (M : DataQualityMetrics).
Arguments Finished {A} a.
Arguments Raised {A} M.

Definition customers_file : string := "../data/customers_raw.csv".
Definition products_file : string := "../data/products_raw.csv".
Definition sales_file : string := "../data/sales_raw.csv".

(** *** Concrete library parameters for the examples *)

(** The datetime64[ns] range of pandas, in whole days. *)
Definition date_leb (a b : date) : bool :=
  (year a <? year b) ||
  ((year a =? year b) && ((month a <? month b) ||
                          ((month a =? month b) && (day a <=? day b)))).

Definition ns_bounds (d : date) : bool :=
  date_leb (Date 1677 9 22) d && date_leb d (Date 2262 4 11).

Fixpoint digits_value (acc : Z) (s : string) : option Z :=
  match s with
  | EmptyString => Some acc
  | String c s' =>
      match digit_val c with
      | Some v => digits_value (10 * acc + v) s'
      | None => None
      end
  end.

(** [float] on the strings made of decimal digits only ('9876543210');
    every other string is refused.  Python accepts more (signs, a
    fraction, an exponent); the examples need no more than this. *)
Definition float_of_digit_string (s : string) : option spec_float :=
  match s with
  | EmptyString => None
  | _ => match digits_value 0 s with
         | Some z => Some (py_float_of_int z)
         | None => None
         end
  end.

(** A schema with no rows, as [create_database_schema] leaves it. *)
Definition empty_database : database := Database [] [] [] [] 1 1 1 1.

(** Stored rows for the examples: one customer, two products. *)
Definition example_store : database :=
  Database [CustomerRow 1 "Asha" "Rao" "a@x.com" None None None]
           [ProductRow 1 "Lamp" "Home" 1000 (Some 0);
            ProductRow 2 "Plug" "Home" 500 (Some 0)]
           [] [] 2 3 1 1.

(** The files of the examples.  Two customers share an email; the
    first product has no stock_quantity; the third sales row names a
    customer that is in no map. *)
Definition example_customers : list customer_raw :=
  [CustomerRaw "C1" (Some "Asha") (Some "Rao") (Some "a@x.com")
               (RawStr "9876543210") None (Some "2024-01-15");
   CustomerRaw "C2" (Some "Asha") (Some "Rao") (Some "a@x.com")
               (RawFloat S754_nan) None (Some "15/01/2024")].

Definition example_products : list product_raw :=
  [ProductRaw "P1" (Some "Lamp") (Some "home") (Some 1000) None;
   ProductRaw "P2" (Some "Plug") (Some "HOME") (Some 500) (Some 3)].

Definition example_products_unnamed : list product_raw :=
  [ProductRaw "P1" None (Some "home") (Some 1000) (Some 5);
   ProductRaw "P2" (Some "Plug") (Some "home") (Some 500) (Some 3)].

(** A product with a price and no stock_quantity, followed by a product
    with a price and no name. *)
Definition example_products_stock_then_unnamed : list product_raw :=
  [ProductRaw "P1" (Some "Lamp") (Some "home") (Some 1999) None;
   ProductRaw "P2" None (Some "home") (Some 500) (Some 3)].

(** Two customers of one email: the first has no first name. *)
Definition example_customers_refused_first : list customer_raw :=
  [CustomerRaw "C1" None (Some "Rao") (Some "a@x.com")
               (RawStr "9876543210") None (Some "2024-01-15");
   CustomerRaw "C2" (Some "Asha") (Some "Rao") (Some "a@x.com")
               (RawStr "9876543210") None (Some "2024-01-15")].

Definition example_sales : list sale_raw :=
  [SaleRaw "T1" "C1" "P1" 2 1000 (Some "2024-01-15");
   SaleRaw "T1" "C1" "P2" 1 500 (Some "15/01/2024");
   SaleRaw "T2" "C9" "P1" 1 1000 (Some "2024-01-16")].

Definition example_cust_map : gmap string Z := {["C1" := 1]}.
Definition example_prod_map : gmap string Z := <["P1" := 1]> {["P2" := 2]}.

(** Three rows of two product ids: the first row of 'P1' has no price,
    the second has one. *)
Definition example_products_priceless : list product_raw :=
  [ProductRaw "P1" (Some "Lamp") (Some "home") None (Some 5);
   ProductRaw "P1" (Some "Lamp") (Some "home") (Some 1000) (Some 5);
   ProductRaw "P2" (Some "Plug") (Some "home") (Some 500) (Some 3)].

Section Pipeline.

(** Python's [float] on a [str]; [None] stands for [ValueError]. *)
Variable py_float_of_str : string -> option spec_float.

(** The range of the datetime64 column [pd.to_datetime] parses into: a
    date outside it is an out-of-bounds error, which [errors='coerce']
    turns into NaT.  The range depends on the resolution the installed
    pandas picks (1677-09-22 to 2262-04-11 at nanoseconds), so it is a
    parameter. *)
Variable datetime_in_bounds : date -> bool.

#[local] Set Default Proof Using "Type".

(** Forget the library parameters a statement does not mention, so that
    no decision procedure drags them into its proof. *)
Ltac drop_parameters := try clear py_float_of_str; try clear datetime_in_bounds.

(** [float(v)]. *)
Definition py_float (v : raw_value) : option spec_float :=
  match v with
  | RawFloat f => Some f
  | RawInt z => Some (py_float_of_int z)
  | RawStr s => py_float_of_str s
  end.

(** ** Field normalizers *)

(** [clean_phone], lines 285-311.  The bare [except: pass] turns every
    exception of the conversion into the final [return None]. *)
Definition clean_phone (phone : raw_value) : option string :=
  if pd_isna phone then None
  else
    match py_float phone with
    | None => None
    | Some f =>
        match py_int_of_float f with
        | None => None
        | Some z =>
            let phone_str := py_str_of_int z in
            if Nat.leb 10 (String.length phone_str)
            then Some ("+91-" +:+ str_last 10 phone_str)
            else None
        end
    end.

(** One cell of [pd.to_datetime(..., format=fmt, errors='coerce')]: NaT
    ([None]) on a missing cell, on a mismatch, on an impossible calendar
    date and on a date out of bounds. *)
Definition strptime (fmt : list directive) (s : string) : option date :=
  match match_format fmt s None None None with
  | Some (Some y, Some m, Some d) =>
      let dt := Date y m d in
      if valid_date dt && datetime_in_bounds dt then Some dt else None
  | _ => None
  end.

Definition to_datetime (fmt : list directive) (series : list (option string))
    : list (option date) :=
  map (fun cell => match cell with Some s => strptime fmt s | None => None end) series.

(** [dates.isna()]. *)
Definition isna_mask {A} (col : list (option A)) : list bool :=
  map (fun c => match c with Some _ => false | None => true end) col.

(** [series[mask]]: the cells where the mask holds, in order. *)
Fixpoint select_mask {A} (col : list A) (mask : list bool) : list A :=
  match col, mask with
  | c :: col', b :: mask' =>
      if b then c :: select_mask col' mask' else select_mask col' mask'
  | _, _ => []
  end.

(** [dates[mask] = vals]: the cells where the mask holds take the values
    of [vals], in order; the other cells stay. *)
Fixpoint assign_mask {A} (col : list A) (mask : list bool) (vals : list A) : list A :=
  match col, mask with
  | c :: col', b :: mask' =>
      if b then
        match vals with
        | v :: vals' => v :: assign_mask col' mask' vals'
        | [] => c :: assign_mask col' mask' []
        end
      else c :: assign_mask col' mask' vals
  | _, _ => col
  end.

(** [clean_date_series], lines 249-283. *)
Definition clean_date_series (series : list (option string)) : list (option date) :=
  let dates := to_datetime fmt_ymd_dash series in
  let mask := isna_mask dates in
  let dates := assign_mask dates mask (to_datetime fmt_dmy_slash (select_mask series mask)) in
  let mask := isna_mask dates in
  let dates := assign_mask dates mask (to_datetime fmt_mdy_dash (select_mask series mask)) in
  let mask := isna_mask dates in
  let dates := assign_mask dates mask (to_datetime fmt_mdy_slash (select_mask series mask)) in
  dates.

(** The four attempts on one cell, first success wins: what
    [clean_date_series] computes cell by cell (lemma
    [clean_date_series_pointwise]). *)
Definition clean_date (cell : option string) : option date :=
  match cell with
  | None => None
  | Some s =>
      match strptime fmt_ymd_dash s with
      | Some d => Some d
      | None =>
          match strptime fmt_dmy_slash s with
          | Some d => Some d
          | None =>
              match strptime fmt_mdy_dash s with
              | Some d => Some d
              | None => strptime fmt_mdy_slash s
              end
          end
      end
  end.

(** [date_series.apply(lambda x: x.strftime('%Y-%m-%d') if pd.notna(x) else None)]. *)
Definition format_dates (dates : list (option date)) : list (option string) :=
  map (fun d => match d with Some d => Some (strftime_ymd d) | None => None end) dates.

(** ** 1. Customers *)

(** Step 4 of [process_customers]: the [phone] and [registration_date]
    columns are replaced by their standardized values. *)
Fixpoint assign_customer_columns (df : list customer_raw)
    (phones dates : list (option string)) : list customer_clean :=
  match df, phones, dates with
  | r :: df', ph :: phones', dt :: dates' =>
      CustomerClean (cust_customer_id r) (cust_first_name r) (cust_last_name r)
                    (cust_email r) ph (cust_city r) dt
      :: assign_customer_columns df' phones' dates'
  | _, _, _ => []
  end.

(** Steps 1 to 4, lines 335-371: the frame that reaches the insert loop
    and the metrics after the transform. *)
Definition transform_customers (M : DataQualityMetrics) (df : list customer_raw)
    : list customer_clean * DataQualityMetrics :=
  let file := customers_file in
  let M := metrics_read M file (length df) in
  let before := length df in
  let df := drop_duplicates cust_email df in
  let M := metrics_dup M file (before - length df) in
  let missing := map (fun r => isna (cust_email r)) df in
  let M := metrics_dropped M file "missing_email" (count_true missing) in
  let df := select_mask df (map negb missing) in
  let phones := map (fun r => clean_phone (cust_phone r)) df in
  let date_series := clean_date_series (map cust_registration_date df) in
  let dates := format_dates date_series in
  let df := assign_customer_columns df phones dates in
  let invalid_dates := count_true (map (fun r => isna (cc_registration_date r)) df) in
  let M := if Nat.ltb 0 invalid_dates then metrics_filled M file invalid_dates else M in
  (df, M).

(** The state of the insert loop: the tables, the metrics, [id_map] and
    the lines printed by the [except] branch (the email of each). *)
Record customer_load := CustomerLoad {
  cl_db : database;
  cl_metrics : DataQualityMetrics;
  cl_id_map : gmap string Z;
  cl_log : list (option string)
}.

(** One iteration of the loop of lines 387-417. *)
Definition load_customer (st : customer_load) (row : customer_clean) : customer_load :=
  match insert_customer (cl_db st)
          (safe_value (cc_first_name row)) (safe_value (cc_last_name row))
          (safe_value (cc_email row)) (safe_value (cc_phone row))
          (safe_value (cc_city row)) (safe_value (cc_registration_date row)) with
  | (Inserted new_id, db') =>
      let M := metrics_loaded (cl_metrics st) customers_file 1 in
      let id_map := if new_id =? 0 then cl_id_map st
                    else <[cc_customer_id row := new_id]> (cl_id_map st) in
      CustomerLoad db' M id_map (cl_log st)
  | (DuplicateEmail, _) =>
      let result :=
        match cc_email row with
        | Some e => select_customer_id_by_email (cl_db st) e
        | None => None
        end in
      match result with
      | Some existing =>
          CustomerLoad (cl_db st) (cl_metrics st)
                       (<[cc_customer_id row := existing]> (cl_id_map st)) (cl_log st)
      | None => st
      end
  | (StorageError, _) =>
      CustomerLoad (cl_db st) (cl_metrics st) (cl_id_map st)
                   (cl_log st ++ [cc_email row])
  end.

(** [process_customers], lines 317-423. *)
Definition process_customers (db : database) (M : DataQualityMetrics)
    (df : list customer_raw) : customer_load :=
  let '(df, M) := transform_customers M df in
  fold_left load_customer df (CustomerLoad db M ∅ []).

(** ** 2. Products *)

(** Steps 1 to 5, lines 447-472. *)
Definition transform_products (M : DataQualityMetrics) (df : list product_raw)
    : list product_clean * DataQualityMetrics :=
  let file := products_file in
  let M := metrics_read M file (length df) in
  let before := length df in
  let df := drop_duplicates prod_product_id df in
  let M := metrics_dup M file (before - length df) in
  let null_stock := count_true (map (fun r => isna (prod_stock_quantity r)) df) in
  let df := map (fun r =>
                   ProductClean (prod_product_id r) (prod_product_name r)
                                (py_title (astype_str (prod_category r)))
                                (prod_price r)
                                (default 0 (prod_stock_quantity r))) df in
  let M := metrics_filled M file null_stock in
  let missing_price := map (fun r => isna (pc_price r)) df in
  let M := metrics_dropped M file "missing_price" (count_true missing_price) in
  let df := select_mask df (map negb missing_price) in
  (df, M).

(** The insert loop of lines 487-501; there is no [try] around the
    statement, so an [Error] leaves the function. *)
Fixpoint load_products (db : database) (M : DataQualityMetrics)
    (id_map : gmap string Z) (df : list product_clean)
    : outcome (database * DataQualityMetrics * gmap string Z) :=
  match df with
  | [] => Finished (db, M, id_map)
  | row :: df' =>
      match insert_product db (safe_value (pc_product_name row))
              (safe_value (Some (pc_category row))) (safe_value (pc_price row))
              (safe_value (Some (pc_stock_quantity row))) with
      | (Inserted new_id, db') =>
          load_products db' (metrics_loaded M products_file 1)
                        (<[pc_product_id row := new_id]> id_map) df'
      | (_, _) => Raised M
      end
  end.

(** [process_products], lines 428-507. *)
Definition process_products (db : database) (M : DataQualityMetrics)
    (df : list product_raw) : outcome (database * DataQualityMetrics * gmap string Z) :=
  let '(df, M) := transform_products M df in
  load_products db M ∅ df.

(** ** 3. Sales *)

Definition is_orphan (r : sale_mapped) : bool :=
  isna (sm_db_customer_id r) || isna (sm_db_product_id r).

(** [df.dropna(subset=['db_customer_id', 'db_product_id'])]. *)
Fixpoint dropna_ids (df : list sale_mapped) : list sale_valid :=
  match df with
  | [] => []
  | r :: df' =>
      match sm_db_customer_id r, sm_db_product_id r with
      | Some c, Some p =>
          SaleValid (sale_transaction_id (sm_raw r)) c p
                    (sale_quantity (sm_raw r)) (sale_unit_price (sm_raw r))
                    (sale_transaction_date (sm_raw r))
          :: dropna_ids df'
      | _, _ => dropna_ids df'
      end
  end.

(** [valid_sales['transaction_date'] = ...]. *)
Fixpoint assign_transaction_date (df : list sale_valid) (dates : list (option string))
    : list sale_valid :=
  match df, dates with
  | r :: df', dt :: dates' =>
      SaleValid (sv_transaction_id r) (sv_db_customer_id r) (sv_db_product_id r)
                (sv_quantity r) (sv_unit_price r) dt
      :: assign_transaction_date df' dates'
  | _, _ => []
  end.

(** Steps 1 to 5, lines 536-577: [valid_sales] as the insert stage gets
    it, and the metrics after the transform. *)
Definition transform_sales (M : DataQualityMetrics) (cust_map prod_map : gmap string Z)
    (df : list sale_raw) : list sale_valid * DataQualityMetrics :=
  let file := sales_file in
  let M := metrics_read M file (length df) in
  let before := length df in
  let df := drop_duplicates (fun r => r) df in
  let M := metrics_dup M file (before - length df) in
  let df := map (fun r => SaleMapped r (cust_map !! sale_customer_id r)
                                     (prod_map !! sale_product_id r)) df in
  let orphans := List.filter is_orphan df in
  let M := metrics_dropped M file "orphan_record_missing_parent" (length orphans) in
  let valid_sales := dropna_ids df in
  let date_series := clean_date_series (map sv_transaction_date valid_sales) in
  let valid_sales := assign_transaction_date valid_sales (format_dates date_series) in
  let failed_dates := count_true (map (fun r => isna (sv_transaction_date r)) valid_sales) in
  if Nat.ltb 0 failed_dates then
    let M := metrics_dropped M file "invalid_transaction_date" failed_dates in
    (List.filter (fun r => negb (isna (sv_transaction_date r))) valid_sales, M)
  else (valid_sales, M).

(** The tuples of [item_rows], lines 610-620. *)
Definition item_rows_of (new_order_id : Z) (group : list sale_valid)
    : list (Z * Z * Z * Z * Z) :=
  map (fun row =>
         let subtotal := sv_quantity row * sv_unit_price row in
         (new_order_id, sv_db_product_id row, sv_quantity row, sv_unit_price row, subtotal))
      group.

(** The loop of lines 623-627; [None] when a statement raises. *)
Fixpoint insert_item_rows (db : database) (item_rows : list (Z * Z * Z * Z * Z))
    : option database :=
  match item_rows with
  | [] => Some db
  | (order_id, product_id, quantity, unit_price, subtotal) :: rest =>
      match insert_order_item db order_id product_id quantity unit_price subtotal with
      | (Inserted _, db') => insert_item_rows db' rest
      | (_, _) => None
      end
  end.

(** The body of the loop over the groups, lines 590-629; [None] when a
    statement raises. *)
Definition load_group (db : database) (items_loaded : nat) (group : list sale_valid)
    : option (database * nat) :=
  match group with
  | [] => None
  | first :: _ =>
      let customer_id := sv_db_customer_id first in
      let order_date := sv_transaction_date first in
      let total_amt := sum_Z (map (fun r => sv_quantity r * sv_unit_price r) group) in
      match insert_order db customer_id order_date total_amt with
      | (Inserted new_order_id, db') =>
          let item_rows := item_rows_of new_order_id group in
          match insert_item_rows db' item_rows with
          | Some db'' => Some (db'', (items_loaded + length item_rows)%nat)
          | None => None
          end
      | (_, _) => None
      end
  end.

Fixpoint load_groups (db : database) (items_loaded : nat)
    (grouped : list (string * list sale_valid)) : option (database * nat) :=
  match grouped with
  | [] => Some (db, items_loaded)
  | (_, group) :: grouped' =>
      match load_group db items_loaded group with
      | Some (db', items_loaded') => load_groups db' items_loaded' grouped'
      | None => None
      end
  end.

(** [process_sales], lines 512-635. *)
Definition process_sales (db : database) (M : DataQualityMetrics)
    (cust_map prod_map : gmap string Z) (df : list sale_raw)
    : outcome (database * DataQualityMetrics) :=
  let '(valid_sales, M) := transform_sales M cust_map prod_map df in
  let grouped := groupby sv_transaction_id valid_sales in
  match load_groups db 0%nat grouped with
  | Some (db', items_loaded) => Finished (db', metrics_loaded M sales_file items_loaded)
  | None => Raised M
  end.

(** ** The main block, lines 729-739 (after the schema is in place). *)
Definition run_pipeline (db : database) (customers_csv : list customer_raw)
    (products_csv : list product_raw) (sales_csv : list sale_raw)
    : outcome (database * DataQualityMetrics) :=
  let st := process_customers db METRICS customers_csv in
  let cust_map := cl_id_map st in
  match process_products (cl_db st) (cl_metrics st) products_csv with
  | Raised M => Raised M
  | Finished (db, M, prod_map) => process_sales db M cust_map prod_map sales_csv
  end.

(** ** Vocabulary of the properties *)

(** The growth of the five counters of one file. *)
Definition counter_delta (read dup filled dropped loaded : nat) (key : string) : nat :=
  if decide (key = "records_read") then read
  else if decide (key = "duplicates_removed") then dup
  else if decide (key = "missing_values_filled") then filled
  else if decide (key = "rows_dropped") then dropped
  else if decide (key = "records_loaded") then loaded
  else 0%nat.

(** [t'] is [t] with the counters of [file] grown by [d], every other
    counter as it was. *)
Definition grows (t t' : gmap string (gmap string nat)) (file : string)
    (d : string -> nat) : Prop :=
  forall f k, counter t' f k
              = (counter t f k + (if decide (f = file) then d k else 0))%nat.

(** The growth of one drop reason. *)
Definition reason_delta (reason : string) (n : nat) (key : string) : nat :=
  if decide (key = reason) then n else 0%nat.

(** Step 4 of the customer loader on one row. *)
Definition clean_customer (r : customer_raw) : customer_clean :=
  CustomerClean (cust_customer_id r) (cust_first_name r) (cust_last_name r)
                (cust_email r) (clean_phone (cust_phone r)) (cust_city r)
                (match clean_date (cust_registration_date r) with
                 | Some d => Some (strftime_ymd d)
                 | None => None
                 end).

Definition has_email_cell (r : customer_raw) : bool := negb (isna (cust_email r)).

(** The rows of the customer file that reach the insert loop. *)
Definition customers_reaching_insert (df : list customer_raw) : list customer_raw :=
  List.filter has_email_cell (drop_duplicates cust_email df).

(** A customer row the storage refuses whatever the tables hold: a NOT
    NULL column is missing. *)
Definition insert_fails (row : customer_clean) : bool :=
  isna (cc_first_name row) || isna (cc_last_name row) || isna (cc_email row).

(** Steps 3 and 4 of the product loader on one row. *)
Definition clean_product (r : product_raw) : product_clean :=
  ProductClean (prod_product_id r) (prod_product_name r)
               (py_title (astype_str (prod_category r)))
               (prod_price r) (default 0 (prod_stock_quantity r)).

Definition has_price (r : product_raw) : bool := negb (isna (prod_price r)).

(** The rows of the product file that reach the insert loop. *)
Definition products_reaching_insert (df : list product_raw) : list product_raw :=
  List.filter has_price (drop_duplicates prod_product_id df).

(** A product row the storage refuses: a NOT NULL column is missing. *)
Definition product_insert_fails (row : product_clean) : bool :=
  isna (pc_product_name row) || isna (pc_price row).

(** The rows the product loop stores for a frame, keys from [next] on. *)
Fixpoint stored_products (next : Z) (frame : list product_clean) : list product_row :=
  match frame with
  | [] => []
  | row :: frame' =>
      match pc_product_name row, pc_price row with
      | Some name, Some price =>
          ProductRow next name (pc_category row) price (Some (pc_stock_quantity row))
          :: stored_products (next + 1) frame'
      | _, _ => []
      end
  end.

(** The database invariant of the customers table: the UNIQUE email and
    an AUTO_INCREMENT counter that has not reached 0. *)
Definition customers_wf (db : database) : Prop :=
  NoDup (map c_email (customers db)) /\ 0 < next_customer_id db.

(** Step 3 of the sales loader on one row. *)
Definition map_ids (cust_map prod_map : gmap string Z) (r : sale_raw) : sale_mapped :=
  SaleMapped r (cust_map !! sale_customer_id r) (prod_map !! sale_product_id r).

(** Step 5 of the sales loader on one row. *)
Definition normalize_sale (r : sale_valid) : sale_valid :=
  SaleValid (sv_transaction_id r) (sv_db_customer_id r) (sv_db_product_id r)
            (sv_quantity r) (sv_unit_price r)
            (match clean_date (sv_transaction_date r) with
             | Some d => Some (strftime_ymd d)
             | None => None
             end).

Definition has_date (r : sale_valid) : bool := negb (isna (sv_transaction_date r)).

(** The rows of [valid_sales] before and after the date step. *)
Definition sales_resolved (cust_map prod_map : gmap string Z) (df : list sale_raw)
    : list sale_valid :=
  dropna_ids (map (map_ids cust_map prod_map) (drop_duplicates (fun r => r) df)).

Definition sales_reaching_insert (cust_map prod_map : gmap string Z) (df : list sale_raw)
    : list sale_valid :=
  List.filter has_date (map normalize_sale (sales_resolved cust_map prod_map df)).

(** The order and the order items the loop writes for one group. *)
Definition expected_order (order_id : Z) (group : list sale_valid) : list order_row :=
  match group with
  | first :: _ =>
      match sv_transaction_date first with
      | Some order_date =>
          [OrderRow order_id (sv_db_customer_id first) order_date
                    (sum_Z (map (fun r => sv_quantity r * sv_unit_price r) group))
                    "Completed"]
      | None => []
      end
  | [] => []
  end.

Fixpoint expected_items (next_item order_id : Z) (group : list sale_valid)
    : list order_item_row :=
  match group with
  | [] => []
  | r :: group' =>
      OrderItemRow next_item order_id (sv_db_product_id r) (sv_quantity r)
                   (sv_unit_price r) (sv_quantity r * sv_unit_price r)
      :: expected_items (next_item + 1) order_id group'
  end.

Fixpoint expected_orders (next_order : Z) (groups : list (list sale_valid))
    : list order_row :=
  match groups with
  | [] => []
  | g :: groups' => expected_order next_order g ++ expected_orders (next_order + 1) groups'
  end.

Fixpoint expected_order_items (next_item next_order : Z) (groups : list (list sale_valid))
    : list order_item_row :=
  match groups with
  | [] => []
  | g :: groups' =>
      expected_items next_item next_order g
      ++ expected_order_items (next_item + Z.of_nat (length g)) (next_order + 1) groups'
  end.

(** The storage accepts the order of a group and all its items: the
    order date is there and the foreign keys point to stored rows. *)
Definition group_accepted (db : database) (group : list sale_valid) : bool :=
  match group with
  | first :: _ =>
      negb (isna (sv_transaction_date first))
      && has_customer db (sv_db_customer_id first)
      && forallb (fun r => has_product db (sv_db_product_id r)) group
  | [] => false
  end.

(** The tables a loader leaves behind; [None] when it raised. *)
Definition tables_of {A} (o : outcome (database * A)) : option database :=
  match o with
  | Finished (db, _) => Some db
  | Raised _ => None
  end.

(** The Order of a transaction group, in the words of the spec: the
    customer and date of the first row, the total of quantity x
    unit_price over the group, status "Completed". *)
Definition order_of_group (group : list sale_valid) (o : order_row) : Prop :=
  o_total_amount o = sum_Z (map (fun r => sv_quantity r * sv_unit_price r) group) /\
  o_status o = "Completed" /\
  exists first rest,
    group = first :: rest /\
    o_customer_id o = sv_db_customer_id first /\
    sv_transaction_date first = Some (o_order_date o).

(** The OrderItem of a row of the group of order [o]. *)
Definition item_of_row (o : order_row) (r : sale_valid) (it : order_item_row) : Prop :=
  i_order_id it = o_order_id o /\
  i_product_id it = sv_db_product_id r /\
  i_quantity it = sv_quantity r /\
  i_unit_price it = sv_unit_price r /\
  i_subtotal it = sv_quantity r * sv_unit_price r.

(** The state of [METRICS] when a loader is left. *)
Definition metrics_of {A} (o : outcome (A * DataQualityMetrics)) : DataQualityMetrics :=
  match o with
  | Finished (_, M) => M
  | Raised M => M
  end.

(** A sales row whose customer or product id is not in its map. *)
Definition is_orphan_raw (cust_map prod_map : gmap string Z) (r : sale_raw) : bool :=
  isna (cust_map !! sale_customer_id r) || isna (prod_map !! sale_product_id r).

(** Every key of the two maps is the key of a stored row. *)
Definition maps_resolve (db : database) (cust_map prod_map : gmap string Z) : Prop :=
  (forall k id, cust_map !! k = Some id -> has_customer db id = true) /\
  (forall k id, prod_map !! k = Some id -> has_product db id = true).

(** The accounting of one file: every row read is a duplicate removed,
    a row dropped or a row that reached the insert stage, and no more
    rows are loaded than reached it. *)
Definition accounted (M : DataQualityMetrics) (file : string) (reached : nat) : Prop :=
  records_read M file
  = (duplicates_removed M file + rows_dropped M file + reached)%nat /\
  (records_loaded M file <= reached)%nat.

(** The spellings of a date in the other three formats of
    [clean_date_series], the fields zero padded: 'DD/MM/YYYY',
    'MM-DD-YYYY' and 'MM/DD/YYYY'. *)
Definition text_dmy_slash (d : date) : string :=
  two_digits (day d) +:+ "/" +:+ two_digits (month d) +:+ "/" +:+ four_digits (year d).
Definition text_mdy_dash (d : date) : string :=
  two_digits (month d) +:+ "-" +:+ two_digits (day d) +:+ "-" +:+ four_digits (year d).
Definition text_mdy_slash (d : date) : string :=
  two_digits (month d) +:+ "/" +:+ two_digits (day d) +:+ "/" +:+ four_digits (year d).

(** The date a format makes of the three numbers it read: NaT when the
    calendar has no such day or the day is out of bounds. *)
Definition checked_date (y m d : Z) : option date :=
  if valid_date (Date y m d) && datetime_in_bounds (Date y m d)
  then Some (Date y m d) else None.

Definition in_range (v hi : Z) : bool := (1 <=? v) && (v <=? hi).

(** The [k] lowest decimal digits of [n], most significant first. *)
Fixpoint decimal (k : nat) (n : Z) : string :=
  match k with
  | O => ""
  | S k' => decimal k' (n / 10) +:+ String (digit_char (n mod 10)) ""
  end.

(** A call of one of the five methods of the tracker. *)
Inductive tracker_call :=
| CallRead (file : string) (n : nat)
| CallDup (file : string) (n : nat)
| CallFilled (file : string) (n : nat)
| CallLoaded (file : string) (n : nat)
| CallDropped (file reason : string) (n : nat).

Definition tracker_do (M : DataQualityMetrics) (c : tracker_call) : DataQualityMetrics :=
  match c with
  | CallRead file n => metrics_read M file n
  | CallDup file n => metrics_dup M file n
  | CallFilled file n => metrics_filled M file n
  | CallLoaded file n => metrics_loaded M file n
  | CallDropped file reason n => metrics_dropped M file reason n
  end.

(** The sum of the counts of a [defaultdict(int)]. *)
Definition total_count (m : gmap string nat) : nat :=
  map_fold (fun _ n acc => (n + acc)%nat) 0%nat m.

(** Every entry of [id_map] names a stored customer that has the email
    of a loaded row with that source id. *)
Definition id_map_points (P : customer_clean -> Prop) (st : customer_load) : Prop :=
  forall k id, cl_id_map st !! k = Some id ->
    exists c row, c ∈ customers (cl_db st) /\ c_customer_id c = id /\
                  P row /\ cc_customer_id row = k /\ cc_email row = Some (c_email c).

(** What one iteration of the customer loop leaves in [id_map] when the
    table already has a customer of the email of the row: the key of
    that customer. *)
Definition map_existing (db : database) (id_map : gmap string Z) (row : customer_clean)
    : gmap string Z :=
  if insert_fails row then id_map
  else match cc_email row with
       | Some e =>
           match select_customer_id_by_email db e with
           | Some existing => <[cc_customer_id row := existing]> id_map
           | None => id_map
           end
       | None => id_map
       end.

(** The customer the loop stores for a row of the frame. *)
Definition stored_from (row : customer_clean) (c : customer_row) : Prop :=
  cc_first_name row = Some (c_first_name c) /\
  cc_last_name row = Some (c_last_name c) /\
  cc_email row = Some (c_email c) /\
  c_phone c = cc_phone row /\
  c_city c = cc_city row /\
  c_registration_date c = cc_registration_date row.

(** A string in lower case, byte by byte. *)
Fixpoint lower (s : string) : string :=
  match s with
  | EmptyString => EmptyString
  | String c s' => String (to_lower c) (lower s')
  end.

(** Text of ASCII characters only: the text on which [str.title] and
    [str.lower] act byte by byte, as [py_title] and [lower] do. *)
Fixpoint ascii_only (s : string) : bool :=
  match s with
  | EmptyString => true
  | String c s' => Nat.ltb (nat_of_ascii c) 128 && ascii_only s'
  end.

(** A stored product under a key moved by [n]. *)
Definition rekey (n : Z) (p : product_row) : product_row :=
  ProductRow (p_product_id p + n) (p_product_name p) (p_category p) (p_price p)
             (p_stock_quantity p).

(** The product the loop stores for a row of the file. *)
Definition product_stored_from (id_map : gmap string Z) (r : product_raw) (p : product_row)
    : Prop :=
  prod_product_name r = Some (p_product_name p) /\
  p_category p = py_title (astype_str (prod_category r)) /\
  (prod_category r = None -> p_category p = "Nan") /\
  prod_price r = Some (p_price p) /\
  p_stock_quantity p = Some (default 0 (prod_stock_quantity r)) /\
  id_map !! prod_product_id r = Some (p_product_id p).

(** The tables respect the schema of [create_database_schema]: in each
    table the keys are pairwise different and below the AUTO_INCREMENT
    counter, the emails are pairwise different, and every foreign key
    is the key of a stored row. *)
Definition schema_respected (db : database) : Prop :=
  NoDup (map c_email (customers db)) /\
  (NoDup (map c_customer_id (customers db)) /\
   Forall (fun c => c_customer_id c < next_customer_id db) (customers db)) /\
  (NoDup (map p_product_id (products db)) /\
   Forall (fun p => p_product_id p < next_product_id db) (products db)) /\
  (NoDup (map o_order_id (orders db)) /\
   Forall (fun o => o_order_id o < next_order_id db) (orders db)) /\
  (NoDup (map i_order_item_id (order_items db)) /\
   Forall (fun i => i_order_item_id i < next_order_item_id db) (order_items db)) /\
  Forall (fun o => has_customer db (o_customer_id o) = true) (orders db) /\
  Forall (fun i => has_order db (i_order_id i) = true /\
                   has_product db (i_product_id i) = true) (order_items db).

(** * Properties *)

(** ** Date normalizer *)

Lemma strptime_valid fmt s d :
  strptime fmt s = Some d -> valid_date d = true /\ datetime_in_bounds d = true.
Proof.
  unfold strptime.
  destruct (match_format fmt s None None None) as [[[[y|] [m|]] [dd|]]|]; try discriminate.
  destruct (valid_date _) eqn:Hv; simpl; try discriminate.
  destruct (datetime_in_bounds _) eqn:Hb; try discriminate.
  intros [= <-]. auto.
Qed.

Lemma clean_date_valid cell d :
  clean_date cell = Some d -> valid_date d = true /\ datetime_in_bounds d = true.
Proof.
  destruct cell as [s|]; simpl; [|discriminate].
  destruct (strptime fmt_ymd_dash s) eqn:Ha.
  { intros [= <-]. eauto using strptime_valid. }
  destruct (strptime fmt_dmy_slash s) eqn:Hb.
  { intros [= <-]. eauto using strptime_valid. }
  destruct (strptime fmt_mdy_dash s) eqn:Hc.
  { intros [= <-]. eauto using strptime_valid. }
  eauto using strptime_valid.
Qed.

(** One masked retry, cell by cell: a cell that already has a date keeps
    it, a NaT cell takes the parse of its raw string under [fmt]. *)
Lemma assign_mask_retry fmt (g : option string -> option date) series :
  assign_mask (map g series) (isna_mask (map g series))
              (to_datetime fmt (select_mask series (isna_mask (map g series))))
  = map (fun cell =>
           match g cell with
           | Some d => Some d
           | None => match cell with Some s => strptime fmt s | None => None end
           end) series.
Proof.
  induction series as [|cell series IH]; simpl; [reflexivity|].
  destruct (g cell) as [d|]; simpl; rewrite IH; reflexivity.
Qed.

Lemma clean_date_series_pointwise series :
  clean_date_series series = map clean_date series.
Proof.
  unfold clean_date_series. cbv zeta.
  change (to_datetime fmt_ymd_dash series)
    with (map (fun cell => match cell with
                           | Some s => strptime fmt_ymd_dash s
                           | None => None
                           end) series).
  rewrite assign_mask_retry, assign_mask_retry, assign_mask_retry.
  apply map_ext. intros [s|]; simpl; [|reflexivity].
  destruct (strptime fmt_ymd_dash s); [reflexivity|].
  destruct (strptime fmt_dmy_slash s); [reflexivity|].
  destruct (strptime fmt_mdy_dash s); reflexivity.
Qed.

(** C5 -- Date normalizer totality.  [clean_date_series] is a total
    function (it has a value on every series, so nothing is thrown); its
    result has the length and the order of the input, entry [i] being the
    four attempts (year-month-day, day/month/year, month-day-year,
    month/day/year, in that order, first success wins) on input [i];
    every entry is a valid calendar date or null; and an entry whose four
    attempts all fail is null. *)
Theorem clean_date_series_total (series : list (option string)) :
  length (clean_date_series series) = length series /\
  (forall i, clean_date_series series !! i = clean_date <$> series !! i) /\
  Forall (fun entry => match entry with
                       | Some d => valid_date d = true
                       | None => True
                       end) (clean_date_series series) /\
  (forall i s, series !! i = Some (Some s) ->
     strptime fmt_ymd_dash s = None -> strptime fmt_dmy_slash s = None ->
     strptime fmt_mdy_dash s = None -> strptime fmt_mdy_slash s = None ->
     clean_date_series series !! i = Some None).
Proof.
  rewrite clean_date_series_pointwise. repeat split.
  - apply length_map.
  - intros i. apply list_lookup_fmap.
  - apply Forall_forall. intros entry Hin.
    apply list_elem_of_In, in_map_iff in Hin as [cell [<- _]].
    destruct (clean_date cell) as [d|] eqn:Hd; [|exact I].
    apply clean_date_valid in Hd. tauto.
  - intros i s Hi Ha Hb Hc Hd.
    change (map clean_date series) with (clean_date <$> series).
    rewrite list_lookup_fmap, Hi. simpl. rewrite Ha, Hb, Hc, Hd. reflexivity.
Qed.

Lemma app_String c s t : String c s +:+ t = String c (s +:+ t).
Proof. reflexivity. Qed.

Lemma app_empty t : "" +:+ t = t.
Proof. reflexivity. Qed.

Ltac mod10_bound :=
  match goal with
  | |- 0 <= ?a mod 10 <= 9 => pose proof (Z.mod_pos_bound a 10); lia
  end.

Lemma digit_val_digit_char k : 0 <= k <= 9 -> digit_val (digit_char k) = Some k.
Proof.
  intros Hk.
  assert (Hcases : k = 0 \/ k = 1 \/ k = 2 \/ k = 3 \/ k = 4 \/
                   k = 5 \/ k = 6 \/ k = 7 \/ k = 8 \/ k = 9) by lia.
  repeat (destruct Hcases as [-> | Hcases]; [reflexivity|]).
  subst k. reflexivity.
Qed.

Lemma read_year_four_digits y rest :
  0 <= y <= 9999 -> read_year (four_digits y +:+ rest) = Some (y, rest).
Proof.
  drop_parameters.
  intros Hy. unfold four_digits, two_digits.
  rewrite !app_String, app_empty. cbn [read_year].
  rewrite !digit_val_digit_char by mod10_bound.
  f_equal. f_equal. Z.to_euclidean_division_equations. lia.
Qed.

Lemma read_field_two_digits hi v rest :
  1 <= v <= hi -> hi <= 99 -> read_field hi (two_digits v +:+ rest) = Some (v, rest).
Proof.
  drop_parameters.
  intros Hv Hhi. unfold two_digits.
  rewrite !app_String, app_empty. cbn [read_field].
  rewrite !digit_val_digit_char by mod10_bound.
  replace (10 * (v / 10 mod 10) + v mod 10) with v
    by (Z.to_euclidean_division_equations; lia).
  replace ((1 <=? v) && (v <=? hi)) with true; [reflexivity|].
  symmetry. apply andb_true_intro. split; apply Z.leb_le; lia.
Qed.

Lemma valid_date_bounds d :
  valid_date d = true ->
  1 <= year d <= 9999 /\ 1 <= month d <= 12 /\ 1 <= day d <= 31.
Proof.
  unfold valid_date. rewrite !andb_true_iff, !Z.leb_le.
  intros [[[[[? ?] ?] ?] ?] Hd].
  assert (days_in_month (year d) (month d) <= 31).
  { unfold days_in_month.
    repeat match goal with |- context [if ?b then _ else _] => destruct b end; lia. }
  lia.
Qed.

(** The text [strftime] writes for a date is read back by the first
    format as the same date. *)
Lemma strptime_strftime_ymd d :
  valid_date d = true -> datetime_in_bounds d = true ->
  strptime fmt_ymd_dash (strftime_ymd d) = Some d.
Proof.
  intros Hv Hb. pose proof (valid_date_bounds d Hv) as (Hy & Hm & Hd).
  unfold strptime, strftime_ymd, fmt_ymd_dash. cbn [match_format].
  rewrite read_year_four_digits by lia.
  rewrite app_String, app_empty, Ascii.eqb_refl, read_field_two_digits by lia.
  rewrite app_String, app_empty, Ascii.eqb_refl.
  replace (two_digits (day d)) with (two_digits (day d) +:+ "")
    by (unfold two_digits; reflexivity).
  rewrite read_field_two_digits by lia.
  destruct d as [y m dd]; simpl in *. rewrite Hv, Hb. reflexivity.
Qed.

Lemma clean_date_strftime_ymd d :
  valid_date d = true -> datetime_in_bounds d = true ->
  clean_date (Some (strftime_ymd d)) = Some d.
Proof.
  intros Hv Hb. unfold clean_date. rewrite strptime_strftime_ymd by assumption.
  reflexivity.
Qed.

(** C6, as the code has it -- Date normalizer idempotence.  The
    year-month-day text of a calendar date that is inside the datetime
    range of the library normalizes to that date (outside the range it
    normalizes to null); hence normalizing the formatted output of the
    normalizer gives the same dates again. *)
Theorem clean_date_series_idempotent :
  (forall d, valid_date d = true -> datetime_in_bounds d = true ->
     clean_date_series [Some (strftime_ymd d)] = [Some d]) /\
  (forall series,
     clean_date_series (format_dates (clean_date_series series))
     = clean_date_series series).
Proof.
  split.
  - intros d Hv Hb. rewrite clean_date_series_pointwise. cbn [map].
    rewrite clean_date_strftime_ymd by assumption. reflexivity.
  - intros series. rewrite !clean_date_series_pointwise.
    unfold format_dates. rewrite map_map, map_map. apply map_ext.
    intros cell. destruct (clean_date cell) as [d|] eqn:Hd; [|reflexivity].
    apply clean_date_valid in Hd as [Hv Hb].
    apply clean_date_strftime_ymd; assumption.
Qed.

(** ** Phone normalizer *)

Lemma is_digit_digit_char k : 0 <= k <= 9 -> is_digit (digit_char k) = true.
Proof.
  intros Hk. pose proof (digit_val_digit_char k Hk) as H.
  unfold digit_val in H. destruct (is_digit (digit_char k)); [reflexivity|discriminate].
Qed.

Lemma all_digits_app s t :
  all_digits (s +:+ t) = all_digits s && all_digits t.
Proof.
  induction s as [|c s IH]; [reflexivity|].
  rewrite app_String. cbn [all_digits]. rewrite IH, andb_assoc. reflexivity.
Qed.

Lemma length_app_string s t :
  String.length (s +:+ t) = (String.length s + String.length t)%nat.
Proof.
  induction s as [|c s IH]; [reflexivity|].
  rewrite app_String. cbn [String.length]. rewrite IH. reflexivity.
Qed.

(** The digits written by [digits_fuel]: all decimal, and as many as the
    magnitude of the number asks for. *)
Lemma digits_fuel_spec fuel : forall n acc,
  (1 <= fuel)%nat -> 0 <= n < 2 ^ Z.of_nat fuel ->
  exists ds, digits_fuel fuel n acc = ds +:+ acc /\
             all_digits ds = true /\
             (1 <= String.length ds)%nat /\
             forall k : nat, (1 <= k)%nat ->
               ((String.length ds <= k)%nat <-> n < 10 ^ Z.of_nat k).
Proof.
  induction fuel as [|fuel IH]; intros n acc Hfuel Hn; [lia|].
  cbn [digits_fuel]. destruct (n <? 10) eqn:Hlt.
  - apply Z.ltb_lt in Hlt.
    exists (String (digit_char (n mod 10)) "").
    repeat split.
    + cbn [all_digits]. rewrite is_digit_digit_char by mod10_bound. reflexivity.
    + cbn [String.length]. lia.
    + intros _. assert (10 ^ 1 <= 10 ^ Z.of_nat k) by (apply Z.pow_le_mono_r; lia). lia.
    + cbn [String.length]. lia.
  - apply Z.ltb_ge in Hlt.
    destruct (IH (n / 10) (String (digit_char (n mod 10)) acc)) as (ds & Heq & Hall & Hlen & Hk).
    { destruct fuel as [|fuel']; [simpl in Hn; lia|lia]. }
    { rewrite Nat2Z.inj_succ, Z.pow_succ_r in Hn by lia.
      split; [apply Z.div_pos; lia|].
      apply Z.div_lt_upper_bound; lia. }
    exists (ds +:+ String (digit_char (n mod 10)) "").
    repeat split.
    + rewrite Heq. clear. induction ds as [|c ds IHds]; [reflexivity|].
      rewrite !app_String, IHds. reflexivity.
    + rewrite all_digits_app, Hall. cbn [all_digits].
      rewrite is_digit_digit_char by mod10_bound. reflexivity.
    + rewrite length_app_string. lia.
    + rewrite length_app_string. cbn [String.length]. intros Hle.
      destruct k as [|[|k]]; [lia|lia|].
      assert (Hd : n / 10 < 10 ^ Z.of_nat (S k)) by (apply Hk; lia).
      rewrite (Nat2Z.inj_succ (S k)), Z.pow_succ_r by lia.
      pose proof (Z.mul_div_le n 10). pose proof (Z.mod_pos_bound n 10).
      pose proof (Z.div_mod n 10). lia.
    + rewrite length_app_string. cbn [String.length]. intros Hlt10.
      destruct k as [|[|k]]; [lia|simpl in Hlt10; lia|].
      assert (Hd : (String.length ds <= S k)%nat).
      { apply Hk; [lia|].
        rewrite (Nat2Z.inj_succ (S k)), Z.pow_succ_r in Hlt10 by lia.
        apply Z.div_lt_upper_bound; lia. }
      lia.
Qed.

Lemma str_of_nonneg_spec n :
  0 <= n ->
  all_digits (str_of_nonneg n) = true /\
  forall k : nat, (1 <= k)%nat ->
    ((String.length (str_of_nonneg n) <= k)%nat <-> n < 10 ^ Z.of_nat k).
Proof.
  intros Hn. unfold str_of_nonneg.
  destruct (digits_fuel_spec (S (Z.to_nat (Z.log2 n))) n "") as (ds & Heq & Hall & _ & Hk).
  { lia. }
  { split; [assumption|].
    rewrite Nat2Z.inj_succ, Z2Nat.id by apply Z.log2_nonneg.
    destruct (Z.eq_dec n 0) as [->|Hne]; [reflexivity|].
    apply Z.log2_spec. lia. }
  rewrite Heq.
  assert (Hnil : ds +:+ "" = ds).
  { clear. induction ds as [|c ds IH]; [reflexivity|]. rewrite app_String, IH. reflexivity. }
  rewrite Hnil. split; assumption.
Qed.

Lemma substring_digits s : forall n m,
  (n + m <= String.length s)%nat -> all_digits s = true ->
  String.length (substring n m s) = m /\ all_digits (substring n m s) = true.
Proof.
  induction s as [|c s IH]; intros n m Hlen Hall.
  - cbn [String.length] in Hlen. assert (n = 0%nat) by lia. assert (m = 0%nat) by lia.
    subst. split; reflexivity.
  - cbn [all_digits] in Hall. apply andb_true_iff in Hall as [Hc Hs].
    cbn [String.length] in Hlen.
    destruct n as [|n].
    + destruct m as [|m]; [split; reflexivity|].
      cbn [substring]. destruct (IH 0%nat m) as [Hl Hd]; [lia|assumption|].
      cbn [String.length all_digits]. rewrite Hl, Hc, Hd. split; reflexivity.
    + cbn [substring]. apply IH; [lia|assumption].
Qed.

Lemma substring_whole s : substring 0 (String.length s) s = s.
Proof.
  induction s as [|c s IH]; [reflexivity|].
  cbn [String.length substring]. rewrite IH. reflexivity.
Qed.

Lemma canonical_last_ten s :
  all_digits s = true -> (10 <= String.length s)%nat ->
  canonical_phone ("+91-" +:+ str_last 10 s).
Proof.
  intros Hall Hlen. exists (str_last 10 s). unfold str_last.
  destruct (substring_digits s (String.length s - 10) 10) as [Hl Hd]; [lia|assumption|].
  auto.
Qed.

Lemma not_canonical_minus ds : ~ canonical_phone ("+91-" +:+ String "-" ds).
Proof.
  intros (d & Heq & _ & Hall).
  rewrite !app_String, !app_empty in Heq. injection Heq as <-.
  cbn [all_digits] in Hall. apply andb_true_iff in Hall as [Hc _].
  vm_compute in Hc. discriminate.
Qed.

(** What [clean_phone] returns, by the integer [int(float(phone))]: the
    canonical form, except for the negative integers of nine digits,
    whose sign is one of the "last ten" characters of [str]. *)
Lemma clean_phone_shape phone out :
  clean_phone phone = Some out ->
  exists f z, py_float phone = Some f /\ py_int_of_float f = Some z /\
    ((-999999999 <= z <= -100000000 /\
      out = "+91-" +:+ py_str_of_int z /\ ~ canonical_phone out) \/
     (~ (-999999999 <= z <= -100000000) /\ canonical_phone out)).
Proof.
  unfold clean_phone. destruct (pd_isna phone); [discriminate|].
  destruct (py_float phone) as [f|] eqn:Hf; [|discriminate].
  destruct (py_int_of_float f) as [z|] eqn:Hz; [|discriminate].
  cbv zeta. destruct (Nat.leb 10 _) eqn:Hlen; [|discriminate].
  apply Nat.leb_le in Hlen. intros [= <-]. exists f, z. do 2 (split; [first [reflexivity | assumption]|]).
  clear Hf Hz.
  unfold py_str_of_int in *. destruct (z <? 0) eqn:Hneg.
  - apply Z.ltb_lt in Hneg.
    destruct (str_of_nonneg_spec (- z)) as [Hall Hk]; [lia|].
    set (ds := str_of_nonneg (- z)) in *. cbn [String.length] in Hlen.
    destruct (Nat.le_gt_cases 10 (String.length ds)) as [Hlong|Hshort].
    + right. split.
      * intros Hz. assert (Hlt : - z < 10 ^ Z.of_nat 9) by (simpl; lia).
        apply Hk in Hlt; lia.
      * unfold str_last. cbn [String.length].
        replace (S (String.length ds) - 10)%nat with (S (String.length ds - 10)) by lia.
        cbn [substring]. apply canonical_last_ten; assumption.
    + left. assert (Hnine : String.length ds = 9%nat) by lia.
      assert (Hlast : str_last 10 (String "-" ds) = String "-" ds).
      { unfold str_last. cbn [String.length]. rewrite Hnine. cbn [Nat.sub substring].
        rewrite <- Hnine at 1. rewrite substring_whole. reflexivity. }
      rewrite Hlast. split; [|split; [reflexivity|apply not_canonical_minus]].
      assert (H9 : - z < 10 ^ Z.of_nat 9) by (apply Hk; lia).
      assert (H8 : ~ - z < 10 ^ Z.of_nat 8) by (intros H; apply Hk in H; lia).
      simpl in H9, H8. lia.
  - apply Z.ltb_ge in Hneg.
    destruct (str_of_nonneg_spec z Hneg) as [Hall _].
    right. split; [lia|]. apply canonical_last_ten; assumption.
Qed.

(** C2 -- the phone normalizer at -123456789: the result is neither null
    nor "+91-" followed by ten digits.  [str] of the integer has ten
    characters, the first of them the minus sign. *)
Theorem clean_phone_negative_nine_digits :
  clean_phone (RawInt (-123456789)) = Some "+91--123456789" /\
  clean_phone (RawFloat (S754_finite true 123456789 0)) = Some "+91--123456789" /\
  ~ canonical_phone "+91--123456789".
Proof.
  split; [vm_compute; reflexivity|].
  split; [vm_compute; reflexivity|].
  apply (not_canonical_minus "123456789").
Qed.

(** ** Metrics tracker *)

Lemma counter_bump (t : gmap string (gmap string nat)) file key n file' key' :
  counter (bump t file key n) file' key'
  = (counter t file' key' + (if decide (file = file' /\ key = key') then n else 0))%nat.
Proof.
  drop_parameters.
  unfold bump. unfold counter at 1.
  destruct (decide (file = file')) as [<-|Hf].
  - rewrite lookup_insert_eq. cbn [from_option id].
    destruct (decide (key = key')) as [<-|Hk].
    + rewrite lookup_insert_eq. cbn [from_option id].
      rewrite decide_True by auto. reflexivity.
    + rewrite lookup_insert_ne by assumption.
      rewrite decide_False by tauto. unfold counter. lia.
  - rewrite lookup_insert_ne by assumption.
    rewrite decide_False by tauto. unfold counter. lia.
Qed.

(** Every update is an increment: no counter ever goes down. *)
Lemma counter_bump_mono (t : gmap string (gmap string nat)) file key n file' key' :
  (counter t file' key' <= counter (bump t file key n) file' key')%nat.
Proof. rewrite counter_bump. lia. Qed.

Lemma files_distinct :
  customers_file <> products_file /\ customers_file <> sales_file /\
  products_file <> sales_file.
Proof. repeat split; discriminate. Qed.

Ltac decide_contra :=
  exfalso;
  repeat match goal with H : _ /\ _ |- _ => destruct H end;
  subst;
  solve [ congruence
        | match goal with H : ~ (_ /\ _) |- _ => apply H; split; congruence end ].

Lemma grows_refl t file d : (forall k, d k = 0%nat) -> grows t t file d.
Proof. intros Hd f k. rewrite Hd. destruct (decide (f = file)); lia. Qed.

Lemma grows_trans t1 t2 t3 file d1 d2 :
  grows t1 t2 file d1 -> grows t2 t3 file d2 ->
  grows t1 t3 file (fun k => (d1 k + d2 k)%nat).
Proof.
  intros H1 H2 f k. rewrite H2, H1. destruct (decide (f = file)); lia.
Qed.

Lemma grows_ext t t' file d d' :
  (forall k, d k = d' k) -> grows t t' file d -> grows t t' file d'.
Proof. intros Hd H f k. rewrite H, Hd. reflexivity. Qed.

Lemma grows_bump t file key n :
  grows t (bump t file key n) file (reason_delta key n).
Proof.
  intros f k. rewrite counter_bump. unfold reason_delta.
  repeat case_decide; try lia; decide_contra.
Qed.

(** ** pandas frame operations *)

Lemma select_mask_filter {A} (p : A -> bool) (df : list A) :
  select_mask df (map p df) = List.filter p df.
Proof.
  induction df as [|r df IH]; [reflexivity|].
  cbn [map select_mask List.filter]. rewrite IH. reflexivity.
Qed.

Lemma count_true_filter {A} (p : A -> bool) (df : list A) :
  count_true (map p df) = length (List.filter p df).
Proof.
  unfold count_true. induction df as [|r df IH]; [reflexivity|].
  cbn [map List.filter]. unfold id at 1. destruct (p r); cbn [length]; rewrite IH; reflexivity.
Qed.

Lemma filter_length_split {A} (p : A -> bool) (df : list A) :
  length df = (length (List.filter p df)
               + length (List.filter (fun r => negb (p r)) df))%nat.
Proof.
  induction df as [|r df IH]; [reflexivity|].
  cbn [List.filter length]. destruct (p r); cbn [negb length]; lia.
Qed.

Section DropDuplicates.
Context {A K : Type} `{EqDecision K} (key : A -> K).

Lemma drop_duplicates_from_length seen df :
  (length (drop_duplicates_from key seen df) <= length df)%nat.
Proof.
  revert seen. induction df as [|r df IH]; intros seen; [reflexivity|].
  cbn [drop_duplicates_from]. case_decide; cbn [length].
  - specialize (IH seen). lia.
  - specialize (IH (key r :: seen)). lia.
Qed.

Lemma drop_duplicates_from_subset seen df r :
  r ∈ drop_duplicates_from key seen df -> r ∈ df /\ key r ∉ seen.
Proof.
  revert seen. induction df as [|r' df IH]; intros seen Hin.
  - inversion Hin.
  - cbn [drop_duplicates_from] in Hin. case_decide.
    + apply IH in Hin as [? ?]. split; [by right|done].
    + apply elem_of_cons in Hin as [->|Hin].
      * split; [by left|done].
      * apply IH in Hin as [? Hn]. split; [by right|].
        intros Hs. apply Hn. by right.
Qed.

(** Only membership in [seen] matters. *)
Lemma drop_duplicates_from_seen seen seen' df :
  (forall k, k ∈ seen <-> k ∈ seen') ->
  drop_duplicates_from key seen df = drop_duplicates_from key seen' df.
Proof.
  revert seen seen'. induction df as [|r df IH]; intros seen seen' Hs; [reflexivity|].
  cbn [drop_duplicates_from].
  destruct (decide (key r ∈ seen)) as [Hin|Hin];
    destruct (decide (key r ∈ seen')) as [Hin'|Hin'].
  - by apply IH.
  - exfalso. apply Hin'. by apply Hs.
  - exfalso. apply Hin. by apply Hs.
  - f_equal. apply IH. intros k. rewrite !elem_of_cons, Hs. reflexivity.
Qed.

Lemma drop_duplicates_from_app seen l1 l2 :
  drop_duplicates_from key seen (l1 ++ l2)
  = drop_duplicates_from key seen l1
    ++ drop_duplicates_from key (map key l1 ++ seen) l2.
Proof.
  revert seen. induction l1 as [|r l1 IH]; intros seen; [reflexivity|].
  cbn [app map drop_duplicates_from]. case_decide as Hin.
  - rewrite IH. f_equal. apply drop_duplicates_from_seen.
    intros k. rewrite !elem_of_app, elem_of_cons, !elem_of_app.
    split; [tauto|intros [->|Hk]; [auto|tauto]].
  - cbn [app]. rewrite IH. f_equal. f_equal. apply drop_duplicates_from_seen.
    intros k. rewrite !elem_of_app, !elem_of_cons, !elem_of_app. tauto.
Qed.

(** The kept rows have pairwise different keys. *)
Lemma drop_duplicates_from_NoDup seen df :
  NoDup (map key (drop_duplicates_from key seen df)).
Proof.
  revert seen. induction df as [|r df IH]; intros seen.
  - constructor.
  - cbn [drop_duplicates_from]. case_decide; [apply IH|].
    cbn [map]. constructor; [|apply IH].
    intros Hin. apply list_elem_of_fmap in Hin as (r' & Hk & Hr').
    apply drop_duplicates_from_subset in Hr' as [_ Hn].
    apply Hn. rewrite <- Hk. by left.
Qed.

(** Every key of the frame that was not seen before keeps a row. *)
Lemma drop_duplicates_from_complete seen df r :
  r ∈ df -> key r ∉ seen ->
  exists r', r' ∈ drop_duplicates_from key seen df /\ key r' = key r.
Proof.
  revert seen. induction df as [|r0 df IH]; intros seen Hin Hns.
  - inversion Hin.
  - cbn [drop_duplicates_from]. case_decide as Hs.
    + apply elem_of_cons in Hin as [->|Hin]; [done|].
      apply IH; assumption.
    + destruct (decide (key r = key r0)) as [Heq|Hne].
      * exists r0. split; [by left|done].
      * apply elem_of_cons in Hin as [->|Hin]; [done|].
        destruct (IH (key r0 :: seen) Hin) as (r' & Hr' & Hk).
        { rewrite elem_of_cons. intros [?|?]; [congruence|contradiction]. }
        exists r'. split; [by right|done].
Qed.

Lemma drop_duplicates_from_filter_length (p : A -> bool) seen df :
  (length (List.filter p (drop_duplicates_from key seen df))
   <= length (List.filter p df))%nat.
Proof.
  revert seen. induction df as [|r df IH]; intros seen; [reflexivity|].
  cbn [drop_duplicates_from List.filter]. case_decide.
  - specialize (IH seen). destruct (p r); cbn [length]; lia.
  - cbn [List.filter]. specialize (IH (key r :: seen)).
    destruct (p r); cbn [length]; lia.
Qed.
End DropDuplicates.

(** Rows without a key are duplicates of one another: at most one of
    them is kept, the first. *)
Lemma drop_duplicates_from_missing {A B} `{EqDecision B} (key : A -> option B) seen df :
  length (List.filter (fun r => isna (key r)) (drop_duplicates_from key seen df))
  = if decide (None ∈ seen) then 0%nat
    else Nat.min 1 (length (List.filter (fun r => isna (key r)) df)).
Proof.
  revert seen. induction df as [|r df IH]; intros seen.
  - cbn. case_decide; reflexivity.
  - cbn [drop_duplicates_from List.filter].
    destruct (decide (key r ∈ seen)) as [Hin|Hin].
    + rewrite IH. destruct (key r) as [b|] eqn:Hk; cbn [isna]; [reflexivity|].
      rewrite !decide_True by assumption. reflexivity.
    + cbn [List.filter]. destruct (key r) as [b|] eqn:Hk; cbn [isna].
      * rewrite IH. destruct (decide (None ∈ seen)) as [Hn|Hn].
        -- rewrite decide_True by (by right). reflexivity.
        -- rewrite decide_False; [reflexivity|].
           rewrite elem_of_cons. intros [?|?]; [discriminate|contradiction].
      * cbn [length]. rewrite IH, decide_True by (by left).
        rewrite decide_False by assumption. cbn [length]. lia.
Qed.

(** ** Customer loader: the transform *)

Lemma assign_customer_columns_map df :
  assign_customer_columns df
    (map (fun r => clean_phone (cust_phone r)) df)
    (format_dates (clean_date_series (map cust_registration_date df)))
  = map clean_customer df.
Proof.
  rewrite clean_date_series_pointwise. unfold format_dates.
  induction df as [|r df IH]; [reflexivity|].
  cbn [map assign_customer_columns]. rewrite IH. reflexivity.
Qed.

(** The frame that reaches the insert loop: the first row of each email,
    the row without email left out, phone and date standardized. *)
Lemma transform_customers_frame M df :
  fst (transform_customers M df) = map clean_customer (customers_reaching_insert df).
Proof.
  unfold transform_customers, customers_reaching_insert. cbv zeta. cbn [fst].
  rewrite map_map.
  change (fun x => negb (isna (cust_email x))) with has_email_cell.
  rewrite select_mask_filter. apply assign_customer_columns_map.
Qed.

Lemma transform_customers_metrics M df :
  let dedup := drop_duplicates cust_email df in
  let missing := length (List.filter (fun r => isna (cust_email r)) dedup) in
  let M' := snd (transform_customers M df) in
  exists filled,
    grows (metrics M) (metrics M') customers_file
          (counter_delta (length df) (length df - length dedup) filled missing 0) /\
    grows (drop_reasons M) (drop_reasons M') customers_file
          (reason_delta "missing_email" missing).
Proof.
  intros dedup missing M'. subst M'.
  unfold transform_customers. cbv zeta. cbn [snd].
  fold dedup.
  rewrite (count_true_filter (fun r => isna (cust_email r)) dedup). fold missing.
  set (invalid := count_true (map (fun r => isna (cc_registration_date r)) _)).
  exists invalid. destruct (Nat.ltb 0 invalid) eqn:Hinv.
  - cbn [metrics_filled metrics_dropped metrics_dup metrics_read metrics drop_reasons].
    split; [|apply grows_bump].
    eapply grows_ext; [|eapply grows_trans; [eapply grows_trans; [eapply grows_trans|]|];
                        apply grows_bump].
    intros k. unfold counter_delta, reason_delta.
    repeat case_decide; try lia; decide_contra.
  - apply Nat.ltb_ge in Hinv. assert (invalid = 0%nat) as -> by lia.
    cbn [metrics_filled metrics_dropped metrics_dup metrics_read metrics drop_reasons].
    split; [|apply grows_bump].
    eapply grows_ext; [|eapply grows_trans; [eapply grows_trans|]; apply grows_bump].
    intros k. unfold counter_delta, reason_delta.
    repeat case_decide; try lia; decide_contra.
Qed.

(** ** Customer loader: the insert loop *)

(** The customers table only grows, by at most one row per iteration;
    [records_loaded] grows by the number of rows stored; nothing else of
    the metrics moves. *)
Lemma load_customer_growth st row :
  let st' := load_customer st row in
  exists new,
    customers (cl_db st') = customers (cl_db st) ++ new /\
    (length new <= 1)%nat /\
    grows (metrics (cl_metrics st)) (metrics (cl_metrics st')) customers_file
          (reason_delta "records_loaded" (length new)) /\
    drop_reasons (cl_metrics st') = drop_reasons (cl_metrics st).
Proof.
  unfold load_customer, insert_customer.
  destruct (safe_value (cc_first_name row)) as [fn|];
    [destruct (safe_value (cc_last_name row)) as [ln|];
     [destruct (safe_value (cc_email row)) as [em|]|]|].
  1: destruct (existsb (has_email em) (customers (cl_db st))).
  1: destruct (match cc_email row with
               | Some e => select_customer_id_by_email (cl_db st) e
               | None => None
               end).
  all: cbn [cl_db cl_metrics customers].
  all: try (exists []; rewrite app_nil_r; cbn [length];
            repeat split; [lia|apply grows_refl; intros k; unfold reason_delta;
                                case_decide; reflexivity]).
  eexists [_]. cbn [length metrics_loaded metrics drop_reasons].
  repeat split; [lia|apply grows_bump].
Qed.

Lemma load_customers_growth rows : forall st,
  let st' := fold_left load_customer rows st in
  exists new,
    customers (cl_db st') = customers (cl_db st) ++ new /\
    (length new <= length rows)%nat /\
    grows (metrics (cl_metrics st)) (metrics (cl_metrics st')) customers_file
          (reason_delta "records_loaded" (length new)) /\
    drop_reasons (cl_metrics st') = drop_reasons (cl_metrics st).
Proof.
  induction rows as [|row rows IH]; intros st; cbn [fold_left].
  - exists []. rewrite app_nil_r. cbn [length]. repeat split; [lia|].
    apply grows_refl. intros k. unfold reason_delta. case_decide; reflexivity.
  - destruct (load_customer_growth st row) as (new1 & Hc1 & Hl1 & Hg1 & Hd1).
    destruct (IH (load_customer st row)) as (new2 & Hc2 & Hl2 & Hg2 & Hd2).
    exists (new1 ++ new2). rewrite Hc2, Hc1, <- app_assoc, length_app.
    repeat split; [cbn [length]; lia| |congruence].
    eapply grows_ext; [|eapply grows_trans; eassumption].
    intros k. unfold reason_delta. case_decide; reflexivity.
Qed.

Lemma process_customers_eq db M df :
  process_customers db M df
  = fold_left load_customer (fst (transform_customers M df))
              (CustomerLoad db (snd (transform_customers M df)) ∅ []).
Proof.
  unfold process_customers. destruct (transform_customers M df). reflexivity.
Qed.

(** What the customer loader does to the counters of its file. *)
Lemma process_customers_metrics db M df :
  let st := process_customers db M df in
  let dedup := drop_duplicates cust_email df in
  let missing := length (List.filter (fun r => isna (cust_email r)) dedup) in
  exists filled new,
    customers (cl_db st) = customers db ++ new /\
    (length new <= length (customers_reaching_insert df))%nat /\
    grows (metrics M) (metrics (cl_metrics st)) customers_file
          (counter_delta (length df) (length df - length dedup) filled missing
                         (length new)) /\
    grows (drop_reasons M) (drop_reasons (cl_metrics st)) customers_file
          (reason_delta "missing_email" missing).
Proof.
  intros st dedup missing. subst st. rewrite process_customers_eq.
  destruct (transform_customers_metrics M df) as (filled & Hm & Hr).
  destruct (load_customers_growth (fst (transform_customers M df))
              (CustomerLoad db (snd (transform_customers M df)) ∅ []))
    as (new & Hc & Hl & Hg & Hd).
  cbn [cl_db cl_metrics] in Hc, Hg, Hd.
  rewrite transform_customers_frame, length_map in Hl.
  exists filled, new. repeat split; [assumption|assumption| |].
  - eapply grows_ext; [|eapply grows_trans; eassumption].
    intros k. fold dedup. fold missing. unfold counter_delta, reason_delta.
    repeat case_decide; try lia; decide_contra.
  - rewrite Hd. exact Hr.
Qed.

Lemma grows_at t t' file d key :
  grows t t' file d -> counter t' file key = (counter t file key + d key)%nat.
Proof. intros H. rewrite H, decide_True by reflexivity. reflexivity. Qed.

Lemma grows_other t t' file d file' key :
  grows t t' file d -> file' <> file -> counter t' file' key = counter t file' key.
Proof. intros H Hne. rewrite H, decide_False by assumption. lia. Qed.

(** C10 -- rows without an email are duplicates of one another for
    [drop_duplicates]: after deduplication at most one of them is left
    (one exactly when the input has any), so the loader drops and counts
    under "missing_email" at most one row per run; the others, all but
    the first, are in the count of duplicates removed. *)
Theorem missing_email_dropped_at_most_once db M df :
  let st := process_customers db M df in
  let dedup := drop_duplicates cust_email df in
  let missing_in rows := length (List.filter (fun r => isna (cust_email r)) rows) in
  let present_in rows := length (List.filter has_email_cell rows) in
  missing_in dedup = Nat.min 1 (missing_in df) /\
  drop_reason (cl_metrics st) customers_file "missing_email"
    = (drop_reason M customers_file "missing_email" + Nat.min 1 (missing_in df))%nat /\
  rows_dropped (cl_metrics st) customers_file
    = (rows_dropped M customers_file + Nat.min 1 (missing_in df))%nat /\
  duplicates_removed (cl_metrics st) customers_file
    = (duplicates_removed M customers_file
       + (missing_in df - Nat.min 1 (missing_in df))
       + (present_in df - present_in dedup))%nat.
Proof.
  intros st dedup missing_in present_in.
  assert (Hmiss : missing_in dedup = Nat.min 1 (missing_in df)).
  { subst missing_in dedup. cbv beta. unfold drop_duplicates.
    rewrite (drop_duplicates_from_missing cust_email [] df).
    rewrite decide_False; [reflexivity|]. intros Hin. inversion Hin. }
  destruct (process_customers_metrics db M df) as (filled & new & _ & _ & Hm & Hr).
  fold st dedup in Hm, Hr. change (length _) with (missing_in dedup) in Hr.
  split; [exact Hmiss|].
  unfold drop_reason, rows_dropped, duplicates_removed.
  rewrite (grows_at _ _ _ _ "missing_email" Hr).
  rewrite (grows_at _ _ _ _ "rows_dropped" Hm).
  rewrite (grows_at _ _ _ _ "duplicates_removed" Hm).
  unfold reason_delta. rewrite decide_True by reflexivity.
  change (counter_delta _ _ _ ?d _ "rows_dropped") with d.
  change (counter_delta _ ?d _ _ _ "duplicates_removed") with d.
  fold (missing_in dedup). rewrite Hmiss.
  repeat split; try reflexivity.
  assert (Hdf : length df = (missing_in df + present_in df)%nat)
    by exact (filter_length_split (fun r => isna (cust_email r)) df).
  assert (Hdd : length dedup = (missing_in dedup + present_in dedup)%nat)
    by exact (filter_length_split (fun r => isna (cust_email r)) dedup).
  assert (Hp : (present_in dedup <= present_in df)%nat)
    by exact (drop_duplicates_from_filter_length cust_email has_email_cell [] df).
  rewrite Hmiss in Hdd. lia.
Qed.

(** ** Product loader *)

Lemma filter_map_comm {A B} (f : A -> B) (p : B -> bool) (l : list A) :
  List.filter p (map f l) = map f (List.filter (fun x => p (f x)) l).
Proof.
  induction l as [|x l IH]; [reflexivity|].
  cbn [map List.filter]. destruct (p (f x)); cbn [map]; rewrite IH; reflexivity.
Qed.

Lemma transform_products_frame M df :
  fst (transform_products M df) = map clean_product (products_reaching_insert df).
Proof.
  unfold transform_products, products_reaching_insert. cbv zeta. cbn [fst].
  fold clean_product. rewrite map_map, select_mask_filter, filter_map_comm.
  reflexivity.
Qed.

Lemma transform_products_metrics M df :
  let dedup := drop_duplicates prod_product_id df in
  let null_stock := length (List.filter (fun r => isna (prod_stock_quantity r)) dedup) in
  let missing := length (List.filter (fun r => isna (prod_price r)) dedup) in
  let M' := snd (transform_products M df) in
  grows (metrics M) (metrics M') products_file
        (counter_delta (length df) (length df - length dedup) null_stock missing 0) /\
  grows (drop_reasons M) (drop_reasons M') products_file
        (reason_delta "missing_price" missing).
Proof.
  intros dedup null_stock missing M'. subst M'.
  unfold transform_products. cbv zeta. cbn [snd].
  fold dedup. fold clean_product.
  rewrite (count_true_filter (fun r => isna (prod_stock_quantity r)) dedup).
  rewrite (count_true_filter (fun r => isna (pc_price r)) (map clean_product dedup)).
  rewrite filter_map_comm, length_map.
  change (fun x => isna (pc_price (clean_product x)))
    with (fun r => isna (prod_price r)).
  fold null_stock missing.
  cbn [metrics_filled metrics_dropped metrics_dup metrics_read metrics drop_reasons].
  split; [|apply grows_bump].
  eapply grows_ext; [|eapply grows_trans; [eapply grows_trans; [eapply grows_trans|]|];
                      apply grows_bump].
  intros k. unfold counter_delta, reason_delta.
  repeat case_decide; try lia; decide_contra.
Qed.

(** The product loop has no handler: it returns exactly when the storage
    accepts every row, and then it has stored every row of the frame. *)
Lemma load_products_spec frame : forall db M id_map,
  match load_products db M id_map frame with
  | Finished (db', M', id_map') =>
      Forall (fun row => product_insert_fails row = false) frame /\
      products db' = products db ++ stored_products (next_product_id db) frame /\
      length (stored_products (next_product_id db) frame) = length frame /\
      customers db' = customers db /\
      grows (metrics M) (metrics M') products_file
            (reason_delta "records_loaded" (length frame)) /\
      drop_reasons M' = drop_reasons M
  | Raised _ => Exists (fun row => product_insert_fails row = true) frame
  end.
Proof.
  induction frame as [|row frame IH]; intros db M id_map.
  - cbn [load_products stored_products length]. rewrite app_nil_r.
    repeat split; [constructor|].
    apply grows_refl. intros k. unfold reason_delta. case_decide; reflexivity.
  - cbn [load_products stored_products]. unfold insert_product.
    unfold safe_value. cbn [isna].
    destruct (pc_product_name row) as [name|] eqn:Hn; cbn [isna];
      [|apply Exists_cons_hd; unfold product_insert_fails; rewrite Hn; reflexivity].
    destruct (pc_price row) as [price|] eqn:Hp; cbn [isna];
      [|apply Exists_cons_hd; unfold product_insert_fails; rewrite Hn, Hp; reflexivity].
    match goal with
    | |- context [load_products ?d ?m ?i frame] => specialize (IH d m i)
    end.
    destruct (load_products _ _ _ frame) as [[[db' M'] id_map']|M'];
      [|apply Exists_cons_tl; assumption].
    cbn [products next_product_id customers metrics_loaded metrics drop_reasons] in IH.
    destruct IH as (Hall & Hprod & Hlen & Hcust & Hg & Hd).
    repeat split.
    + constructor; [unfold product_insert_fails; rewrite Hn, Hp; reflexivity|assumption].
    + rewrite Hprod, <- app_assoc. reflexivity.
    + cbn [length]. rewrite Hlen. reflexivity.
    + assumption.
    + eapply grows_ext; [|eapply grows_trans; [apply grows_bump|exact Hg]].
      intros k. unfold reason_delta. cbn [length]. case_decide; lia.
    + assumption.
Qed.

Lemma NoDup_map_filter {A B} (f : A -> B) (p : A -> bool) (l : list A) :
  NoDup (map f l) -> NoDup (map f (List.filter p l)).
Proof.
  induction l as [|x l IH]; intros Hnd; [constructor|].
  cbn [map] in Hnd. apply NoDup_cons in Hnd as [Hx Hnd].
  cbn [List.filter]. destruct (p x); [|auto].
  cbn [map]. apply NoDup_cons. split; [|auto].
  intros Hin. apply Hx.
  apply list_elem_of_fmap in Hin as (y & Hy & Hin).
  apply list_elem_of_fmap. exists y. split; [assumption|].
  apply list_elem_of_In in Hin. apply filter_In in Hin as [Hin _].
  apply list_elem_of_In. assumption.
Qed.

Lemma load_products_id_map frame : forall db M id_map db' M' id_map',
  load_products db M id_map frame = Finished (db', M', id_map') ->
  (forall k, k ∉ map pc_product_id frame -> id_map' !! k = id_map !! k) /\
  (NoDup (map pc_product_id frame) ->
   forall i row, frame !! i = Some row ->
     id_map' !! pc_product_id row = Some (next_product_id db + Z.of_nat i)).
Proof.
  induction frame as [|row0 frame IH]; intros db M id_map db' M' id_map' Hload.
  - cbn [load_products] in Hload. injection Hload as <- <- <-.
    split; [reflexivity|]. intros _ i row Hi. rewrite lookup_nil in Hi. discriminate.
  - cbn [load_products] in Hload. unfold insert_product in Hload.
    destruct (safe_value (pc_product_name row0)) as [name|]; [|discriminate].
    destruct (safe_value (Some (pc_category row0))) as [cat|]; [|discriminate].
    destruct (safe_value (pc_price row0)) as [price|]; [|discriminate].
    apply IH in Hload as [Hout Hin]. cbn [next_product_id] in Hin.
    split.
    + intros k Hk. cbn [map] in Hk. rewrite not_elem_of_cons in Hk.
      destruct Hk as [Hne Hk]. rewrite Hout by assumption.
      rewrite lookup_insert_ne by congruence. reflexivity.
    + intros Hnd i row Hi. cbn [map] in Hnd. apply NoDup_cons in Hnd as [Hfresh Hnd].
      destruct i as [|i]; cbn in Hi.
      * injection Hi as <-. rewrite Hout by assumption.
        rewrite lookup_insert_eq. f_equal. lia.
      * rewrite (Hin Hnd i row Hi). f_equal. lia.
Qed.

Lemma stored_products_lookup frame : forall next i row,
  Forall (fun row => product_insert_fails row = false) frame ->
  frame !! i = Some row ->
  exists name price,
    pc_product_name row = Some name /\ pc_price row = Some price /\
    stored_products next frame !! i
    = Some (ProductRow (next + Z.of_nat i) name (pc_category row) price
                       (Some (pc_stock_quantity row))).
Proof.
  induction frame as [|row0 frame IH]; intros next i row Hall Hi.
  - rewrite lookup_nil in Hi. discriminate.
  - apply Forall_cons in Hall as [H0 Hall]. unfold product_insert_fails in H0.
    apply orb_false_iff in H0 as [Hn Hp].
    cbn [stored_products].
    destruct (pc_product_name row0) as [name0|] eqn:Hn0; [|discriminate].
    destruct (pc_price row0) as [price0|] eqn:Hp0; [|discriminate].
    destruct i as [|i]; cbn in Hi.
    + injection Hi as <-. exists name0, price0. rewrite Hn0, Hp0.
      repeat split. cbn. do 2 f_equal. lia.
    + destruct (IH (next + 1) i row Hall Hi) as (name & price & Hname & Hprice & Hl).
      exists name, price. repeat split; [assumption|assumption|].
      etransitivity; [exact Hl|]. do 2 f_equal. lia.
Qed.

Lemma process_products_eq db M df :
  process_products db M df
  = load_products db (snd (transform_products M df)) ∅ (fst (transform_products M df)).
Proof.
  unfold process_products. destruct (transform_products M df). reflexivity.
Qed.

Lemma products_reaching_insert_elem df r :
  r ∈ products_reaching_insert df <->
  r ∈ drop_duplicates prod_product_id df /\ isna (prod_price r) = false.
Proof.
  unfold products_reaching_insert.
  rewrite !list_elem_of_In, filter_In. unfold has_price.
  rewrite negb_true_iff. reflexivity.
Qed.

(** The outcome of the product loader: it returns when every row that
    reaches the insert loop has a name, and raises otherwise. *)
Lemma process_products_outcome db M df :
  let dedup := drop_duplicates prod_product_id df in
  let null_stock := length (List.filter (fun r => isna (prod_stock_quantity r)) dedup) in
  let missing := length (List.filter (fun r => isna (prod_price r)) dedup) in
  let frame := map clean_product (products_reaching_insert df) in
  match process_products db M df with
  | Finished (db', M', id_map) =>
      Forall (fun row => product_insert_fails row = false) frame /\
      products db' = products db ++ stored_products (next_product_id db) frame /\
      length (stored_products (next_product_id db) frame) = length frame /\
      customers db' = customers db /\
      grows (metrics M) (metrics M') products_file
            (counter_delta (length df) (length df - length dedup) null_stock missing
                           (length frame)) /\
      grows (drop_reasons M) (drop_reasons M') products_file
            (reason_delta "missing_price" missing) /\
      (forall i row, frame !! i = Some row ->
         id_map !! pc_product_id row = Some (next_product_id db + Z.of_nat i))
  | Raised _ =>
      exists r, r ∈ products_reaching_insert df /\ prod_product_name r = None
  end.
Proof.
  intros dedup null_stock missing frame.
  rewrite process_products_eq.
  pose proof (load_products_spec (fst (transform_products M df)) db
                (snd (transform_products M df)) ∅) as Hspec.
  pose proof (load_products_id_map (fst (transform_products M df)) db
                (snd (transform_products M df)) ∅) as Hmap.
  destruct (transform_products_metrics M df) as [Hm Hr].
  fold dedup null_stock missing in Hm, Hr.
  rewrite transform_products_frame in *. fold frame in Hspec, Hmap |- *.
  destruct (load_products _ _ _ frame) as [[[db' M'] id_map]|M'].
  - destruct Hspec as (Hall & Hprod & Hlen & Hcust & Hg & Hd).
    repeat split; try assumption.
    + eapply grows_ext; [|eapply grows_trans; eassumption].
      intros k. unfold counter_delta, reason_delta.
      repeat case_decide; try lia; decide_contra.
    + rewrite Hd. exact Hr.
    + destruct (Hmap db' M' id_map eq_refl) as [_ Hin]. apply Hin.
      subst frame. rewrite map_map. cbn [clean_product pc_product_id].
      apply NoDup_map_filter. apply drop_duplicates_from_NoDup.
  - apply Exists_exists in Hspec as (row & Hin & Hfail).
    subst frame. apply list_elem_of_fmap in Hin as (r & -> & Hr').
    exists r. split; [assumption|].
    apply products_reaching_insert_elem in Hr' as [_ Hprice].
    unfold product_insert_fails in Hfail. cbn [clean_product pc_product_name pc_price] in Hfail.
    rewrite Hprice, orb_false_r in Hfail.
    destruct (prod_product_name r); [discriminate|reflexivity].
Qed.

(** C7, as the code has it -- product loader.  A row kept by the
    deduplication on product_id (the first row of its id) with
    stock_quantity absent and a price present reaches the insert loop
    with stock_quantity 0; each such row is one unit of the "filled"
    counter; no row without price reaches the insert loop and each is
    counted under "missing_price"; and when the storage accepts the
    rows (every row that reaches the loop has a name) the loader returns
    with that row stored with stock_quantity 0 and mapped in the
    IdentityMap.  When a row without a name reaches the loop the loader
    raises, and no row is stored. *)
Theorem missing_stock_filled_missing_price_dropped db M df :
  let dedup := drop_duplicates prod_product_id df in
  let null_stock := length (List.filter (fun r => isna (prod_stock_quantity r)) dedup) in
  let missing := length (List.filter (fun r => isna (prod_price r)) dedup) in
  let frame := fst (transform_products M df) in
  (forall r price,
     r ∈ dedup -> prod_stock_quantity r = None -> prod_price r = Some price ->
     clean_product r ∈ frame /\ pc_stock_quantity (clean_product r) = 0) /\
  (forall row, row ∈ frame -> isna (pc_price row) = false) /\
  ((forall r, r ∈ products_reaching_insert df -> isna (prod_product_name r) = false) ->
   exists db' M' id_map new,
     process_products db M df = Finished (db', M', id_map) /\
     products db' = products db ++ new /\
     missing_values_filled M' products_file
       = (missing_values_filled M products_file + null_stock)%nat /\
     drop_reason M' products_file "missing_price"
       = (drop_reason M products_file "missing_price" + missing)%nat /\
     rows_dropped M' products_file = (rows_dropped M products_file + missing)%nat /\
     forall r price,
       r ∈ dedup -> prod_stock_quantity r = None -> prod_price r = Some price ->
       exists row,
         row ∈ new /\
         p_stock_quantity row = Some 0 /\ p_price row = price /\
         prod_product_name r = Some (p_product_name row) /\
         id_map !! prod_product_id r = Some (p_product_id row)).
Proof.
  intros dedup null_stock missing frame. subst frame.
  rewrite transform_products_frame.
  assert (Hkept : forall r price, r ∈ dedup -> prod_price r = Some price ->
                    clean_product r ∈ map clean_product (products_reaching_insert df)).
  { intros r price Hr Hp. apply list_elem_of_fmap. exists r. split; [reflexivity|].
    apply products_reaching_insert_elem. rewrite Hp. auto. }
  split; [|split].
  - intros r price Hr Hs Hp. split; [eauto|].
    cbn [clean_product pc_stock_quantity]. rewrite Hs. reflexivity.
  - intros row Hin. apply list_elem_of_fmap in Hin as (r & -> & Hr).
    apply products_reaching_insert_elem in Hr as [_ Hp].
    cbn [clean_product pc_price]. exact Hp.
  - intros Hnames.
    pose proof (process_products_outcome db M df) as Hout. cbv zeta in Hout.
    fold dedup null_stock missing in Hout.
    destruct (process_products db M df) as [[[db' M'] id_map]|M'].
    2: { destruct Hout as (r & Hr & Hnone). exfalso.
         specialize (Hnames r Hr). rewrite Hnone in Hnames. discriminate. }
    destruct Hout as (Hall & Hprod & Hlen & Hcust & Hg & Hreason & Hid).
    exists db', M', id_map, (stored_products (next_product_id db)
                               (map clean_product (products_reaching_insert df))).
    do 2 (split; [first [reflexivity | assumption]|]).
    unfold missing_values_filled, drop_reason, rows_dropped.
    rewrite (grows_at _ _ _ _ "missing_values_filled" Hg).
    rewrite (grows_at _ _ _ _ "missing_price" Hreason).
    rewrite (grows_at _ _ _ _ "rows_dropped" Hg).
    unfold reason_delta. rewrite decide_True by reflexivity.
    change (counter_delta _ _ ?d _ _ "missing_values_filled") with d.
    change (counter_delta _ _ _ ?d _ "rows_dropped") with d.
    do 3 (split; [reflexivity|]).
    intros r price Hr Hs Hp.
    pose proof (Hkept r price Hr Hp) as Hin.
    apply list_elem_of_lookup in Hin as [i Hi].
    destruct (stored_products_lookup _ (next_product_id db) i _ Hall Hi)
      as (name & price' & Hname & Hprice & Hstored).
    pose proof (Hid i _ Hi) as Hidr.
    cbn [clean_product pc_product_name pc_price pc_stock_quantity pc_category
         pc_product_id] in Hname, Hprice, Hstored, Hidr.
    rewrite Hp in Hprice. injection Hprice as <-.
    eexists. split; [|split; [|split; [|split]]].
    + apply list_elem_of_lookup. exists i. exact Hstored.
    + cbn [p_stock_quantity]. rewrite Hs. reflexivity.
    + reflexivity.
    + exact Hname.
    + exact Hidr.
Qed.

(** ** Customer loader: the IdentityMap and the unique email *)

Lemma insert_fails_safe row :
  insert_fails row = false ->
  exists fn ln em,
    safe_value (cc_first_name row) = Some fn /\ safe_value (cc_last_name row) = Some ln /\
    safe_value (cc_email row) = Some em /\ cc_email row = Some em.
Proof.
  unfold insert_fails. rewrite !orb_false_iff. intros [[Hf Hl] He].
  destruct (cc_first_name row) as [fn|]; [|discriminate].
  destruct (cc_last_name row) as [ln|]; [|discriminate].
  destruct (cc_email row) as [em|]; [|discriminate].
  exists fn, ln, em. repeat split.
Qed.

(** The [except] branch for an error that is not a duplicate email: the
    row is logged and nothing else changes. *)
Lemma load_customer_refused st row :
  insert_fails row = true ->
  load_customer st row
  = CustomerLoad (cl_db st) (cl_metrics st) (cl_id_map st) (cl_log st ++ [cc_email row]).
Proof.
  unfold insert_fails, load_customer, insert_customer, safe_value. intros Hf.
  destruct (cc_first_name row); cbn [isna] in *; [|reflexivity].
  destruct (cc_last_name row); cbn [isna] in *; [|reflexivity].
  destruct (cc_email row); cbn [isna] in *; [discriminate|reflexivity].
Qed.

Lemma load_customer_id_map_other st row k :
  k <> cc_customer_id row ->
  cl_id_map (load_customer st row) !! k = cl_id_map st !! k.
Proof.
  intros Hk. unfold load_customer.
  destruct (insert_customer _ _ _ _ _ _ _) as [[new_id| |] db'].
  - cbn [cl_id_map]. destruct (new_id =? 0); [reflexivity|].
    apply lookup_insert_ne. congruence.
  - destruct (match cc_email row with
              | Some e => select_customer_id_by_email (cl_db st) e
              | None => None
              end); [|reflexivity].
    cbn [cl_id_map]. apply lookup_insert_ne. congruence.
  - reflexivity.
Qed.

(** An id that is not the id of a loaded row is not touched. *)
Lemma load_customers_id_map_other rows : forall st k,
  k ∉ map cc_customer_id rows ->
  cl_id_map (fold_left load_customer rows st) !! k = cl_id_map st !! k.
Proof.
  induction rows as [|row rows IH]; intros st k Hk; [reflexivity|].
  cbn [map] in Hk. rewrite not_elem_of_cons in Hk. destruct Hk as [Hne Hk].
  cbn [fold_left]. rewrite IH by assumption.
  apply load_customer_id_map_other. assumption.
Qed.

Lemma existsb_has_email e l :
  existsb (has_email e) l = true <-> e ∈ map c_email l.
Proof.
  rewrite existsb_exists. split.
  - intros (c & Hin & Hc). apply String.eqb_eq in Hc. subst e.
    apply list_elem_of_fmap. exists c. split; [reflexivity|].
    apply list_elem_of_In. assumption.
  - intros Hin. apply list_elem_of_fmap in Hin as (c & -> & Hin).
    exists c. split; [apply list_elem_of_In; assumption|apply String.eqb_refl].
Qed.

Lemma load_customer_wf st row :
  customers_wf (cl_db st) -> customers_wf (cl_db (load_customer st row)).
Proof.
  intros [Hnd Hpos]. unfold load_customer, insert_customer.
  destruct (safe_value (cc_first_name row)) as [fn|]; [|split; assumption].
  destruct (safe_value (cc_last_name row)) as [ln|]; [|split; assumption].
  destruct (safe_value (cc_email row)) as [em|]; [|split; assumption].
  destruct (existsb (has_email em) (customers (cl_db st))) eqn:Hex.
  - destruct (match cc_email row with
              | Some e => select_customer_id_by_email (cl_db st) e
              | None => None
              end); split; assumption.
  - cbn [cl_db]. split; cbn [customers next_customer_id]; [|lia].
    rewrite map_app. cbn [map c_email]. apply NoDup_app. repeat split.
    + assumption.
    + intros e He Hin. apply list_elem_of_singleton in Hin. subst e.
      apply existsb_has_email in He. congruence.
    + apply NoDup_singleton.
Qed.

Lemma load_customers_wf rows : forall st,
  customers_wf (cl_db st) -> customers_wf (cl_db (fold_left load_customer rows st)).
Proof.
  induction rows as [|row rows IH]; intros st Hwf; [assumption|].
  cbn [fold_left]. apply IH, load_customer_wf, Hwf.
Qed.

Lemma filter_has_email_unique l c :
  NoDup (map c_email l) -> c ∈ l -> List.filter (has_email (c_email c)) l = [c].
Proof.
  induction l as [|x l IH]; intros Hnd Hin; [inversion Hin|].
  cbn [map] in Hnd. apply NoDup_cons in Hnd as [Hx Hnd].
  assert (Hnone : forall e, e ∉ map c_email l -> List.filter (has_email e) l = []).
  { clear. intros e He. induction l as [|y l IH]; [reflexivity|].
    cbn [map] in He. rewrite not_elem_of_cons in He. destruct He as [Hne He].
    cbn [List.filter]. unfold has_email at 1.
    destruct (String.eqb_spec (c_email y) e); [congruence|auto]. }
  cbn [List.filter]. unfold has_email at 1.
  apply elem_of_cons in Hin as [->|Hin].
  - rewrite String.eqb_refl, Hnone by assumption. reflexivity.
  - destruct (String.eqb_spec (c_email x) (c_email c)) as [Heq|Hne]; [|auto].
    exfalso. apply Hx. rewrite Heq. apply list_elem_of_fmap. eauto.
Qed.

Lemma filter_has_email_at_most_one l e :
  NoDup (map c_email l) -> (length (List.filter (has_email e) l) <= 1)%nat.
Proof.
  intros Hnd. destruct (List.filter (has_email e) l) as [|c rest] eqn:Hf; [cbn; lia|].
  assert (Hc : In c (List.filter (has_email e) l)) by (rewrite Hf; left; reflexivity).
  apply filter_In in Hc as [Hin He]. apply String.eqb_eq in He. subst e.
  rewrite filter_has_email_unique in Hf by (try apply list_elem_of_In; assumption).
  injection Hf as <-. cbn. lia.
Qed.

(** A row the storage does not refuse ends with a stored customer of its
    email, and its source id mapped to the key of that customer: the new
    key, or the key of the row that already had the email. *)
Lemma load_customer_accepted st row e :
  customers_wf (cl_db st) -> insert_fails row = false -> cc_email row = Some e ->
  exists c,
    c ∈ customers (cl_db (load_customer st row)) /\ c_email c = e /\
    cl_id_map (load_customer st row) !! cc_customer_id row = Some (c_customer_id c).
Proof.
  intros [Hnd Hpos] Hok He.
  destruct (insert_fails_safe row Hok) as (fn & ln & em & Hfn & Hln & Hem & He').
  rewrite He in He'. injection He' as <-.
  unfold load_customer, insert_customer. rewrite Hfn, Hln, Hem, He.
  destruct (existsb (has_email e) (customers (cl_db st))) eqn:Hex.
  - unfold select_customer_id_by_email.
    apply existsb_exists in Hex as (c0 & Hin0 & Hc0).
    destruct (List.filter (has_email e) (customers (cl_db st))) as [|c rest] eqn:Hf.
    { exfalso. assert (Hin : In c0 (List.filter (has_email e) (customers (cl_db st))))
        by (apply filter_In; auto). rewrite Hf in Hin. destruct Hin. }
    assert (Hc : In c (List.filter (has_email e) (customers (cl_db st))))
      by (rewrite Hf; left; reflexivity).
    apply filter_In in Hc as [Hin Hce]. apply String.eqb_eq in Hce.
    exists c. cbn [cl_db cl_id_map].
    repeat split; [apply list_elem_of_In; assumption|assumption|apply lookup_insert_eq].
  - eexists. cbn [cl_db cl_id_map customers].
    split; [apply elem_of_app; right; apply list_elem_of_singleton; reflexivity|].
    split; [reflexivity|].
    destruct (next_customer_id (cl_db st) =? 0) eqn:Hz; [apply Z.eqb_eq in Hz; lia|].
    cbn [c_customer_id]. apply lookup_insert_eq.
Qed.

Lemma load_customers_keep rows st c :
  c ∈ customers (cl_db st) -> c ∈ customers (cl_db (fold_left load_customer rows st)).
Proof.
  intros Hin. destruct (load_customers_growth rows st) as (new & Hc & _).
  rewrite Hc. apply elem_of_app. left. assumption.
Qed.

Lemma NoDup_map_middle {A B} (f : A -> B) xs y ys :
  NoDup (map f (xs ++ y :: ys)) -> (f y ∉ map f xs) /\ (f y ∉ map f ys).
Proof.
  rewrite map_app. cbn [map]. intros Hnd.
  apply NoDup_app in Hnd as (_ & Hdisj & Hnd).
  apply NoDup_cons in Hnd as [Hy _]. split; [|assumption].
  intros Hin. apply (Hdisj _ Hin). left.
Qed.

(** The deduplicated frame around two rows of the same email: the first
    is kept (no earlier row has the email), the second is removed. *)
Lemma drop_duplicates_same_email l1 r1 l2 r2 l3 e :
  cust_email r1 = Some e -> cust_email r2 = Some e ->
  (forall r, r ∈ l1 -> cust_email r <> Some e) ->
  exists A B,
    drop_duplicates cust_email (l1 ++ r1 :: l2 ++ r2 :: l3) = A ++ r1 :: B /\
    (forall r, r ∈ A -> r ∈ l1) /\
    (forall r, r ∈ B -> r ∈ l2 \/ r ∈ l3).
Proof.
  drop_parameters.
  intros H1 H2 Hfirst. unfold drop_duplicates.
  rewrite drop_duplicates_from_app. cbn [drop_duplicates_from].
  rewrite decide_False.
  2: { rewrite app_nil_r, H1. intros Hin.
       apply list_elem_of_fmap in Hin as (r & Hr & Hin). eapply Hfirst; eauto. }
  rewrite drop_duplicates_from_app. cbn [drop_duplicates_from].
  rewrite decide_True.
  2: { rewrite H2, <- H1. apply elem_of_app. right. left. }
  eexists _, (_ ++ _). split; [reflexivity|]. split.
  - intros r Hr. apply drop_duplicates_from_subset in Hr. tauto.
  - intros r Hr. apply elem_of_app in Hr as [Hr|Hr];
      apply drop_duplicates_from_subset in Hr; tauto.
Qed.

(** C1, as the code has it -- of two rows with the same email only the
    first reaches the insert loop.  On a customers table that respects
    its UNIQUE email, and with source ids that are distinct in the file:
    at most one customer with that email is stored; the source id of the
    second row gets no entry in the IdentityMap; and when the first row
    has both names exactly one customer has the email and the source id
    of the first row is mapped to its key. *)
Theorem duplicate_email_keeps_first_row_only db M l1 r1 l2 r2 l3 e :
  let df := l1 ++ r1 :: l2 ++ r2 :: l3 in
  let st := process_customers db M df in
  cust_email r1 = Some e -> cust_email r2 = Some e ->
  (forall r, r ∈ l1 -> cust_email r <> Some e) ->
  NoDup (map cust_customer_id df) ->
  customers_wf db ->
  (length (List.filter (has_email e) (customers (cl_db st))) <= 1)%nat /\
  cl_id_map st !! cust_customer_id r2 = None /\
  (isna (cust_first_name r1) = false -> isna (cust_last_name r1) = false ->
   exists c,
     List.filter (has_email e) (customers (cl_db st)) = [c] /\
     cl_id_map st !! cust_customer_id r1 = Some (c_customer_id c)).
Proof.
  intros df st H1 H2 Hfirst Hids Hwf.
  destruct (drop_duplicates_same_email l1 r1 l2 r2 l3 e H1 H2 Hfirst)
    as (A & B & Hdedup & HA & HB).
  fold df in Hdedup.
  assert (Hframe : fst (transform_customers M df)
                   = map clean_customer (List.filter has_email_cell A)
                     ++ clean_customer r1
                        :: map clean_customer (List.filter has_email_cell B)).
  { rewrite transform_customers_frame. unfold customers_reaching_insert.
    rewrite Hdedup, List.filter_app. cbn [List.filter]. unfold has_email_cell at 2.
    rewrite H1. cbn [isna negb]. rewrite map_app. reflexivity. }
  set (FA := map clean_customer (List.filter has_email_cell A)) in *.
  set (FB := map clean_customer (List.filter has_email_cell B)) in *.
  assert (Hst : st = fold_left load_customer FB
                       (load_customer
                          (fold_left load_customer FA
                             (CustomerLoad db (snd (transform_customers M df)) ∅ []))
                          (clean_customer r1))).
  { subst st. rewrite process_customers_eq, Hframe, fold_left_app. reflexivity. }
  set (st0 := fold_left load_customer FA _) in Hst.
  assert (Hwf0 : customers_wf (cl_db st0)) by (apply load_customers_wf; exact Hwf).
  assert (Hwf' : customers_wf (cl_db st)).
  { rewrite Hst. apply load_customers_wf, load_customer_wf, Hwf0. }
  (* the source ids of the rows that are loaded *)
  assert (Hid2 : cust_customer_id r2
                 ∉ map cc_customer_id (fst (transform_customers M df))).
  { rewrite transform_customers_frame, map_map. cbn [clean_customer cc_customer_id].
    unfold customers_reaching_insert. rewrite Hdedup.
    unfold df in Hids.
    replace (l1 ++ r1 :: l2 ++ r2 :: l3) with ((l1 ++ r1 :: l2) ++ r2 :: l3) in Hids
      by (rewrite <- app_assoc; reflexivity).
    apply NoDup_map_middle in Hids as [Hleft Hright].
    intros Hin. apply list_elem_of_fmap in Hin as (r & Hr & Hin).
    apply list_elem_of_In, filter_In in Hin as [Hin _]. apply list_elem_of_In in Hin.
    apply elem_of_app in Hin as [Hin|Hin].
    - apply Hleft. rewrite Hr. apply list_elem_of_fmap. exists r. split; [reflexivity|].
      apply elem_of_app. left. auto.
    - apply elem_of_cons in Hin as [->|Hin].
      + apply Hleft. rewrite Hr. apply list_elem_of_fmap. exists r1.
        split; [reflexivity|]. apply elem_of_app. right. left.
      + apply HB in Hin as [Hin|Hin].
        * apply Hleft. rewrite Hr. apply list_elem_of_fmap. exists r.
          split; [reflexivity|]. apply elem_of_app. right. right. assumption.
        * apply Hright. rewrite Hr. apply list_elem_of_fmap. eauto. }
  split; [apply filter_has_email_at_most_one, Hwf'|].
  split.
  { subst st. rewrite process_customers_eq.
    rewrite load_customers_id_map_other by assumption. apply lookup_empty. }
  intros Hfn Hln.
  destruct (load_customer_accepted st0 (clean_customer r1) e Hwf0)
    as (c & Hc & Hce & Hmap).
  { unfold insert_fails. cbn [clean_customer cc_first_name cc_last_name cc_email].
    rewrite Hfn, Hln, H1. reflexivity. }
  { cbn [clean_customer cc_email]. exact H1. }
  exists c. split.
  - rewrite <- Hce. apply filter_has_email_unique; [apply Hwf'|].
    rewrite Hst. apply load_customers_keep. exact Hc.
  - rewrite Hst, load_customers_id_map_other; [exact Hmap|].
    cbn [clean_customer cc_customer_id]. subst FB. rewrite map_map.
    cbn [clean_customer cc_customer_id].
    unfold df in Hids. apply NoDup_map_middle in Hids as [_ Hright].
    intros Hin. apply list_elem_of_fmap in Hin as (r & Hr & Hin).
    apply list_elem_of_In, filter_In in Hin as [Hin _]. apply list_elem_of_In in Hin.
    apply Hright. rewrite Hr. apply list_elem_of_fmap. exists r. split; [reflexivity|].
    apply HB in Hin as [Hin|Hin].
    + apply elem_of_app. left. assumption.
    + apply elem_of_app. right. right. assumption.
Qed.

(** ** Sales aggregator: the transform *)

Lemma assign_transaction_date_map valid :
  assign_transaction_date valid
    (format_dates (clean_date_series (map sv_transaction_date valid)))
  = map normalize_sale valid.
Proof.
  rewrite clean_date_series_pointwise. unfold format_dates.
  induction valid as [|r valid IH]; [reflexivity|].
  cbn [map assign_transaction_date]. rewrite IH. reflexivity.
Qed.

Lemma filter_all {A} (p : A -> bool) (l : list A) :
  length (List.filter (fun x => negb (p x)) l) = 0%nat -> List.filter p l = l.
Proof.
  induction l as [|x l IH]; [reflexivity|].
  cbn [List.filter]. destruct (p x); cbn [negb length]; [|discriminate].
  intros H. rewrite IH by assumption. reflexivity.
Qed.

Lemma transform_sales_frame M cust_map prod_map df :
  fst (transform_sales M cust_map prod_map df)
  = sales_reaching_insert cust_map prod_map df.
Proof.
  unfold transform_sales, sales_reaching_insert, sales_resolved. cbv zeta.
  fold (map_ids cust_map prod_map).
  rewrite assign_transaction_date_map.
  rewrite (count_true_filter (fun r => isna (sv_transaction_date r))).
  destruct (Nat.ltb 0 _) eqn:Hn; cbn [fst]; [reflexivity|].
  apply Nat.ltb_ge in Hn. symmetry. apply filter_all.
  unfold has_date.
  erewrite filter_ext; [|intros r; apply negb_involutive]. lia.
Qed.

Lemma dropna_ids_length mapped :
  length mapped
  = (length (List.filter is_orphan mapped) + length (dropna_ids mapped))%nat.
Proof.
  induction mapped as [|r mapped IH]; [reflexivity|].
  cbn [List.filter dropna_ids]. unfold is_orphan at 1.
  destruct (sm_db_customer_id r), (sm_db_product_id r); cbn [isna orb length]; lia.
Qed.

Lemma transform_sales_metrics M cust_map prod_map df :
  let dedup := drop_duplicates (fun r => r) df in
  let orphans := length (List.filter is_orphan (map (map_ids cust_map prod_map) dedup)) in
  let failed := length (List.filter (fun r => isna (sv_transaction_date r))
                          (map normalize_sale (sales_resolved cust_map prod_map df))) in
  let M' := snd (transform_sales M cust_map prod_map df) in
  grows (metrics M) (metrics M') sales_file
        (counter_delta (length df) (length df - length dedup) 0 (orphans + failed) 0) /\
  grows (drop_reasons M) (drop_reasons M') sales_file
        (fun k => (reason_delta "orphan_record_missing_parent" orphans k
                   + reason_delta "invalid_transaction_date" failed k)%nat).
Proof.
  intros dedup orphans failed M'. subst M'.
  unfold transform_sales. cbv zeta.
  fold dedup. fold (map_ids cust_map prod_map). fold orphans.
  change (dropna_ids (map (map_ids cust_map prod_map) dedup))
    with (sales_resolved cust_map prod_map df).
  rewrite assign_transaction_date_map.
  rewrite (count_true_filter (fun r => isna (sv_transaction_date r))). fold failed.
  destruct (Nat.ltb 0 failed) eqn:Hn; cbn [snd].
  - cbn [metrics_dropped metrics_dup metrics_read metrics drop_reasons]. split.
    + eapply grows_ext; [|eapply grows_trans; [eapply grows_trans; [eapply grows_trans|]|];
                          apply grows_bump].
      intros k. unfold counter_delta, reason_delta.
      repeat case_decide; try lia; decide_contra.
    + eapply grows_trans; apply grows_bump.
  - apply Nat.ltb_ge in Hn. assert (failed = 0%nat) as -> by lia.
    cbn [metrics_dropped metrics_dup metrics_read metrics drop_reasons]. split.
    + eapply grows_ext; [|eapply grows_trans; [eapply grows_trans|]; apply grows_bump].
      intros k. unfold counter_delta, reason_delta.
      repeat case_decide; try lia; decide_contra.
    + eapply grows_ext; [|apply grows_bump].
      intros k. unfold reason_delta. repeat case_decide; lia.
Qed.

(** ** Sales aggregator: the insert loop *)

Lemma has_order_app db id new rest cs ps nc np no ni :
  has_order (Database cs ps (orders db ++ new) rest nc np no ni) id
  = has_order db id || existsb (fun o => o_order_id o =? id) new.
Proof. unfold has_order. cbn [orders]. apply existsb_app. Qed.

(** The items of one order: each statement is accepted when the product
    is stored; the first refusal stops the loop. *)
Lemma insert_item_rows_spec order_id group : forall db,
  has_order db order_id = true ->
  if forallb (fun r => has_product db (sv_db_product_id r)) group then
    insert_item_rows db (item_rows_of order_id group)
    = Some (Database (customers db) (products db) (orders db)
                     (order_items db
                      ++ expected_items (next_order_item_id db) order_id group)
                     (next_customer_id db) (next_product_id db) (next_order_id db)
                     (next_order_item_id db + Z.of_nat (length group)))
  else insert_item_rows db (item_rows_of order_id group) = None.
Proof.
  induction group as [|r group IH]; intros db Hord.
  - cbn. rewrite app_nil_r, Z.add_0_r. destruct db; reflexivity.
  - cbn [forallb item_rows_of map insert_item_rows]. unfold insert_order_item.
    rewrite Hord. cbn [andb].
    destruct (has_product db (sv_db_product_id r)) eqn:Hp; cbn [andb]; [|reflexivity].
    match goal with
    | |- context [insert_item_rows ?d _] => set (db1 := d)
    end.
    specialize (IH db1). unfold item_rows_of in IH.
    change (forallb (fun r0 => has_product db1 (sv_db_product_id r0)) group)
      with (forallb (fun r0 => has_product db (sv_db_product_id r0)) group) in IH.
    specialize (IH Hord).
    destruct (forallb _ group); [|exact IH].
    rewrite IH. unfold db1.
    cbn [customers products orders order_items next_customer_id
         next_product_id next_order_id next_order_item_id expected_items length].
    rewrite <- app_assoc. cbn [app]. do 2 f_equal. lia.
Qed.

Lemma load_group_spec db items_loaded group :
  if group_accepted db group then
    load_group db items_loaded group
    = Some (Database (customers db) (products db)
                     (orders db ++ expected_order (next_order_id db) group)
                     (order_items db
                      ++ expected_items (next_order_item_id db) (next_order_id db) group)
                     (next_customer_id db) (next_product_id db) (next_order_id db + 1)
                     (next_order_item_id db + Z.of_nat (length group)),
            (items_loaded + length group)%nat)
  else load_group db items_loaded group = None.
Proof.
  destruct group as [|first group]; [reflexivity|].
  unfold group_accepted, load_group, insert_order, expected_order.
  destruct (sv_transaction_date first) as [order_date|]; cbn [isna negb andb]; [|reflexivity].
  destruct (has_customer db (sv_db_customer_id first)); cbn [andb]; [|reflexivity].
  set (db1 := Database _ _ (orders db ++ _) _ _ _ _ _).
  pose proof (insert_item_rows_spec (next_order_id db) (first :: group) db1) as Hitems.
  assert (Hord : has_order db1 (next_order_id db) = true).
  { unfold db1. rewrite has_order_app. cbn [existsb o_order_id].
    rewrite Z.eqb_refl. apply orb_true_r. }
  specialize (Hitems Hord).
  change (forallb (fun r => has_product db1 (sv_db_product_id r)) (first :: group))
    with (forallb (fun r => has_product db (sv_db_product_id r)) (first :: group))
    in Hitems.
  destruct (forallb _ (first :: group)); rewrite Hitems; [|reflexivity].
  unfold item_rows_of. rewrite length_map. reflexivity.
Qed.

Lemma load_groups_spec grouped : forall db items_loaded,
  let groups := map snd grouped in
  if forallb (group_accepted db) groups then
    load_groups db items_loaded grouped
    = Some (Database (customers db) (products db)
                     (orders db ++ expected_orders (next_order_id db) groups)
                     (order_items db
                      ++ expected_order_items (next_order_item_id db) (next_order_id db)
                                              groups)
                     (next_customer_id db) (next_product_id db)
                     (next_order_id db + Z.of_nat (length groups))
                     (next_order_item_id db + Z.of_nat (length (concat groups))),
            (items_loaded + length (concat groups))%nat)
  else load_groups db items_loaded grouped = None.
Proof.
  induction grouped as [|[k g] grouped IH]; intros db items_loaded; cbv zeta.
  - cbn. rewrite !app_nil_r, !Z.add_0_r, Nat.add_0_r. destruct db; reflexivity.
  - cbn [map snd forallb load_groups].
    pose proof (load_group_spec db items_loaded g) as Hg.
    destruct (group_accepted db g); cbn [andb]; rewrite Hg; [|reflexivity].
    set (db1 := Database _ _ (orders db ++ _) _ _ _ _ _).
    specialize (IH db1 (items_loaded + length g)%nat). cbv zeta in IH.
    change (forallb (group_accepted db1) (map snd grouped))
      with (forallb (group_accepted db) (map snd grouped)) in IH.
    destruct (forallb (group_accepted db) (map snd grouped)); rewrite IH; [|reflexivity].
    unfold db1.
    cbn [customers products orders order_items next_customer_id next_product_id
         next_order_id next_order_item_id expected_orders expected_order_items
         concat length].
    rewrite <- !app_assoc, length_app. f_equal; f_equal; [f_equal|]; lia.
Qed.

(** ** [groupby]: distinct ascending keys, rows in frame order *)

Lemma compare_lt_gt a b : String_as_OT.compare a b = Gt -> String_as_OT.lt b a.
Proof.
  intros H. destruct (String_as_OT.compare_spec a b); try discriminate. assumption.
Qed.

Lemma compare_eq a b : String_as_OT.compare a b = Eq -> a = b.
Proof.
  intros H. destruct (String_as_OT.compare_spec a b); try discriminate. assumption.
Qed.

Lemma insert_key_elem k ks x : x ∈ insert_key k ks <-> x = k \/ x ∈ ks.
Proof.
  drop_parameters.
  induction ks as [|k' ks IH]; cbn [insert_key].
  - rewrite list_elem_of_singleton, elem_of_nil. tauto.
  - destruct (String_as_OT.compare k k') eqn:Hc.
    + apply compare_eq in Hc. subst k'. rewrite elem_of_cons. tauto.
    + rewrite !elem_of_cons. tauto.
    + rewrite !elem_of_cons, IH. tauto.
Qed.

Lemma insert_key_sorted k ks :
  StronglySorted String_as_OT.lt ks -> StronglySorted String_as_OT.lt (insert_key k ks).
Proof.
  induction ks as [|k' ks IH]; intros Hs; cbn [insert_key].
  - repeat constructor.
  - apply StronglySorted_inv in Hs as [Hs Hall].
    destruct (String_as_OT.compare k k') eqn:Hc.
    + constructor; assumption.
    + constructor; [constructor; assumption|].
      constructor; [exact Hc|].
      eapply Forall_impl; [exact Hall|].
      intros x Hx. cbv beta. etransitivity; [exact Hc|exact Hx].
    + constructor; [apply IH; assumption|].
      apply Forall_forall. intros x Hx. apply insert_key_elem in Hx as [->|Hx].
      * apply compare_lt_gt. assumption.
      * rewrite Forall_forall in Hall. apply Hall. assumption.
Qed.

Lemma sorted_keys_elem ks x : x ∈ sorted_keys ks <-> x ∈ ks.
Proof.
  induction ks as [|k ks IH]; cbn [sorted_keys fold_right]; [reflexivity|].
  fold (sorted_keys ks). rewrite insert_key_elem, IH, elem_of_cons. reflexivity.
Qed.

Lemma sorted_keys_sorted ks : StronglySorted String_as_OT.lt (sorted_keys ks).
Proof.
  induction ks as [|k ks IH]; cbn [sorted_keys fold_right]; [constructor|].
  apply insert_key_sorted. exact IH.
Qed.

Lemma sorted_NoDup ks : StronglySorted String_as_OT.lt ks -> NoDup ks.
Proof.
  induction 1 as [|k ks Hs IH Hall]; constructor; [|assumption].
  intros Hin. rewrite Forall_forall in Hall. specialize (Hall k Hin).
  exact (StrictOrder_Irreflexive (R := String_as_OT.lt) k Hall).
Qed.

Lemma filter_disjoint_length {A} (p q : A -> bool) (l : list A) :
  (forall x, p x = true -> q x = true -> False) ->
  (length (List.filter p l) + length (List.filter q l))%nat
  = length (List.filter (fun x => p x || q x) l).
Proof.
  intros Hdisj. induction l as [|x l IH]; [reflexivity|].
  cbn [List.filter]. specialize (Hdisj x).
  destruct (p x), (q x); cbn [orb length]; first [lia | exfalso; auto].
Qed.

Lemma filter_true {A} (p : A -> bool) (l : list A) :
  (forall x, x ∈ l -> p x = true) -> List.filter p l = l.
Proof.
  induction l as [|x l IH]; intros Hall; [reflexivity|].
  cbn [List.filter]. rewrite (Hall x) by left. f_equal. apply IH.
  intros y Hy. apply Hall. right. assumption.
Qed.

Section GroupBy.
Context {A : Type} (key : A -> string).

Lemma groupby_keys df : map fst (groupby key df) = sorted_keys (map key df).
Proof. unfold groupby. rewrite map_map. cbn [fst]. apply map_id. Qed.

Lemma groupby_elem df k g :
  (k, g) ∈ groupby key df ->
  g = List.filter (fun r => String.eqb (key r) k) df /\ k ∈ map key df /\ g <> [].
Proof.
  unfold groupby. intros Hin. apply list_elem_of_fmap in Hin as (k' & Heq & Hk).
  injection Heq as -> ->. apply (proj1 (sorted_keys_elem _ _)) in Hk.
  split; [reflexivity|]. split; [assumption|].
  apply list_elem_of_fmap in Hk as (r & Hr & Hin).
  intros Hnil.
  assert (Hf : In r (List.filter (fun r => String.eqb (key r) k') df)).
  { apply filter_In. split; [apply list_elem_of_In; assumption|].
    rewrite Hr. apply String.eqb_refl. }
  rewrite Hnil in Hf. destruct Hf.
Qed.

Lemma groups_length ks df :
  NoDup ks ->
  length (concat (map (fun k => List.filter (fun r => String.eqb (key r) k) df) ks))
  = length (List.filter (fun r => existsb (String.eqb (key r)) ks) df).
Proof.
  induction ks as [|k ks IH]; intros Hnd.
  - cbn. induction df as [|r df IHdf]; [reflexivity|]. cbn. exact IHdf.
  - apply NoDup_cons in Hnd as [Hk Hnd].
    cbn [map concat existsb]. rewrite length_app, IH by assumption.
    apply filter_disjoint_length.
    intros r Hr Hex. apply String.eqb_eq in Hr.
    apply existsb_exists in Hex as (k' & Hin & Hk').
    apply String.eqb_eq in Hk'. apply Hk. rewrite <- Hr, Hk'.
    apply list_elem_of_In. assumption.
Qed.

(** Every row of the frame is in exactly one group. *)
Lemma groupby_length df :
  length (concat (map snd (groupby key df))) = length df.
Proof.
  unfold groupby. rewrite map_map. cbn [snd].
  rewrite groups_length by apply sorted_NoDup, sorted_keys_sorted.
  f_equal. apply filter_true. intros r Hr.
  apply existsb_exists. exists (key r). split; [|apply String.eqb_refl].
  apply list_elem_of_In, sorted_keys_elem, list_elem_of_fmap. eauto.
Qed.
End GroupBy.

(** The rows that reach the insert stage: both references resolved
    through the maps, and a normalized date. *)
Lemma sales_reaching_insert_elem cust_map prod_map df r :
  r ∈ sales_reaching_insert cust_map prod_map df ->
  (exists raw, raw ∈ df /\
     cust_map !! sale_customer_id raw = Some (sv_db_customer_id r) /\
     prod_map !! sale_product_id raw = Some (sv_db_product_id r) /\
     sv_transaction_id r = sale_transaction_id raw /\
     sv_quantity r = sale_quantity raw /\ sv_unit_price r = sale_unit_price raw) /\
  isna (sv_transaction_date r) = false.
Proof.
  unfold sales_reaching_insert, sales_resolved. intros Hin.
  apply list_elem_of_In, filter_In in Hin as [Hin Hdate].
  unfold has_date in Hdate. apply negb_true_iff in Hdate. split; [|assumption].
  apply in_map_iff in Hin as (v & <- & Hv).
  cbn [normalize_sale sv_db_customer_id sv_db_product_id sv_transaction_id
       sv_quantity sv_unit_price].
  clear Hdate. revert Hv.
  generalize (drop_duplicates_from_subset (fun r : sale_raw => r) [] df).
  fold (drop_duplicates (fun r : sale_raw => r) df).
  generalize (drop_duplicates (fun r : sale_raw => r) df). intros dedup Hsub.
  induction dedup as [|raw dedup IH]; intros Hv; [destruct Hv|].
  cbn [map dropna_ids map_ids sm_db_customer_id sm_db_product_id sm_raw] in Hv.
  assert (Hrest : In v (dropna_ids (map (map_ids cust_map prod_map) dedup)) ->
                  exists raw0, raw0 ∈ df /\
                    cust_map !! sale_customer_id raw0 = Some (sv_db_customer_id v) /\
                    prod_map !! sale_product_id raw0 = Some (sv_db_product_id v) /\
                    sv_transaction_id v = sale_transaction_id raw0 /\
                    sv_quantity v = sale_quantity raw0 /\
                    sv_unit_price v = sale_unit_price raw0).
  { apply IH. intros x Hx. apply Hsub. right. assumption. }
  destruct (cust_map !! sale_customer_id raw) as [c|] eqn:Hc; [|auto].
  destruct (prod_map !! sale_product_id raw) as [q|] eqn:Hq; [|auto].
  destruct Hv as [<-|Hv]; [|auto].
  exists raw. cbn. repeat split; try assumption.
  apply (Hsub raw). left.
Qed.

(** ** Sales aggregator: the outcome *)

Lemma process_sales_outcome db M cust_map prod_map df :
  let frame := sales_reaching_insert cust_map prod_map df in
  let groups := map snd (groupby sv_transaction_id frame) in
  let M1 := snd (transform_sales M cust_map prod_map df) in
  process_sales db M cust_map prod_map df
  = if forallb (group_accepted db) groups then
      Finished (Database (customers db) (products db)
                  (orders db ++ expected_orders (next_order_id db) groups)
                  (order_items db
                   ++ expected_order_items (next_order_item_id db) (next_order_id db)
                                           groups)
                  (next_customer_id db) (next_product_id db)
                  (next_order_id db + Z.of_nat (length groups))
                  (next_order_item_id db + Z.of_nat (length frame)),
                metrics_loaded M1 sales_file (length frame))
    else Raised M1.
Proof.
  intros frame groups M1. unfold process_sales.
  pose proof (transform_sales_frame M cust_map prod_map df) as Hframe.
  subst M1. destruct (transform_sales M cust_map prod_map df) as [valid_sales M1].
  cbn [fst snd] in *. subst valid_sales. fold frame.
  pose proof (load_groups_spec (groupby sv_transaction_id frame) db 0) as Hload.
  cbv zeta in Hload. fold groups in Hload.
  assert (Hlen : length (concat groups) = length frame)
    by apply groupby_length.
  rewrite Hlen in Hload.
  destruct (forallb (group_accepted db) groups); rewrite Hload; reflexivity.
Qed.

(** With maps that point into the stored customers and products, the
    storage accepts every group. *)
Lemma groups_accepted db cust_map prod_map df :
  maps_resolve db cust_map prod_map ->
  forallb (group_accepted db)
    (map snd (groupby sv_transaction_id (sales_reaching_insert cust_map prod_map df)))
  = true.
Proof.
  intros [Hcust Hprod]. apply forallb_forall. intros g Hg.
  apply in_map_iff in Hg as ([k g'] & Hsnd & Hin). cbn [snd] in Hsnd. subst g'.
  apply list_elem_of_In, groupby_elem in Hin as (Hfilter & _ & Hne).
  assert (Hrows : forall r, In r g ->
            r ∈ sales_reaching_insert cust_map prod_map df).
  { intros r Hr. rewrite Hfilter in Hr. apply filter_In in Hr as [Hr _].
    apply list_elem_of_In. assumption. }
  clear Hfilter. destruct g as [|first g]; [congruence|].
  unfold group_accepted.
  destruct (sales_reaching_insert_elem _ _ _ first (Hrows first (or_introl eq_refl)))
    as ((raw & _ & Hc & _) & Hdate).
  rewrite Hdate, (Hcust _ _ Hc). cbn [negb andb].
  apply forallb_forall. intros r Hr.
  destruct (sales_reaching_insert_elem _ _ _ r (Hrows r Hr)) as ((raw' & _ & _ & Hp & _) & _).
  exact (Hprod _ _ Hp).
Qed.

Lemma expected_items_spec o group : forall next_item,
  Forall2 (item_of_row o) group (expected_items next_item (o_order_id o) group).
Proof.
  induction group as [|r group IH]; intros next_item; cbn [expected_items].
  - constructor.
  - constructor; [|apply IH]. repeat split.
Qed.

(** One order per accepted group, in the order of the groups, and under
    each order one item per row of its group, in the order of the rows. *)
Lemma expected_tables_spec db groups : forall next_order next_item,
  forallb (group_accepted db) groups = true ->
  exists new_orders new_items,
    expected_orders next_order groups = new_orders /\
    expected_order_items next_item next_order groups = concat new_items /\
    Forall2 order_of_group groups new_orders /\
    length new_items = length groups /\
    (forall i g o its,
       groups !! i = Some g -> new_orders !! i = Some o -> new_items !! i = Some its ->
       o_order_id o = next_order + Z.of_nat i /\ Forall2 (item_of_row o) g its).
Proof.
  induction groups as [|g groups IH]; intros next_order next_item Hacc.
  - exists [], [].
    split; [reflexivity|split; [reflexivity|split; [constructor|split; [reflexivity|]]]].
    intros i g o its Hi. rewrite lookup_nil in Hi. discriminate.
  - cbn [forallb] in Hacc. apply andb_true_iff in Hacc as [Hg Hacc].
    destruct (IH (next_order + 1) (next_item + Z.of_nat (length g)) Hacc)
      as (new_orders & new_items & Ho & Hi & Hf2 & Hlen & Hidx).
    destruct g as [|first rest]; [discriminate|].
    unfold group_accepted in Hg.
    destruct (sv_transaction_date first) as [order_date|] eqn:Hdate; [|discriminate].
    set (o := OrderRow next_order (sv_db_customer_id first) order_date
                (sum_Z (map (fun r => sv_quantity r * sv_unit_price r) (first :: rest)))
                "Completed").
    exists (o :: new_orders),
           (expected_items next_item next_order (first :: rest) :: new_items).
    split; [|split; [|split; [|split]]].
    + cbn [expected_orders]. unfold expected_order. rewrite Hdate, Ho. reflexivity.
    + cbn [expected_order_items concat]. rewrite Hi. reflexivity.
    + constructor; [|assumption].
      unfold order_of_group. split; [reflexivity|split; [reflexivity|]].
      exists first, rest. split; [reflexivity|split; [reflexivity|exact Hdate]].
    + cbn [length]. rewrite Hlen. reflexivity.
    + intros i g o' its Hgi Hoi Hii. destruct i as [|i]; cbn in Hgi, Hoi, Hii.
      * injection Hgi as <-. injection Hoi as <-. injection Hii as <-.
        split; [cbn; lia|]. exact (expected_items_spec o (first :: rest) next_item).
      * destruct (Hidx i g o' its Hgi Hoi Hii) as [Hid Hitems].
        split; [lia|assumption].
Qed.

(** C3 -- sales aggregator.  The surviving rows are grouped by
    transaction identifier: the keys are distinct and ascending, the
    group of a key is the rows of that key in source order, every row is
    in the group of its key.  With maps that point to stored customers
    and products the loader returns, having appended exactly one Order
    per group, in the order of the groups, with the total of quantity x
    unit_price over the group, and one OrderItem per row of the group,
    in the order of the rows, with subtotal = quantity x unit_price.  The
    group [(2, 10.00); (1, 5.00)] gives the total 25.00 and the two
    subtotals 20.00 and 5.00 (amounts in hundredths). *)
Theorem sales_grouped_into_orders db M cust_map prod_map df :
  let frame := fst (transform_sales M cust_map prod_map df) in
  let grouped := groupby sv_transaction_id frame in
  let groups := map snd grouped in
  StronglySorted String_as_OT.lt (map fst grouped) /\
  (forall k g, (k, g) ∈ grouped ->
     g = List.filter (fun r => String.eqb (sv_transaction_id r) k) frame /\ g <> []) /\
  (forall r, r ∈ frame -> sv_transaction_id r ∈ map fst grouped) /\
  (maps_resolve db cust_map prod_map ->
   exists db' M' new_orders new_items,
     process_sales db M cust_map prod_map df = Finished (db', M') /\
     orders db' = orders db ++ new_orders /\
     order_items db' = order_items db ++ concat new_items /\
     Forall2 order_of_group groups new_orders /\
     length new_items = length groups /\
     (forall i g o its,
        groups !! i = Some g -> new_orders !! i = Some o -> new_items !! i = Some its ->
        Forall2 (item_of_row o) g its) /\
     length (concat new_items) = length frame) /\
  match load_group example_store 0
          [SaleValid "T1" 1 1 2 1000 (Some "2024-01-15");
           SaleValid "T1" 1 2 1 500 (Some "2024-01-15")] with
  | Some (db', items_loaded) =>
      map o_total_amount (orders db') = [2500] /\
      map i_subtotal (order_items db') = [2000; 500] /\
      items_loaded = 2%nat
  | None => False
  end.
Proof.
  intros frame grouped groups. subst groups grouped frame.
  rewrite transform_sales_frame.
  set (frame := sales_reaching_insert cust_map prod_map df).
  set (grouped := groupby sv_transaction_id frame).
  set (groups := map snd grouped).
  split; [|split; [|split; [|split]]].
  - unfold grouped. rewrite groupby_keys. apply sorted_keys_sorted.
  - intros k g Hin. apply groupby_elem in Hin as (Hg & _ & Hne). split; assumption.
  - intros r Hr. unfold grouped. rewrite groupby_keys.
    apply sorted_keys_elem, list_elem_of_fmap. eauto.
  - intros Hmaps.
    pose proof (groups_accepted db cust_map prod_map df Hmaps) as Hacc.
    fold frame grouped groups in Hacc.
    pose proof (process_sales_outcome db M cust_map prod_map df) as Hout.
    cbv zeta in Hout. fold frame grouped groups in Hout. rewrite Hacc in Hout.
    destruct (expected_tables_spec db groups (next_order_id db)
                (next_order_item_id db) Hacc)
      as (new_orders & new_items & Ho & Hi & Hf2 & Hlen & Hidx).
    eexists _, _, new_orders, new_items.
    split; [exact Hout|]. cbn [orders order_items].
    split; [rewrite Ho; reflexivity|].
    split; [rewrite Hi; reflexivity|].
    split; [exact Hf2|]. split; [exact Hlen|].
    split; [intros i g o its Hg Hoi Hit; exact (proj2 (Hidx i g o its Hg Hoi Hit))|].
    rewrite <- Hi.
    assert (Hgen : forall gs ni no,
              length (expected_order_items ni no gs) = length (concat gs)).
    { induction gs as [|g gs IH]; intros ni no; [reflexivity|].
      cbn [expected_order_items concat]. rewrite !length_app, IH. f_equal.
      generalize no. revert ni. clear IH.
      induction g as [|r g IHg]; intros ni no'; [reflexivity|].
      cbn [expected_items length]. rewrite IHg. reflexivity. }
    rewrite Hgen. apply groupby_length.
  - vm_compute. repeat split.
Qed.

(** ** Sales aggregator: orphans *)

(** Deduplication of whole rows commutes with dropping rows. *)
Lemma drop_duplicates_from_filter {A} `{EqDecision A} (p : A -> bool) (df : list A) :
  forall seen seen',
    (forall x, p x = true -> (x ∈ seen <-> x ∈ seen')) ->
    drop_duplicates_from (fun r => r) seen (List.filter p df)
    = List.filter p (drop_duplicates_from (fun r => r) seen' df).
Proof.
  induction df as [|r df IH]; intros seen seen' Hs; [reflexivity|].
  cbn [List.filter drop_duplicates_from]. destruct (p r) eqn:Hp.
  - cbn [drop_duplicates_from].
    destruct (decide (r ∈ seen)) as [Hin|Hin]; destruct (decide (r ∈ seen')) as [Hin'|Hin'].
    + apply IH. assumption.
    + exfalso. apply Hin'. apply Hs; assumption.
    + exfalso. apply Hin. apply Hs; assumption.
    + cbn [List.filter]. rewrite Hp. f_equal. apply IH.
      intros x Hx. rewrite !elem_of_cons. specialize (Hs x Hx). tauto.
  - destruct (decide (r ∈ seen')) as [Hin'|Hin'].
    + apply IH. assumption.
    + cbn [List.filter]. rewrite Hp. apply IH.
      intros x Hx. rewrite elem_of_cons. specialize (Hs x Hx).
      split; [tauto|]. intros [->|Hx']; [congruence|tauto].
Qed.

Lemma dropna_ids_filter cust_map prod_map df :
  dropna_ids (map (map_ids cust_map prod_map)
                  (List.filter (fun r => negb (is_orphan_raw cust_map prod_map r)) df))
  = dropna_ids (map (map_ids cust_map prod_map) df).
Proof.
  induction df as [|r df IH]; [reflexivity|].
  cbn [List.filter map dropna_ids map_ids sm_db_customer_id sm_db_product_id sm_raw].
  unfold is_orphan_raw at 1.
  destruct (cust_map !! sale_customer_id r) as [c|] eqn:Hc; cbn [isna orb negb];
    [|exact IH].
  destruct (prod_map !! sale_product_id r) as [q|] eqn:Hq; cbn [isna orb negb];
    [|exact IH].
  cbn [map dropna_ids map_ids sm_db_customer_id sm_db_product_id sm_raw].
  rewrite Hc, Hq, IH. reflexivity.
Qed.

Lemma sales_reaching_insert_without_orphans cust_map prod_map df :
  sales_reaching_insert cust_map prod_map
    (List.filter (fun r => negb (is_orphan_raw cust_map prod_map r)) df)
  = sales_reaching_insert cust_map prod_map df.
Proof.
  unfold sales_reaching_insert, sales_resolved, drop_duplicates.
  rewrite (drop_duplicates_from_filter _ df [] []) by reflexivity.
  rewrite dropna_ids_filter. reflexivity.
Qed.

(** C4 -- orphan rows.  A sales row (after the removal of identical
    rows) whose customer id or product id has no entry in its map is
    counted, one by one, under "orphan_record_missing_parent" and in
    [rows_dropped]; no such row reaches the insert stage; and the Orders
    and OrderItems written are those of the input without the orphan
    rows: none is written for an orphan. *)
Theorem orphan_rows_dropped db M cust_map prod_map df :
  let dedup := drop_duplicates (fun r => r) df in
  let orphans := length (List.filter (is_orphan_raw cust_map prod_map) dedup) in
  let result := process_sales db M cust_map prod_map df in
  drop_reason (metrics_of result) sales_file "orphan_record_missing_parent"
    = (drop_reason M sales_file "orphan_record_missing_parent" + orphans)%nat /\
  (rows_dropped M sales_file + orphans <= rows_dropped (metrics_of result) sales_file)%nat /\
  (forall r, r ∈ fst (transform_sales M cust_map prod_map df) ->
     exists raw, raw ∈ df /\ is_orphan_raw cust_map prod_map raw = false /\
       cust_map !! sale_customer_id raw = Some (sv_db_customer_id r) /\
       prod_map !! sale_product_id raw = Some (sv_db_product_id r) /\
       sv_transaction_id r = sale_transaction_id raw /\
       sv_quantity r = sale_quantity raw /\ sv_unit_price r = sale_unit_price raw) /\
  tables_of result
  = tables_of (process_sales db M cust_map prod_map
                 (List.filter (fun r => negb (is_orphan_raw cust_map prod_map r)) df)).
Proof.
  intros dedup orphans result.
  destruct (transform_sales_metrics M cust_map prod_map df) as [Hm Hr].
  cbv zeta in Hm, Hr. fold dedup in Hm, Hr.
  rewrite (filter_map_comm (map_ids cust_map prod_map) is_orphan dedup), length_map in Hm, Hr.
  change (fun x => is_orphan (map_ids cust_map prod_map x))
    with (is_orphan_raw cust_map prod_map) in Hm, Hr.
  fold orphans in Hm, Hr.
  assert (Hmet : drop_reasons (metrics_of result)
                 = drop_reasons (snd (transform_sales M cust_map prod_map df)) /\
                 rows_dropped (metrics_of result) sales_file
                 = rows_dropped (snd (transform_sales M cust_map prod_map df)) sales_file).
  { subst result. rewrite process_sales_outcome.
    destruct (forallb _ _); cbn [metrics_of]; [|split; reflexivity].
    split; [reflexivity|]. unfold rows_dropped, metrics_loaded. cbn [metrics].
    rewrite counter_bump, decide_False; [lia|]. intros [_ ?]. discriminate. }
  destruct Hmet as [Hreasons Hdropped].
  split; [|split; [|split]].
  - unfold drop_reason. rewrite Hreasons.
    rewrite (grows_at _ _ _ _ "orphan_record_missing_parent" Hr).
    unfold reason_delta. rewrite decide_True by reflexivity.
    rewrite decide_False by discriminate. lia.
  - rewrite Hdropped. unfold rows_dropped.
    rewrite (grows_at _ _ _ _ "rows_dropped" Hm).
    change (counter_delta _ _ _ ?d _ "rows_dropped") with d. lia.
  - intros r Hin. rewrite transform_sales_frame in Hin.
    apply sales_reaching_insert_elem in Hin
      as ((raw & Hraw & Hc & Hp & Ht & Hq & Hu) & _).
    exists raw. repeat split; try assumption.
    unfold is_orphan_raw. rewrite Hc, Hp. reflexivity.
  - subst result. rewrite !process_sales_outcome.
    rewrite sales_reaching_insert_without_orphans.
    destruct (forallb _ _); reflexivity.
Qed.

(** ** Storage errors *)

(** A row the storage accepts or reports as a duplicate email writes
    nothing to the log, and what it does to the tables, the metrics and
    the IdentityMap does not depend on the log. *)
Lemma load_customer_not_refused st st' row :
  insert_fails row = false ->
  cl_db st = cl_db st' -> cl_metrics st = cl_metrics st' -> cl_id_map st = cl_id_map st' ->
  cl_db (load_customer st row) = cl_db (load_customer st' row) /\
  cl_metrics (load_customer st row) = cl_metrics (load_customer st' row) /\
  cl_id_map (load_customer st row) = cl_id_map (load_customer st' row) /\
  cl_log (load_customer st row) = cl_log st /\
  cl_log (load_customer st' row) = cl_log st'.
Proof.
  intros Hok Hdb Hm Hid.
  destruct (insert_fails_safe row Hok) as (fn & ln & em & Hfn & Hln & Hem & He).
  unfold load_customer, insert_customer. rewrite Hfn, Hln, Hem, He, <- Hdb, <- Hm, <- Hid.
  destruct (existsb (has_email em) (customers (cl_db st))).
  - destruct (select_customer_id_by_email (cl_db st) em); cbn; auto.
  - cbn. destruct (next_customer_id (cl_db st) =? 0); auto.
Qed.

(** The customer loop with its handler: the refused rows are logged and
    skipped, and the loop does to the other rows what it would do
    without the refused ones. *)
Lemma load_customers_skip rows : forall st st',
  cl_db st = cl_db st' -> cl_metrics st = cl_metrics st' -> cl_id_map st = cl_id_map st' ->
  let a := fold_left load_customer rows st in
  let b := fold_left load_customer (List.filter (fun r => negb (insert_fails r)) rows) st' in
  cl_db a = cl_db b /\ cl_metrics a = cl_metrics b /\ cl_id_map a = cl_id_map b /\
  cl_log a = cl_log st ++ map cc_email (List.filter insert_fails rows) /\
  cl_log b = cl_log st'.
Proof.
  induction rows as [|row rows IH]; intros st st' Hdb Hm Hid; cbv zeta.
  - cbn. rewrite app_nil_r. auto.
  - cbn [fold_left List.filter]. destruct (insert_fails row) eqn:Hf; cbn [negb].
    + rewrite (load_customer_refused st row Hf).
      destruct (IH (CustomerLoad (cl_db st) (cl_metrics st) (cl_id_map st)
                      (cl_log st ++ [cc_email row])) st' Hdb Hm Hid)
        as (H1 & H2 & H3 & H4 & H5).
      cbn [cl_log] in H4. rewrite <- app_assoc in H4.
      repeat split; assumption.
    + cbn [fold_left].
      destruct (load_customer_not_refused st st' row Hf Hdb Hm Hid)
        as (Hdb1 & Hm1 & Hid1 & Hlog & Hlog').
      destruct (IH (load_customer st row) (load_customer st' row) Hdb1 Hm1 Hid1)
        as (H1 & H2 & H3 & H4 & H5).
      rewrite Hlog in H4. rewrite Hlog' in H5. repeat split; assumption.
Qed.

(** C8, as the code has it -- only the customer loader has a handler
    around its INSERT.  There, a row whose insert raises another error
    than the duplicate email is logged and skipped, and the rows that
    reached the insert loop with it are loaded as if it had not reached
    the loop.  (It has still taken part in the deduplication by email:
    a later row of its email stays removed.)  The product loader and the
    sales aggregator have none: they raise, storing nothing, exactly
    when the storage refuses one of their statements. *)
Theorem insert_error_skipped_by_customer_loader_only :
  (forall db M df,
     let frame := fst (transform_customers M df) in
     let st := process_customers db M df in
     let st' := fold_left load_customer
                  (List.filter (fun r => negb (insert_fails r)) frame)
                  (CustomerLoad db (snd (transform_customers M df)) ∅ []) in
     cl_db st = cl_db st' /\ cl_metrics st = cl_metrics st' /\
     cl_id_map st = cl_id_map st' /\
     cl_log st = map cc_email (List.filter insert_fails frame)) /\
  (forall db M df,
     (exists r, r ∈ products_reaching_insert df /\ prod_product_name r = None) <->
     (exists M', process_products db M df = Raised M')) /\
  (forall db M cust_map prod_map df,
     forallb (group_accepted db)
       (map snd (groupby sv_transaction_id (fst (transform_sales M cust_map prod_map df))))
     = false <->
     (exists M', process_sales db M cust_map prod_map df = Raised M')).
Proof.
  split; [|split].
  - intros db M df frame st st'. subst st. rewrite process_customers_eq. fold frame.
    destruct (load_customers_skip frame
                (CustomerLoad db (snd (transform_customers M df)) ∅ [])
                (CustomerLoad db (snd (transform_customers M df)) ∅ [])
                eq_refl eq_refl eq_refl) as (H1 & H2 & H3 & H4 & _).
    repeat split; assumption.
  - intros db M df.
    pose proof (process_products_outcome db M df) as Hout. cbv zeta in Hout.
    destruct (process_products db M df) as [[[db' M'] id_map]|M'].
    + destruct Hout as (Hall & _). split.
      * intros (r & Hr & Hnone). exfalso.
        rewrite Forall_forall in Hall.
        specialize (Hall (clean_product r)).
        unfold product_insert_fails in Hall.
        cbn [clean_product pc_product_name] in Hall. rewrite Hnone in Hall.
        cbn [isna orb] in Hall.
        assert (true = false); [|discriminate]. apply Hall.
        apply list_elem_of_fmap. eauto.
      * intros [M'' HM]. discriminate.
    + split; [eauto|]. intros _. exact Hout.
  - intros db M cust_map prod_map df.
    rewrite process_sales_outcome, transform_sales_frame.
    destruct (forallb _ _).
    + split; [discriminate|]. intros [M' HM]. discriminate.
    + split; [eauto|reflexivity].
Qed.

(** ** Accounting *)

Lemma accounted_grows M M' file read dup filled dropped loaded reached :
  (forall k, counter (metrics M) file k = 0%nat) ->
  grows (metrics M) (metrics M') file (counter_delta read dup filled dropped loaded) ->
  read = (dup + dropped + reached)%nat -> (loaded <= reached)%nat ->
  accounted M' file reached /\ records_loaded M' file = loaded.
Proof.
  intros Hzero Hg Hread Hloaded.
  unfold accounted, records_read, duplicates_removed, rows_dropped, records_loaded.
  rewrite !(grows_at _ _ _ _ _ Hg), !Hzero.
  change (counter_delta read dup filled dropped loaded "records_read") with read.
  change (counter_delta read dup filled dropped loaded "duplicates_removed") with dup.
  change (counter_delta read dup filled dropped loaded "rows_dropped") with dropped.
  change (counter_delta read dup filled dropped loaded "records_loaded") with loaded.
  lia.
Qed.

Lemma accounted_other M M' file file' d reached :
  grows (metrics M) (metrics M') file' d -> file <> file' ->
  accounted M file reached -> accounted M' file reached.
Proof.
  intros Hg Hne. unfold accounted, records_read, duplicates_removed, rows_dropped,
    records_loaded.
  rewrite !(grows_other _ _ _ _ _ _ Hg Hne). trivial.
Qed.

Lemma zero_other M M' file file' d :
  grows (metrics M) (metrics M') file' d -> file <> file' ->
  (forall k, counter (metrics M) file k = 0%nat) ->
  forall k, counter (metrics M') file k = 0%nat.
Proof. intros Hg Hne Hz k. rewrite (grows_other _ _ _ _ _ _ Hg Hne). apply Hz. Qed.

Lemma counter_empty file key : counter (metrics METRICS) file key = 0%nat.
Proof. reflexivity. Qed.

Lemma customers_reaching_insert_length df :
  length (drop_duplicates cust_email df)
  = (length (List.filter (fun r => isna (cust_email r)) (drop_duplicates cust_email df))
     + length (customers_reaching_insert df))%nat.
Proof. apply filter_length_split. Qed.

Lemma products_reaching_insert_length df :
  length (drop_duplicates prod_product_id df)
  = (length (List.filter (fun r => isna (prod_price r)) (drop_duplicates prod_product_id df))
     + length (products_reaching_insert df))%nat.
Proof. apply filter_length_split. Qed.

Lemma sales_reaching_insert_length cust_map prod_map df :
  length (drop_duplicates (fun r => r) df)
  = (length (List.filter is_orphan
               (map (map_ids cust_map prod_map) (drop_duplicates (fun r => r) df)))
     + length (List.filter (fun r => isna (sv_transaction_date r))
                 (map normalize_sale (sales_resolved cust_map prod_map df)))
     + length (sales_reaching_insert cust_map prod_map df))%nat.
Proof.
  pose proof (filter_length_split (fun r => isna (sv_transaction_date r))
                (map normalize_sale (sales_resolved cust_map prod_map df))) as Hdates.
  rewrite length_map in Hdates.
  pose proof (dropna_ids_length
                (map (map_ids cust_map prod_map) (drop_duplicates (fun r => r) df)))
    as Hids.
  rewrite length_map in Hids.
  change (fun r => negb (isna (sv_transaction_date r))) with has_date in Hdates.
  fold (sales_resolved cust_map prod_map df) in Hids.
  fold (sales_reaching_insert cust_map prod_map df) in Hdates.
  lia.
Qed.

Lemma process_sales_metrics db M cust_map prod_map df db' M' :
  process_sales db M cust_map prod_map df = Finished (db', M') ->
  let dedup := drop_duplicates (fun r => r) df in
  let orphans := length (List.filter is_orphan (map (map_ids cust_map prod_map) dedup)) in
  let failed := length (List.filter (fun r => isna (sv_transaction_date r))
                          (map normalize_sale (sales_resolved cust_map prod_map df))) in
  grows (metrics M) (metrics M') sales_file
        (counter_delta (length df) (length df - length dedup) 0 (orphans + failed)
                       (length (sales_reaching_insert cust_map prod_map df))).
Proof.
  rewrite process_sales_outcome. destruct (forallb _ _); [|discriminate].
  intros [= _ <-] dedup orphans failed.
  destruct (transform_sales_metrics M cust_map prod_map df) as [Hm _].
  cbv zeta in Hm. fold dedup orphans failed in Hm.
  cbn [metrics_loaded metrics].
  eapply grows_ext; [|eapply grows_trans; [exact Hm|apply grows_bump]].
  intros k. unfold counter_delta, reason_delta.
  repeat case_decide; try lia; decide_contra.
Qed.

(** C9 -- accounting of the counters, file by file, in a run of the
    pipeline.  When a loader has returned, the rows read from its file
    are the duplicates removed, the rows dropped and the rows that
    reached the insert stage; [records_loaded] is at most that last
    number: for customers it is the number of rows stored (a row whose
    insert raised, duplicate key or not, is not counted), for products
    and sales it is that number itself. *)
Theorem metrics_account_for_every_row db customers_csv products_csv sales_csv :
  let st := process_customers db METRICS customers_csv in
  let reached_customers := length (fst (transform_customers METRICS customers_csv)) in
  (accounted (cl_metrics st) customers_file reached_customers /\
   exists new, customers (cl_db st) = customers db ++ new /\
               records_loaded (cl_metrics st) customers_file = length new) /\
  forall db2 M2 prod_map,
    process_products (cl_db st) (cl_metrics st) products_csv = Finished (db2, M2, prod_map) ->
    let reached_products :=
      length (fst (transform_products (cl_metrics st) products_csv)) in
    accounted M2 customers_file reached_customers /\
    accounted M2 products_file reached_products /\
    records_loaded M2 products_file = reached_products /\
    forall db3 M3,
      process_sales db2 M2 (cl_id_map st) prod_map sales_csv = Finished (db3, M3) ->
      let reached_sales :=
        length (fst (transform_sales M2 (cl_id_map st) prod_map sales_csv)) in
      accounted M3 customers_file reached_customers /\
      accounted M3 products_file reached_products /\
      accounted M3 sales_file reached_sales /\
      records_loaded M3 sales_file = reached_sales.
Proof.
  intros st reached_customers.
  destruct files_distinct as (Hcp & Hcs & Hps).
  destruct (process_customers_metrics db METRICS customers_csv)
    as (filled & new & Hcust & Hnew & Hgc & _).
  fold st in Hcust, Hgc.
  assert (Hreached : reached_customers = length (customers_reaching_insert customers_csv)).
  { unfold reached_customers. rewrite transform_customers_frame. apply length_map. }
  pose proof (customers_reaching_insert_length customers_csv) as Hlen.
  pose proof (drop_duplicates_from_length cust_email [] customers_csv) as Hle.
  fold (drop_duplicates cust_email customers_csv) in Hle.
  destruct (accounted_grows METRICS (cl_metrics st) customers_file _ _ _ _ _
              reached_customers (counter_empty customers_file) Hgc) as [Hacc Hloaded];
    [lia|lia|].
  split; [split; [exact Hacc|exists new; split; assumption]|].
  intros db2 M2 prod_map Hprod reached_products.
  pose proof (process_products_outcome (cl_db st) (cl_metrics st) products_csv) as Hout.
  cbv zeta in Hout. rewrite Hprod in Hout.
  destruct Hout as (_ & _ & _ & _ & Hgp & _).
  assert (Hreached_p : reached_products = length (products_reaching_insert products_csv)).
  { unfold reached_products. rewrite transform_products_frame. apply length_map. }
  rewrite length_map in Hgp.
  pose proof (products_reaching_insert_length products_csv) as Hlen_p.
  pose proof (drop_duplicates_from_length prod_product_id [] products_csv) as Hle_p.
  fold (drop_duplicates prod_product_id products_csv) in Hle_p.
  assert (Hzero_p : forall k, counter (metrics (cl_metrics st)) products_file k = 0%nat).
  { apply (zero_other METRICS _ _ _ _ Hgc); [congruence|apply counter_empty]. }
  destruct (accounted_grows (cl_metrics st) M2 products_file _ _ _ _ _
              reached_products Hzero_p Hgp) as [Hacc_p Hloaded_p]; [lia|lia|].
  assert (Hacc_c2 : accounted M2 customers_file reached_customers).
  { apply (accounted_other _ _ _ _ _ _ Hgp Hcp Hacc). }
  split; [exact Hacc_c2|]. split; [exact Hacc_p|]. split; [lia|].
  intros db3 M3 Hsales reached_sales.
  pose proof (process_sales_metrics _ _ _ _ _ _ _ Hsales) as Hgs. cbv zeta in Hgs.
  assert (Hreached_s : reached_sales
            = length (sales_reaching_insert (cl_id_map st) prod_map sales_csv)).
  { unfold reached_sales. rewrite transform_sales_frame. reflexivity. }
  pose proof (sales_reaching_insert_length (cl_id_map st) prod_map sales_csv) as Hlen_s.
  pose proof (drop_duplicates_from_length (fun r : sale_raw => r) [] sales_csv) as Hle_s.
  fold (drop_duplicates (fun r : sale_raw => r) sales_csv) in Hle_s.
  assert (Hzero_s : forall k, counter (metrics M2) sales_file k = 0%nat).
  { apply (zero_other _ _ _ _ _ Hgp); [congruence|].
    apply (zero_other METRICS _ _ _ _ Hgc); [congruence|apply counter_empty]. }
  destruct (accounted_grows M2 M3 sales_file _ _ _ _ _ reached_sales Hzero_s Hgs)
    as [Hacc_s Hloaded_s]; [lia|lia|].
  split; [apply (accounted_other _ _ _ _ _ _ Hgs Hcs Hacc_c2)|].
  split; [apply (accounted_other _ _ _ _ _ _ Hgs Hps Hacc_p)|].
  split; [exact Hacc_s|lia].
Qed.

(** ** Date normalizer: the other three spellings *)

Lemma read_field_two_digits_cases hi v rest :
  0 <= v <= 99 ->
  read_field hi (two_digits v +:+ rest)
  = if (1 <=? v) && (v <=? hi) then Some (v, rest) else None.
Proof.
  drop_parameters.
  intros Hv. unfold two_digits.
  rewrite !app_String, app_empty. cbn [read_field].
  rewrite !digit_val_digit_char by mod10_bound.
  replace (10 * (v / 10 mod 10) + v mod 10) with v
    by (Z.to_euclidean_division_equations; lia).
  reflexivity.
Qed.

(** The first format wants four digits of year: a text whose third
    character is a separator is not of that format. *)
Lemma strptime_ymd_two_digits v c rest :
  digit_val c = None ->
  strptime fmt_ymd_dash (two_digits v +:+ String c "" +:+ rest) = None.
Proof.
  intros Hc. unfold strptime, fmt_ymd_dash. cbn [match_format].
  unfold two_digits. rewrite !app_String, !app_empty.
  destruct rest as [|c' rest]; cbn [read_year]; [reflexivity|].
  destruct (digit_val (digit_char (v / 10 mod 10))); [|reflexivity].
  destruct (digit_val (digit_char (v mod 10))); [|reflexivity].
  rewrite Hc. reflexivity.
Qed.

Ltac read_two_fields_year :=
  unfold strptime, in_range; cbn [match_format];
  rewrite read_field_two_digits_cases by assumption;
  match goal with |- context [(1 <=? ?a) && (?a <=? ?hi)] =>
    destruct ((1 <=? a) && (a <=? hi)) end;
  cbn [andb]; [|reflexivity];
  rewrite app_String, app_empty;
  match goal with |- context [Ascii.eqb ?x ?y] =>
    let Hsep := fresh "Hsep" in
    destruct (Ascii.eqb x y) eqn:Hsep end;
  cbn [andb]; [|reflexivity];
  rewrite read_field_two_digits_cases by assumption;
  match goal with |- context [(1 <=? ?a) && (?a <=? ?hi)] =>
    destruct ((1 <=? a) && (a <=? hi)) end;
  cbn [andb]; [|reflexivity];
  rewrite app_String, app_empty;
  match goal with H : Ascii.eqb _ _ = true |- _ => rewrite H end;
  match goal with
  | |- context [read_year (four_digits ?y)] =>
      replace (four_digits y) with (four_digits y +:+ "")
        by (unfold four_digits, two_digits; reflexivity)
  end;
  rewrite read_year_four_digits by assumption; reflexivity.

(** What the three formats of two fields and a year make of a text
    'AA?BB?YYYY' with separator [sep]. *)
Lemma strptime_dmy_slash_text a b y sep :
  0 <= a <= 99 -> 0 <= b <= 99 -> 0 <= y <= 9999 ->
  strptime fmt_dmy_slash
    (two_digits a +:+ String sep "" +:+ two_digits b +:+ String sep "" +:+ four_digits y)
  = if in_range a 31 && Ascii.eqb "/" sep && in_range b 12
    then checked_date y b a else None.
Proof. intros Ha Hb Hy. unfold fmt_dmy_slash. read_two_fields_year. Qed.

Lemma strptime_mdy_dash_text a b y sep :
  0 <= a <= 99 -> 0 <= b <= 99 -> 0 <= y <= 9999 ->
  strptime fmt_mdy_dash
    (two_digits a +:+ String sep "" +:+ two_digits b +:+ String sep "" +:+ four_digits y)
  = if in_range a 12 && Ascii.eqb "-" sep && in_range b 31
    then checked_date y a b else None.
Proof. intros Ha Hb Hy. unfold fmt_mdy_dash. read_two_fields_year. Qed.

Lemma strptime_mdy_slash_text a b y sep :
  0 <= a <= 99 -> 0 <= b <= 99 -> 0 <= y <= 9999 ->
  strptime fmt_mdy_slash
    (two_digits a +:+ String sep "" +:+ two_digits b +:+ String sep "" +:+ four_digits y)
  = if in_range a 12 && Ascii.eqb "/" sep && in_range b 31
    then checked_date y a b else None.
Proof. intros Ha Hb Hy. unfold fmt_mdy_slash. read_two_fields_year. Qed.

Lemma checked_date_valid d :
  valid_date d = true -> datetime_in_bounds d = true ->
  checked_date (year d) (month d) (day d) = Some d.
Proof.
  intros Hv Hb. unfold checked_date. destruct d as [y m dd]; cbn [year month day].
  rewrite Hv, Hb. reflexivity.
Qed.

Lemma in_range_true v hi : 1 <= v <= hi -> in_range v hi = true.
Proof.
  drop_parameters.
  intros Hv. unfold in_range. apply andb_true_intro. split; apply Z.leb_le; lia.
Qed.

(** Month and day exchanged: a date of the calendar when the day is at
    most 12. *)
Lemma valid_date_swapped d :
  valid_date d = true -> day d <= 12 ->
  valid_date (Date (year d) (day d) (month d)) = true.
Proof.
  intros Hv Hd. pose proof (valid_date_bounds d Hv) as (Hy & Hm & Hdd).
  unfold valid_date. cbn [year month day].
  assert (28 <= days_in_month (year d) (day d)).
  { unfold days_in_month.
    repeat match goal with |- context [if ?b then _ else _] => destruct b end; lia. }
  repeat (apply andb_true_intro; split); apply Z.leb_le; lia.
Qed.

(** X1 -- the round trip of the second and third formats.  A calendar
    date (inside the datetime range of the library) written as
    'DD/MM/YYYY', or as 'MM-DD-YYYY', normalizes to that date. *)
Theorem clean_date_series_reads_other_spellings d :
  valid_date d = true -> datetime_in_bounds d = true ->
  clean_date_series [Some (text_dmy_slash d); Some (text_mdy_dash d)]
  = [Some d; Some d].
Proof.
  intros Hv Hb. pose proof (valid_date_bounds d Hv) as (Hy & Hm & Hd).
  rewrite clean_date_series_pointwise. cbn [map]. unfold clean_date.
  unfold text_dmy_slash, text_mdy_dash.
  rewrite !(strptime_ymd_two_digits _ _ _ (eq_refl : digit_val "/" = None)).
  rewrite !(strptime_ymd_two_digits _ _ _ (eq_refl : digit_val "-" = None)).
  rewrite !strptime_dmy_slash_text by lia.
  rewrite !strptime_mdy_dash_text by lia.
  rewrite (in_range_true (day d) 31), (in_range_true (month d) 12) by lia.
  change (Ascii.eqb "/" "/") with true. change (Ascii.eqb "-" "-") with true.
  change (Ascii.eqb "/" "-") with false.
  rewrite !andb_false_r. cbn [andb].
  rewrite checked_date_valid by assumption. reflexivity.
Qed.

(** X2 -- a date written 'MM/DD/YYYY' is read day first whenever that
    gives a date: the second format is tried before the fourth.  For a
    calendar date [d] whose day is at most 12 the text normalizes to the
    date with month and day exchanged (when the library has it in
    bounds), and to [d] itself only when the day is above 12. *)
Theorem clean_date_series_slash_text_is_day_first d :
  valid_date d = true -> datetime_in_bounds d = true ->
  let swapped := Date (year d) (day d) (month d) in
  clean_date_series [Some (text_mdy_slash d)]
  = [Some (if (day d <=? 12) && datetime_in_bounds swapped then swapped else d)].
Proof.
  intros Hv Hb swapped. pose proof (valid_date_bounds d Hv) as (Hy & Hm & Hd).
  rewrite clean_date_series_pointwise. cbn [map]. unfold clean_date.
  unfold text_mdy_slash.
  rewrite (strptime_ymd_two_digits _ _ _ (eq_refl : digit_val "/" = None)).
  rewrite strptime_dmy_slash_text, strptime_mdy_dash_text, strptime_mdy_slash_text by lia.
  rewrite (in_range_true (month d) 31), (in_range_true (month d) 12),
    (in_range_true (day d) 31) by lia.
  change (Ascii.eqb "/" "/") with true. change (Ascii.eqb "-" "/") with false.
  cbn [andb]. rewrite (checked_date_valid d Hv Hb).
  unfold in_range. replace (1 <=? day d) with true by (symmetry; apply Z.leb_le; lia).
  cbn [andb]. destruct (day d <=? 12) eqn:Hle; cbn [andb]; [|reflexivity].
  apply Z.leb_le in Hle. unfold checked_date. fold swapped.
  unfold swapped at 1. rewrite (valid_date_swapped d Hv Hle). cbn [andb].
  destruct (datetime_in_bounds swapped); reflexivity.
Qed.

(** ** Phone normalizer: when it gives null, and which digits it keeps *)

Lemma app_assoc_string s t u : (s +:+ t) +:+ u = s +:+ (t +:+ u).
Proof.
  induction s as [|c s IH]; [reflexivity|].
  rewrite !app_String, IH. reflexivity.
Qed.

Lemma app_empty_r s : s +:+ "" = s.
Proof.
  induction s as [|c s IH]; [reflexivity|]. rewrite app_String, IH. reflexivity.
Qed.

Lemma decimal_length k : forall n, String.length (decimal k n) = k.
Proof.
  induction k as [|k IH]; intros n; [reflexivity|].
  cbn [decimal]. rewrite length_app_string, IH. cbn [String.length]. lia.
Qed.

(** The digits of [n] from position [k] up, then its [k] lowest digits. *)
Lemma decimal_split j k : forall n,
  0 <= n -> decimal (j + k) n = decimal j (n / 10 ^ Z.of_nat k) +:+ decimal k n.
Proof.
  drop_parameters.
  induction k as [|k IH]; intros n Hn.
  - rewrite Nat.add_0_r. cbn [decimal Z.of_nat]. rewrite Z.pow_0_r, Z.div_1_r, app_empty_r.
    reflexivity.
  - replace (j + S k)%nat with (S (j + k)) by lia. cbn [decimal].
    rewrite IH by (apply Z.div_pos; lia).
    rewrite app_assoc_string. f_equal.
    rewrite Z.div_div by (try apply Z.pow_pos_nonneg; lia).
    rewrite Nat2Z.inj_succ, Z.pow_succ_r by lia. reflexivity.
Qed.

Lemma substring_suffix a b :
  substring (String.length a) (String.length b) (a +:+ b) = b.
Proof.
  induction a as [|c a IH]; [apply substring_whole|].
  rewrite app_String. cbn [String.length substring]. exact IH.
Qed.

(** [str] of a non-negative integer is its decimal digits, as many as
    it has. *)
Lemma digits_fuel_decimal fuel : forall n acc,
  (1 <= fuel)%nat -> 0 <= n < 2 ^ Z.of_nat fuel ->
  exists L, digits_fuel fuel n acc = decimal L n +:+ acc.
Proof.
  induction fuel as [|fuel IH]; intros n acc Hfuel Hn; [lia|].
  cbn [digits_fuel]. destruct (n <? 10) eqn:Hlt.
  - exists 1%nat. reflexivity.
  - apply Z.ltb_ge in Hlt.
    destruct (IH (n / 10) (String (digit_char (n mod 10)) acc)) as (L & Heq).
    { destruct fuel as [|fuel']; [simpl in Hn; lia|lia]. }
    { rewrite Nat2Z.inj_succ, Z.pow_succ_r in Hn by lia.
      split; [apply Z.div_pos; lia|].
      apply Z.div_lt_upper_bound; lia. }
    exists (S L). rewrite Heq. cbn [decimal]. rewrite app_assoc_string. reflexivity.
Qed.

Lemma str_of_nonneg_decimal n :
  0 <= n -> str_of_nonneg n = decimal (String.length (str_of_nonneg n)) n.
Proof.
  intros Hn. unfold str_of_nonneg.
  destruct (digits_fuel_decimal (S (Z.to_nat (Z.log2 n))) n "") as (L & Heq).
  { lia. }
  { split; [assumption|].
    rewrite Nat2Z.inj_succ, Z2Nat.id by apply Z.log2_nonneg.
    destruct (Z.eq_dec n 0) as [->|Hne]; [reflexivity|].
    apply Z.log2_spec. lia. }
  rewrite Heq, app_empty_r, decimal_length. reflexivity.
Qed.

(** The last ten characters of a number of ten digits or more. *)
Lemma str_last_ten_decimal n :
  1000000000 <= n -> str_last 10 (str_of_nonneg n) = decimal 10 n.
Proof.
  intros Hn. destruct (str_of_nonneg_spec n) as [_ Hk]; [lia|].
  assert (Hlen : (10 <= String.length (str_of_nonneg n))%nat).
  { destruct (Nat.le_gt_cases 10 (String.length (str_of_nonneg n))) as [H|H]; [exact H|].
    assert (Hlt : n < 10 ^ Z.of_nat 9) by (apply Hk; lia).
    simpl in Hlt. lia. }
  unfold str_last. rewrite (str_of_nonneg_decimal n) at 2 by lia.
  set (L := String.length (str_of_nonneg n)) in *.
  replace L with ((L - 10) + 10)%nat at 2 by lia.
  rewrite decimal_split by lia.
  pose proof (substring_suffix (decimal (L - 10) (n / 10 ^ Z.of_nat 10))
                (decimal 10 n)) as Hsuf.
  rewrite !decimal_length in Hsuf. exact Hsuf.
Qed.

(** X3 -- when the phone normalizer gives null: on a NaN cell, when
    [float] or [int] raises, and when the integer is written with fewer
    than ten characters, that is, lies strictly between -10^8 and 10^9.
    In every other case it returns a string. *)
Theorem clean_phone_none_iff phone :
  clean_phone phone = None <->
  pd_isna phone = true \/
  match py_float phone with
  | None => True
  | Some f =>
      match py_int_of_float f with
      | None => True
      | Some z => -100000000 < z < 1000000000
      end
  end.
Proof.
  unfold clean_phone. destruct (pd_isna phone); [tauto|].
  destruct (py_float phone) as [f|]; [|tauto].
  destruct (py_int_of_float f) as [z|]; [|tauto].
  cbv zeta. unfold py_str_of_int. destruct (z <? 0) eqn:Hneg.
  - apply Z.ltb_lt in Hneg.
    destruct (str_of_nonneg_spec (- z)) as [_ Hk]; [lia|].
    specialize (Hk 8%nat). change (10 ^ Z.of_nat 8) with 100000000 in Hk.
    cbn [String.length].
    destruct (Nat.leb 10 (S (String.length (str_of_nonneg (- z))))) eqn:Hlen.
    + apply Nat.leb_le in Hlen. split; [discriminate|].
      intros [H|H]; [discriminate|]. assert (- z < 100000000) by lia.
      assert (String.length (str_of_nonneg (- z)) <= 8)%nat by (apply Hk; lia). lia.
    + apply Nat.leb_gt in Hlen. split; [|reflexivity]. intros _. right.
      assert (- z < 100000000) by (apply Hk; lia). lia.
  - apply Z.ltb_ge in Hneg.
    destruct (str_of_nonneg_spec z Hneg) as [_ Hk].
    specialize (Hk 9%nat). change (10 ^ Z.of_nat 9) with 1000000000 in Hk.
    destruct (Nat.leb 10 (String.length (str_of_nonneg z))) eqn:Hlen.
    + apply Nat.leb_le in Hlen. split; [discriminate|].
      intros [H|H]; [discriminate|].
      assert (String.length (str_of_nonneg z) <= 9)%nat by (apply Hk; lia). lia.
    + apply Nat.leb_gt in Hlen. split; [|reflexivity]. intros _. right.
      assert (z < 1000000000) by (apply Hk; lia). lia.
Qed.

(** X4 -- which digits the phone normalizer keeps.  When the integer
    [int(float(phone))] has ten digits or more, the result is "+91-"
    followed by its ten lowest decimal digits: the digits in front (a
    country code) and the sign are dropped. *)
Theorem clean_phone_keeps_last_ten_digits phone f z :
  py_float phone = Some f -> py_int_of_float f = Some z ->
  1000000000 <= Z.abs z ->
  clean_phone phone = Some ("+91-" +:+ decimal 10 (Z.abs z)).
Proof.
  intros Hf Hz Habs. unfold clean_phone.
  assert (Hna : pd_isna phone = false).
  { destruct phone as [[]| |]; try reflexivity.
    cbn in Hf. injection Hf as <-. discriminate. }
  rewrite Hna, Hf, Hz. cbv zeta.
  unfold py_str_of_int. destruct (z <? 0) eqn:Hneg.
  - apply Z.ltb_lt in Hneg. rewrite Z.abs_neq in * by lia.
    destruct (str_of_nonneg_spec (- z)) as [_ Hk]; [lia|].
    assert (Hlen : (10 <= String.length (str_of_nonneg (- z)))%nat).
    { destruct (Nat.le_gt_cases 10 (String.length (str_of_nonneg (- z)))) as [H|H];
        [exact H|].
      assert (Hlt : - z < 10 ^ Z.of_nat 9) by (apply Hk; lia).
      simpl in Hlt. lia. }
    cbn [String.length].
    replace (Nat.leb 10 (S (String.length (str_of_nonneg (- z))))) with true
      by (symmetry; apply Nat.leb_le; lia).
    f_equal. f_equal.
    rewrite <- (str_last_ten_decimal (- z)) by lia.
    unfold str_last. cbn [String.length].
    replace (S (String.length (str_of_nonneg (- z))) - 10)%nat
      with (S (String.length (str_of_nonneg (- z)) - 10)) by lia.
    reflexivity.
  - apply Z.ltb_ge in Hneg. rewrite Z.abs_eq in * by lia.
    destruct (str_of_nonneg_spec z Hneg) as [_ Hk].
    assert (Hlen : (10 <= String.length (str_of_nonneg z))%nat).
    { destruct (Nat.le_gt_cases 10 (String.length (str_of_nonneg z))) as [H|H]; [exact H|].
      assert (Hlt : z < 10 ^ Z.of_nat 9) by (apply Hk; lia).
      simpl in Hlt. lia. }
    replace (Nat.leb 10 (String.length (str_of_nonneg z))) with true
      by (symmetry; apply Nat.leb_le; lia).
    rewrite str_last_ten_decimal by lia. reflexivity.
Qed.

(** ** Metrics tracker: the drop reasons add up *)

Lemma total_count_insert (m : gmap string nat) k v :
  (total_count (<[k := v]> m) + default 0 (m !! k) = total_count m + v)%nat.
Proof.
  drop_parameters.
  unfold total_count.
  assert (Hcomm : forall (m' : gmap string nat) (j1 j2 : string) (z1 z2 y : nat),
            j1 <> j2 -> m' !! j1 = Some z1 -> m' !! j2 = Some z2 ->
            (z1 + (z2 + y) = z2 + (z1 + y))%nat) by (intros; lia).
  destruct (m !! k) as [old|] eqn:Hk; cbn [from_option id].
  - rewrite <- (insert_delete_eq m k v).
    rewrite (map_fold_insert_L _ _ k v (delete k m)) by
      (first [apply Hcomm | apply lookup_delete_eq]).
    rewrite (map_fold_delete_L _ _ k old m) by (first [apply Hcomm | exact Hk]).
    lia.
  - rewrite (map_fold_insert_L _ _ k v m) by (first [apply Hcomm | exact Hk]). lia.
Qed.

Lemma total_count_bump t file key n f :
  total_count (default ∅ (bump t file key n !! f))
  = (total_count (default ∅ (t !! f)) + (if decide (f = file) then n else 0))%nat.
Proof.
  drop_parameters.
  unfold bump. destruct (decide (f = file)) as [->|Hne].
  - rewrite lookup_insert_eq. cbn [from_option id].
    pose proof (total_count_insert (default ∅ (t !! file)) key (counter t file key + n)).
    unfold counter in *. lia.
  - rewrite lookup_insert_ne by congruence. lia.
Qed.

(** X5 -- an invariant of the tracker.  Whatever the calls made on a
    fresh tracker, the [rows_dropped] counter of a file is the sum of
    the counts of its drop reasons: [dropped] is the only method that
    touches either, and it adds the same number to both. *)
Theorem rows_dropped_is_sum_of_drop_reasons (calls : list tracker_call) (file : string) :
  let M := fold_left tracker_do calls METRICS in
  rows_dropped M file = total_count (default ∅ (drop_reasons M !! file)).
Proof.
  drop_parameters.
  cbv zeta.
  assert (Hinv : forall M,
            (forall f, rows_dropped M f = total_count (default ∅ (drop_reasons M !! f))) ->
            forall f, rows_dropped (fold_left tracker_do calls M) f
                      = total_count (default ∅ (drop_reasons (fold_left tracker_do calls M) !! f))).
  { induction calls as [|c calls IH]; intros M HM; [exact HM|].
    cbn [fold_left]. apply IH. intros f. specialize (HM f).
    unfold rows_dropped in *.
    destruct c as [file' n|file' n|file' n|file' n|file' reason n];
      cbn [tracker_do metrics_read metrics_dup metrics_filled metrics_loaded
           metrics_dropped metrics drop_reasons];
      rewrite counter_bump; try rewrite total_count_bump; rewrite HM;
      repeat case_decide; try lia; decide_contra. }
  apply Hinv. intros f. reflexivity.
Qed.

(** ** Customer loader: what one iteration does *)

Lemma insert_fails_false row fn ln e :
  cc_first_name row = Some fn -> cc_last_name row = Some ln -> cc_email row = Some e ->
  insert_fails row = false.
Proof. intros H1 H2 H3. unfold insert_fails. rewrite H1, H2, H3. reflexivity. Qed.

(** The three ways through the body of the insert loop: the storage
    refuses the row (a NOT NULL column is missing); the email is already
    stored, and the key of its row is looked up; the row is stored. *)
Lemma load_customer_cases st row :
  (insert_fails row = true /\
   load_customer st row
   = CustomerLoad (cl_db st) (cl_metrics st) (cl_id_map st) (cl_log st ++ [cc_email row])) \/
  (exists fn ln e,
     cc_first_name row = Some fn /\ cc_last_name row = Some ln /\ cc_email row = Some e /\
     ((exists c rest,
         List.filter (has_email e) (customers (cl_db st)) = c :: rest /\
         load_customer st row
         = CustomerLoad (cl_db st) (cl_metrics st)
                        (<[cc_customer_id row := c_customer_id c]> (cl_id_map st))
                        (cl_log st)) \/
      (existsb (has_email e) (customers (cl_db st)) = false /\
       load_customer st row
       = CustomerLoad
           (Database (customers (cl_db st)
                      ++ [CustomerRow (next_customer_id (cl_db st)) fn ln e (cc_phone row)
                                      (cc_city row) (cc_registration_date row)])
                     (products (cl_db st)) (orders (cl_db st)) (order_items (cl_db st))
                     (next_customer_id (cl_db st) + 1) (next_product_id (cl_db st))
                     (next_order_id (cl_db st)) (next_order_item_id (cl_db st)))
           (metrics_loaded (cl_metrics st) customers_file 1)
           (if next_customer_id (cl_db st) =? 0 then cl_id_map st
            else <[cc_customer_id row := next_customer_id (cl_db st)]> (cl_id_map st))
           (cl_log st)))).
Proof.
  destruct (insert_fails row) eqn:Hfails.
  { left. split; [reflexivity|]. apply load_customer_refused. assumption. }
  right. destruct (insert_fails_safe row Hfails) as (fn & ln & e & Hfn & Hln & Hem & He).
  exists fn, ln, e.
  assert (Hfn' : cc_first_name row = Some fn).
  { destruct (cc_first_name row); [exact Hfn|discriminate]. }
  assert (Hln' : cc_last_name row = Some ln).
  { destruct (cc_last_name row); [exact Hln|discriminate]. }
  do 3 (split; [assumption|]).
  unfold load_customer, insert_customer. rewrite Hfn, Hln, Hem, He.
  destruct (existsb (has_email e) (customers (cl_db st))) eqn:Hex.
  - left. unfold select_customer_id_by_email.
    apply existsb_exists in Hex as (c0 & Hin0 & Hc0).
    destruct (List.filter (has_email e) (customers (cl_db st))) as [|c rest] eqn:Hf.
    { exfalso. assert (Hin : In c0 (List.filter (has_email e) (customers (cl_db st))))
        by (apply filter_In; auto). rewrite Hf in Hin. destruct Hin. }
    exists c, rest. split; reflexivity.
  - right. split; [reflexivity|].
    assert (Hsafe : forall A (v : option A), safe_value v = v) by (intros A [v|]; reflexivity).
    rewrite !Hsafe. reflexivity.
Qed.

Lemma filter_head_elem {A} (p : A -> bool) (l : list A) x rest :
  List.filter p l = x :: rest -> x ∈ l /\ p x = true.
Proof.
  intros Hf. assert (Hin : In x (List.filter p l)) by (rewrite Hf; left; reflexivity).
  apply filter_In in Hin as [Hin Hp]. split; [apply list_elem_of_In; exact Hin|exact Hp].
Qed.

Lemma load_customer_id_map_points (P : customer_clean -> Prop) st row :
  (insert_fails row = false -> P row) ->
  id_map_points P st -> id_map_points P (load_customer st row).
Proof.
  intros HP Hinv.
  destruct (load_customer_cases st row)
    as [[_ ->]|(fn & ln & e & Hfn & Hln & He & [(c & rest & Hf & ->)|[Hex ->]])].
  - exact Hinv.
  - specialize (HP (insert_fails_false row fn ln e Hfn Hln He)).
    intros k id Hk. cbn [cl_id_map cl_db] in *.
    apply lookup_insert_Some in Hk as [[<- <-]|[_ Hk]]; [|apply Hinv; exact Hk].
    apply filter_head_elem in Hf as [Hin Hc]. apply String.eqb_eq in Hc.
    exists c, row. rewrite Hc. auto.
  - specialize (HP (insert_fails_false row fn ln e Hfn Hln He)).
    assert (Hold : forall k id, cl_id_map st !! k = Some id ->
              exists c row',
                c ∈ customers (cl_db st)
                      ++ [CustomerRow (next_customer_id (cl_db st)) fn ln e (cc_phone row)
                                      (cc_city row) (cc_registration_date row)] /\
                c_customer_id c = id /\ P row' /\ cc_customer_id row' = k /\
                cc_email row' = Some (c_email c)).
    { intros k id Hk. destruct (Hinv k id Hk) as (c & row' & Hin & H).
      exists c, row'. split; [apply elem_of_app; left; exact Hin|exact H]. }
    intros k id Hk. cbn [cl_id_map cl_db customers] in *.
    destruct (next_customer_id (cl_db st) =? 0); [apply Hold; exact Hk|].
    apply lookup_insert_Some in Hk as [[<- <-]|[_ Hk]]; [|apply Hold; exact Hk].
    exists (CustomerRow (next_customer_id (cl_db st)) fn ln e (cc_phone row)
                        (cc_city row) (cc_registration_date row)), row.
    split; [apply elem_of_app; right; apply list_elem_of_singleton; reflexivity|].
    cbn [c_customer_id c_email]. auto.
Qed.

Lemma load_customers_id_map_points (P : customer_clean -> Prop) rows : forall st,
  (forall row, row ∈ rows -> insert_fails row = false -> P row) ->
  id_map_points P st -> id_map_points P (fold_left load_customer rows st).
Proof.
  induction rows as [|row rows IH]; intros st HP Hinv; [exact Hinv|].
  cbn [fold_left]. apply IH.
  - intros row' Hin. apply HP. apply elem_of_cons. right. exact Hin.
  - apply load_customer_id_map_points; [|exact Hinv].
    apply HP. apply elem_of_cons. left. reflexivity.
Qed.

Lemma customers_reaching_insert_elem df r :
  r ∈ customers_reaching_insert df -> r ∈ df /\ isna (cust_email r) = false.
Proof.
  unfold customers_reaching_insert, has_email_cell. intros Hin.
  apply list_elem_of_In, filter_In in Hin as [Hin Hp].
  apply list_elem_of_In, drop_duplicates_from_subset in Hin as [Hin _].
  split; [exact Hin|]. destruct (isna (cust_email r)); [discriminate|reflexivity].
Qed.

(** The entries of the IdentityMap of a run of the customer loader. *)
Lemma process_customers_id_map_points db M df :
  id_map_points
    (fun row => exists r,
       r ∈ customers_reaching_insert df /\ row = clean_customer r /\
       isna (cust_first_name r) = false /\ isna (cust_last_name r) = false)
    (process_customers db M df).
Proof.
  rewrite process_customers_eq, transform_customers_frame.
  apply load_customers_id_map_points.
  - intros row Hrow Hok. apply list_elem_of_fmap in Hrow as (r & -> & Hr).
    exists r. split; [exact Hr|]. split; [reflexivity|].
    unfold insert_fails, clean_customer in Hok.
    cbn [cc_first_name cc_last_name cc_email] in Hok.
    apply orb_false_iff in Hok as [Hok _]. apply orb_false_iff in Hok. exact Hok.
  - intros k' id' Hk'. cbn [cl_id_map] in Hk'. rewrite lookup_empty in Hk'. discriminate.
Qed.

(** X6 -- the customer IdentityMap only holds keys of stored customers.
    Whatever the tables held before, every entry the loader returns maps
    a source id to the key of a customer that is in the table when the
    loader ends; the source id is that of a row of the file that reached
    the insert loop with both names present, and the customer has the
    email of that row. *)
Theorem customer_identity_map_points_to_stored_rows db M df k id :
  let st := process_customers db M df in
  cl_id_map st !! k = Some id ->
  exists c r,
    c ∈ customers (cl_db st) /\ c_customer_id c = id /\
    r ∈ df /\ r ∈ customers_reaching_insert df /\
    cust_customer_id r = k /\ cust_email r = Some (c_email c) /\
    isna (cust_first_name r) = false /\ isna (cust_last_name r) = false.
Proof.
  intros st Hk.
  destruct (process_customers_id_map_points db M df k id Hk)
    as (c & row & Hin & Hid & (r & Hr & -> & Hfn & Hln) & Hrow & Hemail).
  exists c, r. cbn [clean_customer cc_customer_id cc_email] in *.
  pose proof (customers_reaching_insert_elem df r Hr) as [Hdf _].
  repeat split; assumption.
Qed.

(** ** The pipeline: the maps the sales aggregator is given *)

Lemma has_customer_elem db c : c ∈ customers db -> has_customer db (c_customer_id c) = true.
Proof.
  intros Hin. unfold has_customer. apply existsb_exists.
  exists c. split; [apply list_elem_of_In; exact Hin|apply Z.eqb_refl].
Qed.

(** The products loop keeps the keys of [id_map] among the stored
    products, and moves the AUTO_INCREMENT counter by one per row. *)
Lemma load_products_resolve frame : forall db M id_map db' M' id_map',
  load_products db M id_map frame = Finished (db', M', id_map') ->
  (forall k id, id_map !! k = Some id -> has_product db id = true) ->
  (forall k id, id_map' !! k = Some id -> has_product db' id = true) /\
  next_product_id db' = next_product_id db + Z.of_nat (length frame).
Proof.
  induction frame as [|row frame IH]; intros db M id_map db' M' id_map' Hrun Hinv.
  - cbn [load_products] in Hrun. injection Hrun as <- <- <-.
    split; [exact Hinv|]. cbn [length]. lia.
  - cbn [load_products] in Hrun. unfold insert_product in Hrun.
    destruct (safe_value (pc_product_name row)) as [pn|]; [|discriminate].
    cbn [safe_value isna] in Hrun.
    destruct (safe_value (pc_price row)) as [pr|]; [|discriminate].
    apply IH in Hrun as [Hres Hnext].
    + split; [exact Hres|]. rewrite Hnext. cbn [next_product_id length]. lia.
    + intros k id Hk. unfold has_product. cbn [products]. rewrite existsb_app.
      apply orb_true_iff.
      apply lookup_insert_Some in Hk as [[_ <-]|[_ Hk]].
      * right. cbn [existsb p_product_id]. rewrite Z.eqb_refl. reflexivity.
      * left. apply (Hinv k id Hk).
Qed.

(** After the first two loaders the two maps point into the tables the
    sales aggregator writes to. *)
Lemma pipeline_maps_resolve db M customers_csv products_csv db2 M2 prod_map :
  let st := process_customers db M customers_csv in
  process_products (cl_db st) (cl_metrics st) products_csv = Finished (db2, M2, prod_map) ->
  maps_resolve db2 (cl_id_map st) prod_map.
Proof.
  intros st Hp.
  pose proof (process_products_outcome (cl_db st) (cl_metrics st) products_csv) as Hout.
  cbv zeta in Hout. rewrite Hp in Hout. destruct Hout as (_ & _ & _ & Hcust & _).
  split.
  - intros k id Hk.
    assert (Hpoints : id_map_points (fun _ => True) st).
    { subst st. rewrite process_customers_eq.
      apply load_customers_id_map_points; [auto|].
      intros k' id' Hk'. cbn [cl_id_map] in Hk'. rewrite lookup_empty in Hk'. discriminate. }
    destruct (Hpoints k id Hk) as (c & _ & Hin & <- & _).
    unfold has_customer. rewrite Hcust. apply (has_customer_elem (cl_db st)). exact Hin.
  - rewrite process_products_eq in Hp.
    apply load_products_resolve in Hp as [Hres _]; [exact Hres|].
    intros k id Hk. rewrite lookup_empty in Hk. discriminate.
Qed.

(** X7 -- the references of the sales rows in a run of the pipeline.
    When the product loader has returned, the two maps handed to the
    sales aggregator only name stored rows.  So every sales row that
    reaches the insert stage carries the key of a stored customer, the
    key of a stored product and a date, and the statements of every
    group satisfy the NOT NULL order date and the three foreign keys. *)
Theorem sales_rows_reference_stored_rows db M customers_csv products_csv sales_csv
    db2 M2 prod_map :
  let st := process_customers db M customers_csv in
  process_products (cl_db st) (cl_metrics st) products_csv = Finished (db2, M2, prod_map) ->
  let frame := fst (transform_sales M2 (cl_id_map st) prod_map sales_csv) in
  maps_resolve db2 (cl_id_map st) prod_map /\
  (forall r, r ∈ frame ->
     has_customer db2 (sv_db_customer_id r) = true /\
     has_product db2 (sv_db_product_id r) = true /\
     isna (sv_transaction_date r) = false) /\
  forallb (group_accepted db2) (map snd (groupby sv_transaction_id frame)) = true.
Proof.
  intros st Hp frame.
  pose proof (pipeline_maps_resolve db M customers_csv products_csv db2 M2 prod_map Hp)
    as Hmaps.
  fold st in Hmaps. split; [exact Hmaps|]. split.
  - intros r Hr. unfold frame in Hr. rewrite transform_sales_frame in Hr.
    apply sales_reaching_insert_elem in Hr as ((raw & _ & Hc & Hq & _) & Hdate).
    destruct Hmaps as [Hcust Hprod].
    split; [exact (Hcust _ _ Hc)|]. split; [exact (Hprod _ _ Hq)|exact Hdate].
  - unfold frame. rewrite transform_sales_frame. apply groups_accepted. exact Hmaps.
Qed.

(** ** Customer loader: a second run *)

Lemma select_unique db c :
  NoDup (map c_email (customers db)) -> c ∈ customers db ->
  select_customer_id_by_email db (c_email c) = Some (c_customer_id c).
Proof.
  intros Hnd Hin. unfold select_customer_id_by_email.
  rewrite filter_has_email_unique by assumption. reflexivity.
Qed.

(** A run of the loop on a table that respects its UNIQUE email: the
    map it builds is the one a lookup by email in the final table gives,
    and the final table has the email of every row it did not refuse. *)
Lemma load_customers_map_existing rows : forall st,
  customers_wf (cl_db st) ->
  let st' := fold_left load_customer rows st in
  cl_id_map st' = fold_left (map_existing (cl_db st')) rows (cl_id_map st) /\
  (forall row e, row ∈ rows -> insert_fails row = false -> cc_email row = Some e ->
     e ∈ map c_email (customers (cl_db st'))).
Proof.
  induction rows as [|row rows IH]; intros st Hwf.
  { split; [reflexivity|]. intros row e Hin. inversion Hin. }
  cbn [fold_left]. cbv zeta.
  pose proof (load_customer_wf st row Hwf) as Hwf1.
  destruct (IH (load_customer st row) Hwf1) as [Hmap Hemails].
  set (st' := fold_left load_customer rows (load_customer st row)) in *.
  pose proof (load_customers_wf rows (load_customer st row) Hwf1) as [Hnd' _].
  fold st' in Hnd'.
  assert (Hstep : cl_id_map (load_customer st row)
                  = map_existing (cl_db st') (cl_id_map st) row /\
                  (forall e, insert_fails row = false -> cc_email row = Some e ->
                     e ∈ map c_email (customers (cl_db st')))).
  { destruct (load_customer_cases st row)
      as [[Hf Heq]|(fn & ln & e & Hfn & Hln & He & [(c & rest & Hfl & Heq)|[Hex Heq]])].
    - rewrite Heq. unfold map_existing. rewrite Hf. split; [reflexivity|].
      intros e Hno. congruence.
    - apply filter_head_elem in Hfl as [Hin Hc]. apply String.eqb_eq in Hc.
      assert (Hin' : c ∈ customers (cl_db st')).
      { apply load_customers_keep. rewrite Heq. exact Hin. }
      split.
      + rewrite Heq. unfold map_existing.
        rewrite (insert_fails_false row fn ln e Hfn Hln He), He, <- Hc.
        rewrite (select_unique _ c Hnd' Hin'). reflexivity.
      + intros e' _ He'. rewrite He in He'. injection He' as <-.
        rewrite <- Hc. apply list_elem_of_fmap. exists c. auto.
    - set (c := CustomerRow (next_customer_id (cl_db st)) fn ln e (cc_phone row)
                            (cc_city row) (cc_registration_date row)) in *.
      assert (Hin' : c ∈ customers (cl_db st')).
      { apply load_customers_keep. rewrite Heq. cbn [cl_db customers].
        apply elem_of_app. right. apply list_elem_of_singleton. reflexivity. }
      split.
      + rewrite Heq. unfold map_existing.
        rewrite (insert_fails_false row fn ln e Hfn Hln He), He.
        change e with (c_email c) at 1.
        rewrite (select_unique _ c Hnd' Hin'). cbn [cl_id_map].
        destruct Hwf as [_ Hpos].
        destruct (next_customer_id (cl_db st) =? 0) eqn:Hz;
          [apply Z.eqb_eq in Hz; lia|reflexivity].
      + intros e' _ He'. rewrite He in He'. injection He' as <-.
        apply list_elem_of_fmap. exists c. auto. }
  destruct Hstep as [Hstep Hemail]. split.
  - rewrite Hmap, Hstep. reflexivity.
  - intros row' e Hin Hno He. apply elem_of_cons in Hin as [->|Hin].
    + apply Hemail; assumption.
    + apply (Hemails row' e); assumption.
Qed.

(** A run of the loop on a table that has the email of every row: each
    insert is a duplicate entry, nothing is stored or counted, and the
    map is the one the lookups by email give. *)
Lemma load_customers_all_stored rows : forall st,
  (forall row e, row ∈ rows -> insert_fails row = false -> cc_email row = Some e ->
     e ∈ map c_email (customers (cl_db st))) ->
  let st' := fold_left load_customer rows st in
  cl_db st' = cl_db st /\ cl_metrics st' = cl_metrics st /\
  cl_id_map st' = fold_left (map_existing (cl_db st)) rows (cl_id_map st).
Proof.
  induction rows as [|row rows IH]; intros st Hemails.
  { repeat split. }
  cbn [fold_left]. cbv zeta.
  assert (Hstep : cl_db (load_customer st row) = cl_db st /\
                  cl_metrics (load_customer st row) = cl_metrics st /\
                  cl_id_map (load_customer st row)
                  = map_existing (cl_db st) (cl_id_map st) row).
  { destruct (load_customer_cases st row)
      as [[Hf Heq]|(fn & ln & e & Hfn & Hln & He & [(c & rest & Hfl & Heq)|[Hex Heq]])].
    - rewrite Heq. unfold map_existing. rewrite Hf. repeat split.
    - rewrite Heq. unfold map_existing, select_customer_id_by_email.
      rewrite (insert_fails_false row fn ln e Hfn Hln He), He, Hfl. repeat split.
    - exfalso.
      assert (Hin : e ∈ map c_email (customers (cl_db st))).
      { apply (Hemails row e); [apply elem_of_cons; left; reflexivity| |exact He].
        apply (insert_fails_false row fn ln e Hfn Hln He). }
      apply existsb_has_email in Hin. congruence. }
  destruct Hstep as (Hdb & HM & Hmap).
  destruct (IH (load_customer st row)) as (Hdb' & HM' & Hmap').
  { rewrite Hdb. intros row' e Hin. apply Hemails. apply elem_of_cons. right. exact Hin. }
  rewrite Hdb', HM', Hmap', Hdb, HM, Hmap. repeat split.
Qed.

(** X8 -- the customer loader can be run again.  On a customers table
    that respects its UNIQUE email, a second run over the same file
    stores no row (each insert is a duplicate entry, answered by the
    lookup of the stored key), counts no row as loaded, and returns the
    IdentityMap of the first run. *)
Theorem customer_loader_second_run_stores_nothing db M M' df :
  customers_wf db ->
  let st := process_customers db M df in
  let st2 := process_customers (cl_db st) M' df in
  cl_db st2 = cl_db st /\
  cl_id_map st2 = cl_id_map st /\
  records_loaded (cl_metrics st2) customers_file = records_loaded M' customers_file.
Proof.
  intros Hwf st st2. subst st2 st. rewrite !process_customers_eq.
  rewrite !transform_customers_frame.
  set (frame := map clean_customer (customers_reaching_insert df)).
  set (st0 := CustomerLoad db (snd (transform_customers M df)) ∅ []).
  destruct (load_customers_map_existing frame st0 Hwf) as [Hmap Hemails].
  set (st := fold_left load_customer frame st0) in *.
  destruct (load_customers_all_stored frame
              (CustomerLoad (cl_db st) (snd (transform_customers M' df)) ∅ []))
    as (Hdb2 & HM2 & Hmap2).
  { exact Hemails. }
  cbn [cl_db cl_metrics cl_id_map] in Hdb2, HM2, Hmap2.
  split; [exact Hdb2|]. split; [rewrite Hmap2, Hmap; reflexivity|].
  rewrite HM2. destruct (transform_customers_metrics M' df) as (filled & Hg & _).
  unfold records_loaded. rewrite (grows_at _ _ _ _ "records_loaded" Hg).
  unfold counter_delta. repeat case_decide; try lia; decide_contra.
Qed.

(** ** Customer loader: the rows it stores *)

Lemma load_customer_stored st row :
  exists new,
    customers (cl_db (load_customer st row)) = customers (cl_db st) ++ new /\
    Forall (stored_from row) new /\
    products (cl_db (load_customer st row)) = products (cl_db st) /\
    orders (cl_db (load_customer st row)) = orders (cl_db st) /\
    order_items (cl_db (load_customer st row)) = order_items (cl_db st).
Proof.
  destruct (load_customer_cases st row)
    as [[_ ->]|(fn & ln & e & Hfn & Hln & He & [(c & rest & _ & ->)|[_ ->]])].
  - exists []. rewrite app_nil_r. repeat split. constructor.
  - exists []. rewrite app_nil_r. repeat split. constructor.
  - eexists [_]. cbn [cl_db customers products orders order_items].
    split; [reflexivity|]. split; [|repeat split].
    constructor; [|constructor]. unfold stored_from.
    cbn [c_first_name c_last_name c_email c_phone c_city c_registration_date].
    repeat split; assumption.
Qed.

Lemma load_customers_stored rows : forall st,
  let st' := fold_left load_customer rows st in
  exists new,
    customers (cl_db st') = customers (cl_db st) ++ new /\
    Forall (fun c => exists row, row ∈ rows /\ stored_from row c) new /\
    products (cl_db st') = products (cl_db st) /\
    orders (cl_db st') = orders (cl_db st) /\
    order_items (cl_db st') = order_items (cl_db st).
Proof.
  induction rows as [|row rows IH]; intros st; cbn [fold_left]; cbv zeta.
  { exists []. rewrite app_nil_r. repeat split. constructor. }
  destruct (load_customer_stored st row) as (new1 & Hc1 & Hf1 & Hp1 & Ho1 & Hi1).
  destruct (IH (load_customer st row)) as (new2 & Hc2 & Hf2 & Hp2 & Ho2 & Hi2).
  cbv zeta in Hc2, Hf2, Hp2, Ho2, Hi2.
  exists (new1 ++ new2). rewrite Hc2, Hc1, Hp2, Hp1, Ho2, Ho1, Hi2, Hi1, <- app_assoc.
  repeat split. apply Forall_app. split.
  - eapply Forall_impl; [exact Hf1|]. intros c Hc. exists row.
    split; [apply elem_of_cons; left; reflexivity|exact Hc].
  - eapply Forall_impl; [exact Hf2|]. intros c (row' & Hin & Hc). exists row'.
    split; [apply elem_of_cons; right; exact Hin|exact Hc].
Qed.

(** X9 -- what the customer loader writes.  It appends rows to the
    customers table and touches no other table; every row it appends
    comes from a row of the file that reached the insert loop: names,
    email and city as in the file, the phone normalized, and the
    registration date in year-month-day form, or NULL when the date is
    missing or in none of the four formats. *)
Theorem stored_customers_are_cleaned_rows db M df :
  let st := process_customers db M df in
  exists new,
    customers (cl_db st) = customers db ++ new /\
    products (cl_db st) = products db /\
    orders (cl_db st) = orders db /\
    order_items (cl_db st) = order_items db /\
    Forall (fun c =>
              exists r,
                r ∈ customers_reaching_insert df /\
                cust_first_name r = Some (c_first_name c) /\
                cust_last_name r = Some (c_last_name c) /\
                cust_email r = Some (c_email c) /\
                c_phone c = clean_phone (cust_phone r) /\
                c_city c = cust_city r /\
                c_registration_date c
                = match clean_date (cust_registration_date r) with
                  | Some d => Some (strftime_ymd d)
                  | None => None
                  end) new.
Proof.
  intros st. subst st. rewrite process_customers_eq, transform_customers_frame.
  destruct (load_customers_stored (map clean_customer (customers_reaching_insert df))
              (CustomerLoad db (snd (transform_customers M df)) ∅ []))
    as (new & Hc & Hf & Hp & Ho & Hi).
  cbv zeta in Hc, Hf, Hp, Ho, Hi. cbn [cl_db] in Hc, Hp, Ho, Hi.
  exists new. do 4 (split; [assumption|]).
  eapply Forall_impl; [exact Hf|].
  intros c (row & Hin & H1 & H2 & H3 & H4 & H5 & H6).
  apply list_elem_of_fmap in Hin as (r & -> & Hr).
  exists r. unfold clean_customer in *.
  cbn [cc_first_name cc_last_name cc_email cc_phone cc_city cc_registration_date] in *.
  repeat split; assumption.
Qed.

(** The counters after the transform of the customer loader, with the
    number of values counted as filled. *)
Lemma transform_customers_filled M df :
  let dedup := drop_duplicates cust_email df in
  let missing := length (List.filter (fun r => isna (cust_email r)) dedup) in
  let null_dates :=
    length (List.filter (fun r => isna (clean_date (cust_registration_date r)))
                        (customers_reaching_insert df)) in
  grows (metrics M) (metrics (snd (transform_customers M df))) customers_file
        (counter_delta (length df) (length df - length dedup) null_dates missing 0).
Proof.
  intros dedup missing null_dates.
  assert (Hnull : count_true (map (fun r => isna (cc_registration_date r))
                                  (fst (transform_customers M df))) = null_dates).
  { rewrite transform_customers_frame, map_map, count_true_filter.
    unfold null_dates. f_equal. apply filter_ext. intros r.
    unfold clean_customer. cbn [cc_registration_date].
    destruct (clean_date (cust_registration_date r)); reflexivity. }
  revert Hnull.
  unfold transform_customers. cbv zeta. cbn [snd fst].
  fold dedup.
  rewrite (count_true_filter (fun r => isna (cust_email r)) dedup). fold missing.
  set (invalid := count_true (map (fun r => isna (cc_registration_date r)) _)).
  intros ->. destruct (Nat.ltb 0 null_dates) eqn:Hinv.
  - cbn [metrics_filled metrics_dropped metrics_dup metrics_read metrics drop_reasons].
    eapply grows_ext; [|eapply grows_trans; [eapply grows_trans; [eapply grows_trans|]|];
                        apply grows_bump].
    intros k. unfold counter_delta, reason_delta.
    repeat case_decide; try lia; decide_contra.
  - apply Nat.ltb_ge in Hinv. assert (null_dates = 0%nat) as -> by lia.
    cbn [metrics_filled metrics_dropped metrics_dup metrics_read metrics drop_reasons].
    eapply grows_ext; [|eapply grows_trans; [eapply grows_trans|]; apply grows_bump].
    intros k. unfold counter_delta, reason_delta.
    repeat case_decide; try lia; decide_contra.
Qed.

(** X10 -- registration dates that cannot be read.  A customer row
    whose registration date is missing or in none of the four formats
    is not dropped: it reaches the insert loop with a NULL date, and it
    is counted in [missing_values_filled], which grows by exactly the
    number of such rows (whether or not the storage then accepts them);
    [rows_dropped] only counts the row without email. *)
Theorem unreadable_registration_date_kept_as_null db M df :
  let st := process_customers db M df in
  let reaching := customers_reaching_insert df in
  let null_dates :=
    length (List.filter (fun r => isna (clean_date (cust_registration_date r))) reaching) in
  (forall r, r ∈ reaching -> clean_date (cust_registration_date r) = None ->
     exists row, row ∈ fst (transform_customers M df) /\
                 cc_customer_id row = cust_customer_id r /\
                 cc_email row = cust_email r /\
                 cc_registration_date row = None) /\
  missing_values_filled (cl_metrics st) customers_file
  = (missing_values_filled M customers_file + null_dates)%nat /\
  rows_dropped (cl_metrics st) customers_file
  = (rows_dropped M customers_file
     + length (List.filter (fun r => isna (cust_email r)) (drop_duplicates cust_email df)))%nat.
Proof.
  intros st reaching null_dates. split; [|split].
  - intros r Hr Hdate. exists (clean_customer r). split.
    + rewrite transform_customers_frame. apply list_elem_of_fmap. exists r. auto.
    + unfold clean_customer. cbn [cc_customer_id cc_email cc_registration_date].
      rewrite Hdate. auto.
  - subst st. rewrite process_customers_eq.
    destruct (load_customers_growth (fst (transform_customers M df))
                (CustomerLoad db (snd (transform_customers M df)) ∅ []))
      as (new & _ & _ & Hg & _).
    cbv zeta in Hg. cbn [cl_metrics] in Hg.
    pose proof (transform_customers_filled M df) as Hf. cbv zeta in Hf.
    unfold missing_values_filled.
    rewrite (grows_at _ _ _ _ "missing_values_filled" Hg).
    rewrite (grows_at _ _ _ _ "missing_values_filled" Hf).
    fold reaching. fold null_dates.
    unfold counter_delta, reason_delta. repeat case_decide; try lia; decide_contra.
  - subst st. rewrite process_customers_eq.
    destruct (load_customers_growth (fst (transform_customers M df))
                (CustomerLoad db (snd (transform_customers M df)) ∅ []))
      as (new & _ & _ & Hg & _).
    cbv zeta in Hg. cbn [cl_metrics] in Hg.
    pose proof (transform_customers_filled M df) as Hf. cbv zeta in Hf.
    unfold rows_dropped.
    rewrite (grows_at _ _ _ _ "rows_dropped" Hg).
    rewrite (grows_at _ _ _ _ "rows_dropped" Hf).
    unfold counter_delta, reason_delta. repeat case_decide; try lia; decide_contra.
Qed.

(** ** Product loader: the rows it stores *)

(** X11 -- what the product loader writes.  When it returns it has
    appended one product per row that reached the insert loop, in the
    order of the file: name and price as in the file, the category in
    title case, the stock quantity or 0, and the source id mapped to the
    new key.  A missing category is not NULL in the table: [astype(str)]
    makes it the text 'nan', stored as "Nan". *)
Theorem stored_products_are_cleaned_rows db M df db' M' id_map :
  process_products db M df = Finished (db', M', id_map) ->
  exists new,
    products db' = products db ++ new /\
    customers db' = customers db /\
    Forall2 (product_stored_from id_map) (products_reaching_insert df) new.
Proof.
  intros Hrun.
  pose proof (process_products_outcome db M df) as Hout. cbv zeta in Hout.
  rewrite Hrun in Hout. destruct Hout as (Hok & Hprod & Hlen & Hcust & _ & _ & Hmap).
  exists (stored_products (next_product_id db)
            (map clean_product (products_reaching_insert df))).
  split; [exact Hprod|]. split; [exact Hcust|].
  apply Forall2_same_length_lookup. split.
  { rewrite Hlen, length_map. reflexivity. }
  intros i r p Hr Hp.
  assert (Hrow : map clean_product (products_reaching_insert df) !! i
                 = Some (clean_product r)).
  { change (map clean_product (products_reaching_insert df))
      with (clean_product <$> products_reaching_insert df).
    rewrite list_lookup_fmap, Hr. reflexivity. }
  destruct (stored_products_lookup _ (next_product_id db) i _ Hok Hrow)
    as (name & price & Hname & Hprice & Hstored).
  rewrite Hstored in Hp. injection Hp as <-.
  specialize (Hmap i _ Hrow).
  unfold product_stored_from, clean_product in *.
  cbn [pc_product_name pc_price pc_category pc_stock_quantity pc_product_id
       p_product_name p_category p_price p_stock_quantity p_product_id] in *.
  repeat split; try assumption.
  intros ->. reflexivity.
Qed.

(** ** [str.title] on the categories *)

Lemma title_chars c :
  let cased c := is_upper c || is_lower c in
  cased (to_lower c) = cased c /\ cased (to_upper c) = cased c /\
  to_lower (to_lower c) = to_lower c /\ to_upper (to_upper c) = to_upper c /\
  to_upper (to_lower c) = to_upper c /\
  (cased c = false -> to_lower c = c).
Proof.
  drop_parameters.
  destruct c as [[] [] [] [] [] [] [] []]; vm_compute; repeat split; congruence.
Qed.

Lemma title_from_idempotent s : forall p,
  title_from p (title_from p s) = title_from p s.
Proof.
  induction s as [|c s IH]; intros p; [reflexivity|].
  destruct (title_chars c) as (Hl & Hu & Hll & Huu & _).
  cbv zeta in Hl, Hu. cbn [title_from].
  destruct (is_upper c || is_lower c) eqn:Hc.
  - destruct p; cbn [title_from].
    + rewrite Hl, Hll, IH. reflexivity.
    + rewrite Hu, Huu, IH. reflexivity.
  - cbn [title_from]. rewrite Hc, IH. reflexivity.
Qed.

Lemma title_from_lower s : forall p, title_from p (lower s) = title_from p s.
Proof.
  induction s as [|c s IH]; intros p; [reflexivity|].
  destruct (title_chars c) as (Hl & _ & Hll & _ & Hul & Hsame).
  cbv zeta in Hl, Hsame. cbn [lower title_from]. rewrite Hl.
  destruct (is_upper c || is_lower c) eqn:Hc.
  - rewrite Hll, Hul, IH. reflexivity.
  - rewrite Hsame, IH by reflexivity. reflexivity.
Qed.

Lemma title_from_length s : forall p, String.length (title_from p s) = String.length s.
Proof.
  induction s as [|c s IH]; intros p; [reflexivity|].
  cbn [title_from]. destruct (is_upper c || is_lower c);
    cbn [String.length]; rewrite IH; reflexivity.
Qed.

(** X12 -- the title case of the categories (on ASCII text).  It keeps
    the length of the text, it is idempotent, and it only depends on the
    text up to letter case: two categories that differ in case only,
    'electronics' and 'ELECTRONICS', are stored as the same category. *)
Theorem py_title_forgets_letter_case s t :
  ascii_only s = true -> ascii_only t = true ->
  String.length (py_title s) = String.length s /\
  py_title (py_title s) = py_title s /\
  (lower s = lower t -> py_title s = py_title t).
Proof.
  intros _ _. unfold py_title. split; [apply title_from_length|].
  split; [apply title_from_idempotent|].
  intros Heq. rewrite <- (title_from_lower s), <- (title_from_lower t), Heq. reflexivity.
Qed.

(** ** Product loader: a second run, and a first row without price *)

Lemma stored_products_rekey frame : forall next n,
  stored_products (next + n) frame = map (rekey n) (stored_products next frame).
Proof.
  drop_parameters.
  induction frame as [|row frame IH]; intros next n; [reflexivity|].
  cbn [stored_products].
  destruct (pc_product_name row); [|reflexivity].
  destruct (pc_price row); [|reflexivity].
  cbn [map]. unfold rekey at 1. cbn [p_product_id p_product_name p_category p_price
                                       p_stock_quantity].
  f_equal. replace (next + n + 1) with (next + 1 + n) by lia. apply IH.
Qed.

(** X13 -- the product loader cannot be run again without doubling the
    table.  The products table has no unique column besides its key, so
    a second run over the same file stores every row once more, under
    keys moved by the number of rows, and its IdentityMap names the new
    keys. *)
Theorem product_loader_second_run_duplicates db M M' df db1 M1 map1 :
  process_products db M df = Finished (db1, M1, map1) ->
  let n := Z.of_nat (length (products_reaching_insert df)) in
  exists db2 M2 map2 new,
    process_products db1 M' df = Finished (db2, M2, map2) /\
    products db1 = products db ++ new /\
    products db2 = products db ++ new ++ map (rekey n) new /\
    Z.of_nat (length new) = n /\
    (forall k id, map1 !! k = Some id -> map2 !! k = Some (id + n)).
Proof.
  intros Hrun n.
  pose proof (process_products_outcome db M df) as Hout. cbv zeta in Hout.
  rewrite Hrun in Hout. destruct Hout as (Hok & Hprod & Hlen & _ & _ & _ & Hmap).
  set (frame := map clean_product (products_reaching_insert df)) in *.
  assert (Hn : n = Z.of_nat (length frame)).
  { unfold n, frame. rewrite length_map. reflexivity. }
  assert (Hnext : next_product_id db1 = next_product_id db + n).
  { rewrite process_products_eq, transform_products_frame in Hrun. fold frame in Hrun.
    apply load_products_resolve in Hrun as [_ Hnext]; [rewrite Hn; exact Hnext|].
    intros k id Hk. rewrite lookup_empty in Hk. discriminate. }
  pose proof (process_products_outcome db1 M' df) as Hout2. cbv zeta in Hout2.
  fold frame in Hout2.
  destruct (process_products db1 M' df) as [[[db2 M2] map2]|M2] eqn:Hrun2.
  2:{ exfalso. destruct Hout2 as (r & Hr & Hname).
      rewrite Forall_forall in Hok.
      assert (Hin : clean_product r ∈ frame) by (apply list_elem_of_fmap; eauto).
      specialize (Hok _ Hin). unfold product_insert_fails, clean_product in Hok.
      cbn [pc_product_name] in Hok. rewrite Hname in Hok. discriminate. }
  destruct Hout2 as (_ & Hprod2 & _ & _ & _ & _ & Hmap2).
  exists db2, M2, map2, (stored_products (next_product_id db) frame).
  split; [reflexivity|]. split; [exact Hprod|]. split; [|split].
  - rewrite Hprod2, Hprod, Hnext, stored_products_rekey, <- app_assoc. reflexivity.
  - rewrite Hlen. symmetry. exact Hn.
  - intros k id Hk.
    destruct (decide (k ∈ map pc_product_id frame)) as [Hin|Hout].
    + apply list_elem_of_fmap in Hin as (row & -> & Hin).
      apply list_elem_of_lookup in Hin as [i Hi].
      rewrite (Hmap i row Hi) in Hk. injection Hk as <-.
      rewrite (Hmap2 i row Hi), Hnext. f_equal. lia.
    + exfalso. rewrite process_products_eq, transform_products_frame in Hrun.
      fold frame in Hrun.
      apply load_products_id_map in Hrun as [Hother _].
      rewrite (Hother k Hout), lookup_empty in Hk. discriminate.
Qed.

Lemma NoDup_map_inj_elem {A B} (f : A -> B) (l : list A) x y :
  NoDup (map f l) -> x ∈ l -> y ∈ l -> f x = f y -> x = y.
Proof.
  induction l as [|a l IH]; intros Hnd Hx Hy Hf; [inversion Hx|].
  cbn [map] in Hnd. apply NoDup_cons in Hnd as [Ha Hnd].
  apply elem_of_cons in Hx as [->|Hx]; apply elem_of_cons in Hy as [->|Hy].
  - reflexivity.
  - exfalso. apply Ha. rewrite Hf. apply list_elem_of_fmap. eauto.
  - exfalso. apply Ha. rewrite <- Hf. apply list_elem_of_fmap. eauto.
  - apply IH; assumption.
Qed.

(** X14 -- the deduplication comes before the check of the price.  When
    the first row of a product id has no price, the later rows of that
    id have already been removed as duplicates: no row of the id
    reaches the insert loop, and the id gets no entry in the
    IdentityMap, whatever prices the later rows carry. *)
Theorem product_whose_first_row_has_no_price_is_lost db M df r :
  r ∈ drop_duplicates prod_product_id df -> prod_price r = None ->
  (forall r', r' ∈ df -> prod_product_id r' = prod_product_id r ->
     r' ∉ products_reaching_insert df) /\
  (forall db' M' id_map,
     process_products db M df = Finished (db', M', id_map) ->
     id_map !! prod_product_id r = None).
Proof.
  intros Hr Hprice.
  assert (Hnone : forall r', r' ∈ products_reaching_insert df ->
                    prod_product_id r' <> prod_product_id r).
  { intros r' Hr' Hid. apply products_reaching_insert_elem in Hr' as [Hin Hp].
    assert (r' = r) as ->.
    { apply (NoDup_map_inj_elem prod_product_id (drop_duplicates prod_product_id df));
        try assumption.
      apply drop_duplicates_from_NoDup. }
    rewrite Hprice in Hp. discriminate. }
  split.
  - intros r' _ Hid Hin. apply (Hnone r' Hin Hid).
  - intros db' M' id_map Hrun.
    rewrite process_products_eq, transform_products_frame in Hrun.
    apply load_products_id_map in Hrun as [Hother _].
    rewrite Hother; [apply lookup_empty|].
    intros Hin. rewrite map_map in Hin.
    apply list_elem_of_fmap in Hin as (r' & Hid & Hr').
    apply (Hnone r' Hr'). symmetry. exact Hid.
Qed.

(** ** Sales aggregator: transaction dates and order totals *)

(** X15 -- transaction dates that cannot be read.  Unlike a customer,
    a sales row (with both references resolved) whose date is missing
    or in none of the four formats is dropped: it is counted, one by
    one, under "invalid_transaction_date"; [rows_dropped] is exactly
    the orphans plus these rows; and every row that reaches the insert
    stage carries a calendar date in year-month-day form. *)
Theorem unreadable_transaction_date_drops_the_row db M cust_map prod_map df :
  let dedup := drop_duplicates (fun r => r) df in
  let orphans := length (List.filter (is_orphan_raw cust_map prod_map) dedup) in
  let resolved := sales_resolved cust_map prod_map df in
  let failed :=
    length (List.filter (fun r => isna (clean_date (sv_transaction_date r))) resolved) in
  let result := process_sales db M cust_map prod_map df in
  let frame := fst (transform_sales M cust_map prod_map df) in
  drop_reason (metrics_of result) sales_file "invalid_transaction_date"
    = (drop_reason M sales_file "invalid_transaction_date" + failed)%nat /\
  rows_dropped (metrics_of result) sales_file
    = (rows_dropped M sales_file + orphans + failed)%nat /\
  (length frame + failed = length resolved)%nat /\
  (forall r, r ∈ frame ->
     exists d, valid_date d = true /\ sv_transaction_date r = Some (strftime_ymd d)).
Proof.
  intros dedup orphans resolved failed result frame.
  destruct (transform_sales_metrics M cust_map prod_map df) as [Hm Hr].
  cbv zeta in Hm, Hr. fold dedup in Hm, Hr. fold resolved in Hm, Hr.
  rewrite (filter_map_comm (map_ids cust_map prod_map) is_orphan dedup), length_map in Hm, Hr.
  change (fun x => is_orphan (map_ids cust_map prod_map x))
    with (is_orphan_raw cust_map prod_map) in Hm, Hr.
  fold orphans in Hm, Hr.
  assert (Hfailed : length (List.filter (fun r => isna (sv_transaction_date r))
                              (map normalize_sale resolved)) = failed).
  { rewrite filter_map_comm, length_map. unfold failed. f_equal.
    apply filter_ext. intros r. unfold normalize_sale. cbn [sv_transaction_date].
    destruct (clean_date (sv_transaction_date r)); reflexivity. }
  rewrite Hfailed in Hm, Hr.
  assert (Hmet : drop_reasons (metrics_of result)
                 = drop_reasons (snd (transform_sales M cust_map prod_map df)) /\
                 rows_dropped (metrics_of result) sales_file
                 = rows_dropped (snd (transform_sales M cust_map prod_map df)) sales_file).
  { subst result. rewrite process_sales_outcome.
    destruct (forallb _ _); cbn [metrics_of]; [|split; reflexivity].
    split; [reflexivity|]. unfold rows_dropped, metrics_loaded. cbn [metrics].
    rewrite counter_bump, decide_False; [lia|]. intros [_ ?]. discriminate. }
  destruct Hmet as [Hreasons Hdropped].
  split; [|split; [|split]].
  - unfold drop_reason. rewrite Hreasons.
    rewrite (grows_at _ _ _ _ "invalid_transaction_date" Hr).
    unfold reason_delta. rewrite decide_False by discriminate.
    rewrite decide_True by reflexivity. lia.
  - rewrite Hdropped. unfold rows_dropped.
    rewrite (grows_at _ _ _ _ "rows_dropped" Hm).
    change (counter_delta _ _ _ ?d _ "rows_dropped") with d. lia.
  - unfold frame. rewrite transform_sales_frame. unfold sales_reaching_insert.
    fold resolved.
    pose proof (filter_length_split (fun r => isna (sv_transaction_date r))
                  (map normalize_sale resolved)) as Hsplit.
    rewrite length_map, Hfailed in Hsplit.
    change (fun r => negb (isna (sv_transaction_date r))) with has_date in Hsplit. lia.
  - intros r Hin. unfold frame in Hin. rewrite transform_sales_frame in Hin.
    unfold sales_reaching_insert in Hin.
    apply list_elem_of_In, filter_In in Hin as [Hin Hdate].
    apply in_map_iff in Hin as (v & <- & _).
    unfold has_date, normalize_sale in *. cbn [sv_transaction_date] in *.
    destruct (clean_date (sv_transaction_date v)) as [d|] eqn:Hd; [|discriminate].
    exists d. split; [|reflexivity]. apply clean_date_valid in Hd. tauto.
Qed.

Lemma items_of_order o group its :
  Forall2 (item_of_row o) group its ->
  sum_Z (map i_subtotal its) = sum_Z (map (fun r => sv_quantity r * sv_unit_price r) group) /\
  Forall (fun it => i_order_id it = o_order_id o) its /\
  length its = length group.
Proof.
  drop_parameters.
  induction 1 as [|r it group its (Hid & _ & _ & _ & Hsub) _ (IHs & IHf & IHl)].
  - repeat split. constructor.
  - cbn [map sum_Z fold_right length]. unfold sum_Z in IHs. rewrite IHs, Hsub, IHl.
    repeat split. constructor; assumption.
Qed.

(** X16 -- orders and their items agree.  When the sales aggregator
    returns it has touched neither customers nor products, and every
    order it wrote has at least one item, its items carry its key, and
    its [total_amount] is the sum of the [subtotal] of its items. *)
Theorem order_total_is_sum_of_item_subtotals db M cust_map prod_map df db' M' :
  process_sales db M cust_map prod_map df = Finished (db', M') ->
  exists new_orders new_items,
    orders db' = orders db ++ new_orders /\
    order_items db' = order_items db ++ concat new_items /\
    customers db' = customers db /\ products db' = products db /\
    Forall2 (fun o its =>
               its <> [] /\
               Forall (fun it => i_order_id it = o_order_id o) its /\
               o_total_amount o = sum_Z (map i_subtotal its))
            new_orders new_items.
Proof.
  rewrite process_sales_outcome. cbv zeta.
  set (groups := map snd (groupby sv_transaction_id
                            (sales_reaching_insert cust_map prod_map df))).
  destruct (forallb (group_accepted db) groups) eqn:Hacc; [|discriminate].
  intros [= <- _].
  destruct (expected_tables_spec db groups (next_order_id db) (next_order_item_id db) Hacc)
    as (new_orders & new_items & Ho & Hi & Hog & Hlen & Hitems).
  exists new_orders, new_items. cbn [orders order_items customers products].
  rewrite Ho, Hi. do 4 (split; [reflexivity|]).
  pose proof (Forall2_length _ _ _ Hog) as Hlen_o.
  apply Forall2_same_length_lookup. split; [lia|].
  intros i o its Hoi Hii.
  destruct (groups !! i) as [g|] eqn:Hg.
  2:{ apply lookup_ge_None in Hg. apply lookup_lt_Some in Hoi. lia. }
  destruct (Hitems i g o its Hg Hoi Hii) as [_ Hrows].
  destruct (items_of_order o g its Hrows) as (Hsum & Hall & Hl).
  assert (Hgo : order_of_group g o).
  { rewrite Forall2_lookup in Hog. specialize (Hog i). rewrite Hg, Hoi in Hog.
    inversion Hog; assumption. }
  destruct Hgo as (Htotal & _ & first & rest & -> & _).
  split; [|split; [exact Hall|rewrite Htotal, Hsum; reflexivity]].
  intros ->. cbn [length] in Hl. discriminate.
Qed.

(** ** Sales aggregator: repeated rows, and customers that were not loaded *)

Lemma drop_duplicates_repeated {A} `{EqDecision A} (df : list A) r :
  r ∈ df -> drop_duplicates (fun x => x) (df ++ [r]) = drop_duplicates (fun x => x) df.
Proof.
  intros Hin. unfold drop_duplicates. rewrite drop_duplicates_from_app.
  cbn [drop_duplicates_from]. rewrite app_nil_r, map_id.
  rewrite decide_True by exact Hin. apply app_nil_r.
Qed.

(** X17 -- identical sales rows count once.  The deduplication of the
    sales file compares whole rows, so a row that repeats an earlier row
    of the file (the same product bought again in the same transaction,
    at the same price and quantity, on the same date) writes nothing:
    the tables are those of the file without it, and it is one more
    duplicate removed. *)
Theorem repeated_sales_row_adds_nothing db M cust_map prod_map df r :
  r ∈ df ->
  let once := process_sales db M cust_map prod_map df in
  let twice := process_sales db M cust_map prod_map (df ++ [r]) in
  tables_of twice = tables_of once /\
  duplicates_removed (metrics_of twice) sales_file
  = (duplicates_removed (metrics_of once) sales_file + 1)%nat /\
  records_loaded (metrics_of twice) sales_file = records_loaded (metrics_of once) sales_file.
Proof.
  intros Hin once twice.
  assert (Hframe : sales_reaching_insert cust_map prod_map (df ++ [r])
                   = sales_reaching_insert cust_map prod_map df).
  { unfold sales_reaching_insert, sales_resolved.
    rewrite drop_duplicates_repeated by exact Hin. reflexivity. }
  destruct (transform_sales_metrics M cust_map prod_map df) as [Hm1 _].
  destruct (transform_sales_metrics M cust_map prod_map (df ++ [r])) as [Hm2 _].
  cbv zeta in Hm1, Hm2.
  unfold sales_resolved in Hm2. rewrite drop_duplicates_repeated in Hm2 by exact Hin.
  fold (sales_resolved cust_map prod_map df) in Hm2.
  pose proof (drop_duplicates_from_length (fun x : sale_raw => x) [] df) as Hle.
  fold (drop_duplicates (fun x : sale_raw => x) df) in Hle.
  subst once twice. rewrite !process_sales_outcome. cbv zeta. rewrite Hframe.
  set (T1 := snd (transform_sales M cust_map prod_map df)) in *.
  set (T2 := snd (transform_sales M cust_map prod_map (df ++ [r]))) in *.
  assert (Hdup : counter (metrics T2) sales_file "duplicates_removed"
                 = (counter (metrics T1) sales_file "duplicates_removed" + 1)%nat).
  { rewrite (grows_at _ _ _ _ "duplicates_removed" Hm2).
    rewrite (grows_at _ _ _ _ "duplicates_removed" Hm1).
    rewrite length_app. cbn [length].
    change (counter_delta ?a ?b ?c ?d ?e "duplicates_removed") with b. lia. }
  assert (Hloaded : counter (metrics T2) sales_file "records_loaded"
                    = counter (metrics T1) sales_file "records_loaded").
  { rewrite (grows_at _ _ _ _ "records_loaded" Hm2).
    rewrite (grows_at _ _ _ _ "records_loaded" Hm1).
    change (counter_delta ?a ?b ?c ?d ?e "records_loaded") with e. reflexivity. }
  destruct (forallb _ _); cbn [tables_of metrics_of].
  - split; [reflexivity|].
    unfold duplicates_removed, records_loaded, metrics_loaded. cbn [metrics].
    rewrite !counter_bump, Hdup, Hloaded.
    repeat case_decide; try lia; decide_contra.
  - split; [reflexivity|]. unfold duplicates_removed, records_loaded.
    rewrite Hdup, Hloaded. split; reflexivity.
Qed.

(** X18 -- sales of a customer that was not loaded.  A source customer
    id gets an entry in the IdentityMap only from a row of the customer
    file that reached the insert loop.  So the sales rows of an id whose
    customer rows were all removed before the loop (a duplicate of an
    earlier email, a missing email) are orphans for the sales
    aggregator, whatever the product map holds. *)
Theorem sales_of_unloaded_customer_are_orphans db M customers_csv prod_map raw :
  let st := process_customers db M customers_csv in
  (forall r, r ∈ customers_reaching_insert customers_csv ->
     cust_customer_id r <> sale_customer_id raw) ->
  cl_id_map st !! sale_customer_id raw = None /\
  is_orphan_raw (cl_id_map st) prod_map raw = true.
Proof.
  intros st Hnone.
  assert (Hmap : cl_id_map st !! sale_customer_id raw = None).
  { destruct (cl_id_map st !! sale_customer_id raw) as [id|] eqn:Hk; [|reflexivity].
    exfalso.
    destruct (process_customers_id_map_points db M customers_csv _ id Hk)
      as (_ & row & _ & _ & (r & Hr & -> & _) & Hrow & _).
    apply (Hnone r Hr). exact Hrow. }
  split; [exact Hmap|]. unfold is_orphan_raw. rewrite Hmap. reflexivity.
Qed.

(** ** Date normalizer: text after a date *)

Lemma sep_is_no_digit k : 0 <= k <= 9 ->
  Ascii.eqb "/" (digit_char k) = false /\ Ascii.eqb "-" (digit_char k) = false.
Proof.
  drop_parameters.
  intros Hk.
  assert (Hcases : k = 0 \/ k = 1 \/ k = 2 \/ k = 3 \/ k = 4 \/
                   k = 5 \/ k = 6 \/ k = 7 \/ k = 8 \/ k = 9) by lia.
  repeat (destruct Hcases as [-> | Hcases]; [split; reflexivity|]).
  subst k. split; reflexivity.
Qed.

(** A text that starts with four digits is of none of the three formats
    that start with a field of two digits: a separator is due after at
    most two of them. *)
Lemma strptime_four_digits_first (f : directive) hi sep y rest fmt :
  (f = DirDay /\ hi = 31 \/ f = DirMonth /\ hi = 12) -> (sep = "/" \/ sep = "-")%char ->
  0 <= y <= 9999 ->
  strptime (f :: DirLit sep :: fmt) (four_digits y +:+ rest) = None.
Proof.
  intros Hf Hsep Hy. unfold strptime.
  assert (Hread : match_format (f :: DirLit sep :: fmt) (four_digits y +:+ rest)
                               None None None = None).
  { unfold four_digits, two_digits. rewrite !app_String, app_empty.
    destruct (sep_is_no_digit (y / 10 mod 10)) as [Hslash Hdash]; [mod10_bound|].
    assert (Hno : Ascii.eqb sep (digit_char (y / 10 mod 10)) = false)
      by (destruct Hsep as [->| ->]; assumption).
    destruct Hf as [[-> ->]|[-> ->]]; cbn [match_format read_field];
      rewrite !digit_val_digit_char by mod10_bound;
      match goal with |- context [if ?b then Some _ else None] => destruct b end;
      [rewrite Hno; reflexivity|reflexivity|rewrite Hno; reflexivity|reflexivity]. }
  rewrite Hread. reflexivity.
Qed.

(** X19 -- a date followed by anything else is not a date.  The formats
    are matched against the whole text, so the year-month-day text of a
    calendar date with any text after it (a time of day, a blank) is in
    none of the four formats and normalizes to null. *)
Theorem text_after_a_date_is_not_a_date d suffix :
  valid_date d = true -> suffix <> "" ->
  clean_date_series [Some (strftime_ymd d +:+ suffix)] = [None].
Proof.
  clear py_float_of_str.
  intros Hv Hsuffix. pose proof (valid_date_bounds d Hv) as (Hy & Hm & Hd).
  rewrite clean_date_series_pointwise. cbn [map]. unfold clean_date.
  unfold strftime_ymd. rewrite !app_assoc_string.
  unfold fmt_dmy_slash, fmt_mdy_dash, fmt_mdy_slash.
  rewrite (strptime_four_digits_first DirDay 31 "/") by (first [tauto | lia]).
  rewrite (strptime_four_digits_first DirMonth 12 "-") by (first [tauto | lia]).
  rewrite (strptime_four_digits_first DirMonth 12 "/") by (first [tauto | lia]).
  assert (Hfirst : strptime fmt_ymd_dash
                     (four_digits (year d) +:+ "-" +:+ two_digits (month d) +:+ "-"
                      +:+ two_digits (day d) +:+ suffix) = None).
  { unfold strptime, fmt_ymd_dash. cbn [match_format].
    rewrite read_year_four_digits by lia.
    rewrite app_String, app_empty, Ascii.eqb_refl, read_field_two_digits by lia.
    rewrite app_String, app_empty, Ascii.eqb_refl, read_field_two_digits by lia.
    destruct suffix; [congruence|reflexivity]. }
  rewrite Hfirst. reflexivity.
Qed.

(** ** Phone normalizer: the width of the result *)

Lemma substring_length s : forall n m,
  (n + m <= String.length s)%nat -> String.length (substring n m s) = m.
Proof.
  drop_parameters.
  induction s as [|c s IH]; intros n m Hlen.
  - cbn [String.length] in Hlen. assert (n = 0%nat) by lia. assert (m = 0%nat) by lia.
    subst. reflexivity.
  - cbn [String.length] in Hlen. destruct n as [|n].
    + destruct m as [|m]; [reflexivity|].
      cbn [substring String.length]. rewrite IH by lia. reflexivity.
    + cbn [substring]. apply IH. lia.
Qed.

(** X20 -- the width of a normalized phone.  Whatever the input, a
    result that is not null is "+91-" followed by exactly ten
    characters, fourteen in all: it fits the [phone VARCHAR(20)] column
    of the schema. *)
Theorem clean_phone_width phone out :
  clean_phone phone = Some out ->
  exists rest, out = "+91-" +:+ rest /\ String.length rest = 10%nat /\
               String.length out = 14%nat.
Proof.
  unfold clean_phone. destruct (pd_isna phone); [discriminate|].
  destruct (py_float phone) as [f|]; [|discriminate].
  destruct (py_int_of_float f) as [z|]; [|discriminate].
  cbv zeta. destruct (Nat.leb 10 _) eqn:Hlen; [|discriminate].
  apply Nat.leb_le in Hlen. intros [= <-].
  exists (str_last 10 (py_str_of_int z)).
  assert (Hrest : String.length (str_last 10 (py_str_of_int z)) = 10%nat).
  { unfold str_last. apply substring_length. lia. }
  split; [reflexivity|]. split; [exact Hrest|].
  rewrite length_app_string, Hrest. reflexivity.
Qed.

(** ** The schema is respected *)

Lemma keys_append {A} (key : A -> Z) (l : list A) (x : A) (next : Z) :
  NoDup (map key l) /\ Forall (fun a => key a < next) l ->
  key x = next ->
  NoDup (map key (l ++ [x])) /\ Forall (fun a => key a < next + 1) (l ++ [x]).
Proof.
  drop_parameters.
  intros [Hnd Hlt] Hx. split.
  - rewrite map_app. cbn [map]. apply NoDup_app. repeat split.
    + exact Hnd.
    + intros k Hk Hin. apply list_elem_of_singleton in Hin. subst k.
      apply list_elem_of_fmap in Hk as (a & Ha & Hin).
      rewrite Forall_forall in Hlt. specialize (Hlt a Hin). lia.
    + apply NoDup_singleton.
  - apply Forall_app. split.
    + eapply Forall_impl; [exact Hlt|]. intros a Ha. cbn beta in *. lia.
    + constructor; [lia|constructor].
Qed.

Lemma existsb_app_l {A} (p : A -> bool) (l l' : list A) :
  existsb p l = true -> existsb p (l ++ l') = true.
Proof. intros H. rewrite existsb_app, H. reflexivity. Qed.

Lemma existsb_app_r {A} (p : A -> bool) (l : list A) (x : A) :
  p x = true -> existsb p (l ++ [x]) = true.
Proof. intros H. rewrite existsb_app. cbn [existsb]. rewrite H. apply orb_true_iff. auto. Qed.

(** Each of the four INSERT statements keeps the schema respected,
    whether it stores a row or raises. *)
Lemma insert_customer_schema db fn ln em ph city date r db' :
  insert_customer db fn ln em ph city date = (r, db') ->
  schema_respected db -> schema_respected db'.
Proof.
  unfold insert_customer.
  destruct fn as [fn|]; [|intros [= _ <-]; auto].
  destruct ln as [ln|]; [|intros [= _ <-]; auto].
  destruct em as [em|]; [|intros [= _ <-]; auto].
  destruct (existsb (has_email em) (customers db)) eqn:Hex; [intros [= _ <-]; auto|].
  intros [= _ <-] (He & Hc & Hp & Ho & Hi & Hfo & Hfi).
  unfold schema_respected, has_customer, has_product, has_order in *.
  cbn [customers products orders order_items next_customer_id next_product_id
       next_order_id next_order_item_id].
  split; [|split; [apply keys_append; [exact Hc|reflexivity]|]].
  { rewrite map_app. cbn [map c_email]. apply NoDup_app. repeat split.
    - exact He.
    - intros e Hin1 Hin2. apply list_elem_of_singleton in Hin2. subst e.
      apply existsb_has_email in Hin1. congruence.
    - apply NoDup_singleton. }
  do 3 (split; [assumption|]). split; [|exact Hfi].
  eapply Forall_impl; [exact Hfo|]. intros o Hcust. apply existsb_app_l. exact Hcust.
Qed.

Lemma insert_product_schema db pn cat pr stock r db' :
  insert_product db pn cat pr stock = (r, db') ->
  schema_respected db -> schema_respected db'.
Proof.
  unfold insert_product.
  destruct pn as [pn|]; [|intros [= _ <-]; auto].
  destruct cat as [cat|]; [|intros [= _ <-]; auto].
  destruct pr as [pr|]; [|intros [= _ <-]; auto].
  intros [= _ <-] (He & Hc & Hp & Ho & Hi & Hfo & Hfi).
  unfold schema_respected, has_customer, has_product, has_order in *.
  cbn [customers products orders order_items next_customer_id next_product_id
       next_order_id next_order_item_id].
  do 2 (split; [assumption|]).
  split; [apply keys_append; [exact Hp|reflexivity]|].
  do 3 (split; [assumption|]).
  eapply Forall_impl; [exact Hfi|]. intros i [Hord Hprod].
  split; [exact Hord|]. apply existsb_app_l. exact Hprod.
Qed.

Lemma insert_order_schema db customer_id order_date total r db' :
  insert_order db customer_id order_date total = (r, db') ->
  schema_respected db -> schema_respected db'.
Proof.
  unfold insert_order.
  destruct order_date as [od|]; [|intros [= _ <-]; auto].
  destruct (has_customer db customer_id) eqn:Hcust; [|intros [= _ <-]; auto].
  intros [= _ <-] (He & Hc & Hp & Ho & Hi & Hfo & Hfi).
  unfold schema_respected, has_customer, has_product, has_order in *.
  cbn [customers products orders order_items next_customer_id next_product_id
       next_order_id next_order_item_id].
  do 3 (split; [assumption|]).
  split; [apply keys_append; [exact Ho|reflexivity]|].
  split; [assumption|]. split.
  - apply Forall_app. split; [exact Hfo|]. constructor; [exact Hcust|constructor].
  - eapply Forall_impl; [exact Hfi|]. intros i [Hord Hprod].
    split; [|exact Hprod]. apply existsb_app_l. exact Hord.
Qed.

Lemma insert_order_item_schema db order_id product_id quantity unit_price subtotal r db' :
  insert_order_item db order_id product_id quantity unit_price subtotal = (r, db') ->
  schema_respected db -> schema_respected db'.
Proof.
  unfold insert_order_item.
  destruct (has_order db order_id && has_product db product_id) eqn:Hfk;
    [|intros [= _ <-]; auto].
  apply andb_true_iff in Hfk as [Hord Hprod].
  intros [= _ <-] (He & Hc & Hp & Ho & Hi & Hfo & Hfi).
  unfold schema_respected, has_customer, has_product, has_order in *.
  cbn [customers products orders order_items next_customer_id next_product_id
       next_order_id next_order_item_id].
  do 4 (split; [assumption|]).
  split; [apply keys_append; [exact Hi|reflexivity]|].
  split; [exact Hfo|].
  apply Forall_app. split; [exact Hfi|]. constructor; [|constructor].
  cbn [i_order_id i_product_id]. auto.
Qed.

Lemma load_customer_schema st row :
  schema_respected (cl_db st) -> schema_respected (cl_db (load_customer st row)).
Proof.
  intros Hdb. unfold load_customer.
  destruct (insert_customer _ _ _ _ _ _ _) as [[new_id| |] db'] eqn:Hins.
  - cbn [cl_db]. eapply insert_customer_schema; eassumption.
  - destruct (match cc_email row with
              | Some e => select_customer_id_by_email (cl_db st) e
              | None => None
              end); exact Hdb.
  - exact Hdb.
Qed.

Lemma load_customers_schema rows : forall st,
  schema_respected (cl_db st) -> schema_respected (cl_db (fold_left load_customer rows st)).
Proof.
  induction rows as [|row rows IH]; intros st Hdb; [exact Hdb|].
  cbn [fold_left]. apply IH, load_customer_schema, Hdb.
Qed.

Lemma load_products_schema frame : forall db M id_map db' M' id_map',
  load_products db M id_map frame = Finished (db', M', id_map') ->
  schema_respected db -> schema_respected db'.
Proof.
  induction frame as [|row frame IH]; intros db M id_map db' M' id_map' Hrun Hdb.
  - cbn [load_products] in Hrun. injection Hrun as <- _ _. exact Hdb.
  - cbn [load_products] in Hrun.
    destruct (insert_product _ _ _ _ _) as [[new_id| |] db1] eqn:Hins; try discriminate.
    eapply IH; [exact Hrun|]. eapply insert_product_schema; eassumption.
Qed.

Lemma insert_item_rows_schema item_rows : forall db db',
  insert_item_rows db item_rows = Some db' ->
  schema_respected db -> schema_respected db'.
Proof.
  induction item_rows as [|[[[[o p] q] u] s] item_rows IH]; intros db db' Hrun Hdb.
  - cbn [insert_item_rows] in Hrun. injection Hrun as <-. exact Hdb.
  - cbn [insert_item_rows] in Hrun.
    destruct (insert_order_item _ _ _ _ _ _) as [[new_id| |] db1] eqn:Hins; try discriminate.
    eapply IH; [exact Hrun|]. eapply insert_order_item_schema; eassumption.
Qed.

Lemma load_groups_schema grouped : forall db n db' n',
  load_groups db n grouped = Some (db', n') ->
  schema_respected db -> schema_respected db'.
Proof.
  induction grouped as [|[k group] grouped IH]; intros db n db' n' Hrun Hdb.
  - cbn [load_groups] in Hrun. injection Hrun as <- _. exact Hdb.
  - cbn [load_groups] in Hrun.
    destruct (load_group db n group) as [[db1 n1]|] eqn:Hgroup; [|discriminate].
    eapply IH; [exact Hrun|].
    unfold load_group in Hgroup. destruct group as [|first rest]; [discriminate|].
    destruct (insert_order _ _ _ _) as [[new_id| |] db0] eqn:Hins; try discriminate.
    destruct (insert_item_rows db0 _) as [db2|] eqn:Hitems; [|discriminate].
    injection Hgroup as <- _.
    eapply insert_item_rows_schema; [exact Hitems|].
    eapply insert_order_schema; eassumption.
Qed.

(** X21 -- the loaders keep the tables consistent with the schema.
    Started on tables that respect the schema (an empty database does),
    a run of the pipeline that returns leaves tables that respect it:
    unique keys below their counters, unique emails, and no order or
    order item whose customer, order or product is not stored. *)
Theorem run_pipeline_respects_schema db customers_csv products_csv sales_csv db' M' :
  schema_respected db ->
  run_pipeline db customers_csv products_csv sales_csv = Finished (db', M') ->
  schema_respected db'.
Proof.
  intros Hdb Hrun.
  unfold run_pipeline in Hrun.
  set (st := process_customers db METRICS customers_csv) in *.
  assert (Hst : schema_respected (cl_db st)).
  { subst st. rewrite process_customers_eq. apply load_customers_schema. exact Hdb. }
  destruct (process_products (cl_db st) (cl_metrics st) products_csv)
    as [[[db2 M2] prod_map]|M2] eqn:Hp; [|discriminate].
  rewrite process_products_eq in Hp.
  apply load_products_schema in Hp; [|exact Hst].
  unfold process_sales in Hrun.
  destruct (transform_sales M2 (cl_id_map st) prod_map sales_csv) as [valid_sales M3].
  destruct (load_groups db2 0 _) as [[db3 n]|] eqn:Hg; [|discriminate].
  injection Hrun as <- _.
  eapply load_groups_schema; eassumption.
Qed.

(** ** Phone normalizer: integer cells and the detour through [float] *)

Lemma iter_xO_value mx k : Z.pos (Pos.iter xO mx k) = Z.pos mx * 2 ^ Z.pos k.
Proof.
  drop_parameters.
  induction k as [|k IH] using Pos.peano_ind.
  - cbn [Pos.iter]. rewrite (Pos2Z.inj_xO mx). change (2 ^ 1) with 2. lia.
  - rewrite Pos.iter_succ, (Pos2Z.inj_xO (Pos.iter xO mx k)), IH, Pos2Z.inj_succ,
      Z.pow_succ_r by lia. lia.
Qed.

Lemma iter_xO_digits mx k :
  Z.pos (digits2_pos (Pos.iter xO mx k)) = Z.pos (digits2_pos mx) + Z.pos k.
Proof.
  drop_parameters.
  induction k as [|k IH] using Pos.peano_ind.
  - cbn [Pos.iter digits2_pos]. lia.
  - rewrite Pos.iter_succ. cbn [digits2_pos]. rewrite Pos2Z.inj_succ, IH. lia.
Qed.

Lemma digits2_pos_bounds mx :
  2 ^ (Z.pos (digits2_pos mx) - 1) <= Z.pos mx < 2 ^ Z.pos (digits2_pos mx).
Proof.
  drop_parameters.
  induction mx as [p IH|p IH|]; cbn [digits2_pos].
  - rewrite Pos2Z.inj_succ, (Pos2Z.inj_xI p).
    replace (Z.succ (Z.pos (digits2_pos p)) - 1)
      with (Z.succ (Z.pos (digits2_pos p) - 1)) by lia.
    rewrite !Z.pow_succ_r by lia.
    set (A := 2 ^ (Z.pos (digits2_pos p) - 1)) in *.
    set (B := 2 ^ Z.pos (digits2_pos p)) in *. clearbody A B. lia.
  - rewrite Pos2Z.inj_succ, (Pos2Z.inj_xO p).
    replace (Z.succ (Z.pos (digits2_pos p)) - 1)
      with (Z.succ (Z.pos (digits2_pos p) - 1)) by lia.
    rewrite !Z.pow_succ_r by lia.
    set (A := 2 ^ (Z.pos (digits2_pos p) - 1)) in *.
    set (B := 2 ^ Z.pos (digits2_pos p)) in *. clearbody A B. lia.
  - cbn. lia.
Qed.

(** A mantissa of 53 bits with an exponent in range is a binary64 as it
    stands: rounding leaves it alone. *)
Lemma binary_round_canonical s m e :
  Z.pos (digits2_pos m) = 53 -> -1074 <= e <= 971 ->
  binary_round_aux 53 1024 s (Z.pos m) e loc_Exact = S754_finite s m e.
Proof.
  drop_parameters.
  intros Hd He. unfold binary_round_aux, shr_fexp, fexp, emin.
  cbn [Zdigits2 shr_record_of_loc]. rewrite Hd.
  replace (Z.max (53 + e - 53) (3 - 1024 - 53) - e) with 0 by lia.
  cbn [shr shr_m loc_of_shr_record round_nearest_even Zdigits2 shr_record_of_loc].
  rewrite Hd.
  replace (Z.max (53 + e - 53) (3 - 1024 - 53) - e) with 0 by lia.
  cbn [shr shr_m].
  replace (e <=? 1024 - 53) with true by (symmetry; apply Z.leb_le; lia).
  reflexivity.
Qed.

(** An integer below 2^53 is a binary64: its mantissa is the integer
    shifted left to 53 bits. *)
Lemma binary_round_small s mx :
  Z.pos mx < 2 ^ 53 ->
  exists m e, binary_round 53 1024 s mx 0 = S754_finite s m e /\
              -52 <= e <= 0 /\ Z.pos m = Z.pos mx * 2 ^ (- e).
Proof.
  drop_parameters.
  intros Hlt. pose proof (digits2_pos_bounds mx) as [Hlo _].
  assert (Hd : Z.pos (digits2_pos mx) <= 53).
  { destruct (Z_le_gt_dec (Z.pos (digits2_pos mx)) 53) as [H|H]; [exact H|].
    assert (2 ^ 53 <= 2 ^ (Z.pos (digits2_pos mx) - 1)) by (apply Z.pow_le_mono_r; lia).
    lia. }
  unfold binary_round, shl_align, fexp, emin.
  replace (Z.max (Z.pos (digits2_pos mx) + 0 - 53) (3 - 1024 - 53) - 0)
    with (Z.pos (digits2_pos mx) - 53) by lia.
  replace (Z.max (Z.pos (digits2_pos mx) + 0 - 53) (3 - 1024 - 53))
    with (Z.pos (digits2_pos mx) - 53) by lia.
  destruct (Z.pos (digits2_pos mx) - 53) as [|p|p] eqn:E; [|lia|].
  - exists mx, 0. rewrite binary_round_canonical by lia.
    split; [reflexivity|]. split; [lia|]. cbn. lia.
  - exists (Pos.iter xO mx p), (Z.pos (digits2_pos mx) - 53).
    rewrite <- E.
    rewrite binary_round_canonical; [| rewrite iter_xO_digits; lia | lia].
    split; [reflexivity|]. split; [lia|].
    rewrite iter_xO_value. f_equal. f_equal. lia.
Qed.

Lemma py_int_of_float_of_int z :
  Z.abs z < 2 ^ 53 -> py_int_of_float (py_float_of_int z) = Some z.
Proof.
  drop_parameters.
  intros Hz. unfold py_float_of_int, binary_normalize.
  destruct z as [|mx|mx]; [reflexivity| |].
  - destruct (binary_round_small false mx) as (m & e & -> & He & Hm); [exact Hz|].
    cbn [py_int_of_float]. f_equal. rewrite Hm.
    destruct (0 <=? e) eqn:H0.
    + apply Z.leb_le in H0. replace e with 0 by lia. cbn. lia.
    + apply Z.div_mul. apply Z.pow_nonzero; lia.
  - destruct (binary_round_small true mx) as (m & e & -> & He & Hm); [exact Hz|].
    cbn [py_int_of_float]. f_equal. rewrite Hm.
    destruct (0 <=? e) eqn:H0.
    + apply Z.leb_le in H0. replace e with 0 by lia. cbn. lia.
    + rewrite Z.div_mul by (apply Z.pow_nonzero; lia). reflexivity.
Qed.

(** X22 -- integer cells and the detour [int(float(phone))].  An
    integer below 2^53 in magnitude is a binary64, so the detour gives
    it back and the result is computed from [str] of the cell itself:
    no digit of a phone number is changed.  The bound is needed: the
    cell 2^53 + 1 comes back as 2^53, and its last digits with it. *)
Theorem clean_phone_integer_cell_is_exact z :
  Z.abs z < 2 ^ 53 ->
  py_int_of_float (py_float_of_int z) = Some z /\
  clean_phone (RawInt z)
  = (if Nat.leb 10 (String.length (py_str_of_int z))
     then Some ("+91-" +:+ str_last 10 (py_str_of_int z)) else None) /\
  clean_phone (RawInt 9007199254740993) = Some "+91-9254740992".
Proof.
  intros Hz. pose proof (py_int_of_float_of_int z Hz) as Hexact.
  split; [exact Hexact|]. split; [|vm_compute; reflexivity].
  unfold clean_phone. cbn [pd_isna py_float]. rewrite Hexact. reflexivity.
Qed.

End Pipeline.

(** * The theorems at concrete inputs *)

(** The normalizers on a few cells. *)
Example clean_phone_examples :
  clean_phone float_of_digit_string (RawStr "9876543210") = Some "+91-9876543210" /\
  clean_phone float_of_digit_string (RawInt 919876543210) = Some "+91-9876543210" /\
  clean_phone float_of_digit_string (RawFloat (S754_finite false 9876000000 0))
    = Some "+91-9876000000" /\
  clean_phone float_of_digit_string (RawInt 12345) = None /\
  clean_phone float_of_digit_string (RawStr "98765-43210") = None /\
  clean_phone float_of_digit_string (RawFloat S754_nan) = None /\
  clean_phone float_of_digit_string (RawFloat (S754_infinity false)) = None.
Proof. repeat split; vm_compute; reflexivity. Qed.

Example clean_date_series_examples :
  clean_date_series ns_bounds
    [Some "2024-01-15"; Some "15/01/2024"; Some "01-22-2024"; Some "01/22/2024";
     Some "03/04/2024"; Some "2024-13-01"; None; Some "31/02/2024"; Some "2024-02-29"]
  = [Some (Date 2024 1 15); Some (Date 2024 1 15); Some (Date 2024 1 22);
     Some (Date 2024 1 22); Some (Date 2024 4 3); None; None; None;
     Some (Date 2024 2 29)].
Proof. vm_compute. reflexivity. Qed.

(** The three example files through the whole pipeline: one customer
    (the second row has the email of the first), two products, one order
    of two items; the sales row of the unknown customer is dropped. *)
Example run_pipeline_example :
  match run_pipeline float_of_digit_string ns_bounds empty_database
          example_customers example_products example_sales with
  | Finished (db, M) =>
      customers db
        = [CustomerRow 1 "Asha" "Rao" "a@x.com" (Some "+91-9876543210") None
                       (Some "2024-01-15")] /\
      products db
        = [ProductRow 1 "Lamp" "Home" 1000 (Some 0);
           ProductRow 2 "Plug" "Home" 500 (Some 3)] /\
      orders db = [OrderRow 1 1 "2024-01-15" 2500 "Completed"] /\
      order_items db
        = [OrderItemRow 1 1 1 2 1000 2000; OrderItemRow 2 1 2 1 500 500] /\
      drop_reason M sales_file "orphan_record_missing_parent" = 1%nat /\
      records_loaded M sales_file = 2%nat
  | Raised _ => False
  end.
Proof. vm_compute. repeat split. Qed.

(** C1 -- the claim fails on two rows with the same email: the second
    source id has no entry, so the two ids are not mapped to one key. *)
Lemma duplicate_email_second_id_unmapped :
  ~ (exists key,
       cl_id_map (process_customers float_of_digit_string ns_bounds empty_database
                    METRICS example_customers) !! "C1" = Some key /\
       cl_id_map (process_customers float_of_digit_string ns_bounds empty_database
                    METRICS example_customers) !! "C2" = Some key).
Proof. intros (key & _ & H2). vm_compute in H2. discriminate. Qed.

Lemma duplicate_email_keeps_first_row_only_witness :
  customers_wf empty_database /\
  NoDup (map cust_customer_id example_customers) /\
  cl_id_map (process_customers float_of_digit_string ns_bounds empty_database
               METRICS example_customers) !! "C2" = None /\
  exists c,
    List.filter (has_email "a@x.com")
      (customers (cl_db (process_customers float_of_digit_string ns_bounds
                           empty_database METRICS example_customers))) = [c] /\
    cl_id_map (process_customers float_of_digit_string ns_bounds empty_database
                 METRICS example_customers) !! "C1" = Some (c_customer_id c).
Proof.
  assert (Hwf : customers_wf empty_database) by (split; [constructor|reflexivity]).
  assert (Hids : NoDup (map cust_customer_id example_customers)).
  { apply (bool_decide_unpack _). vm_compute. exact I. }
  destruct (duplicate_email_keeps_first_row_only float_of_digit_string ns_bounds
              empty_database METRICS []
              (CustomerRaw "C1" (Some "Asha") (Some "Rao") (Some "a@x.com")
                           (RawStr "9876543210") None (Some "2024-01-15"))
              []
              (CustomerRaw "C2" (Some "Asha") (Some "Rao") (Some "a@x.com")
                           (RawFloat S754_nan) None (Some "15/01/2024"))
              [] "a@x.com" eq_refl eq_refl
              (fun r Hr => False_ind _ (proj1 (elem_of_nil r) Hr)) Hids Hwf)
    as (_ & Hsecond & Hfirst).
  split; [exact Hwf|]. split; [exact Hids|]. split; [exact Hsecond|].
  exact (Hfirst eq_refl eq_refl).
Defined.

Lemma clean_date_series_total_witness :
  strptime ns_bounds fmt_ymd_dash "31/02/2024" = None /\
  strptime ns_bounds fmt_dmy_slash "31/02/2024" = None /\
  strptime ns_bounds fmt_mdy_dash "31/02/2024" = None /\
  strptime ns_bounds fmt_mdy_slash "31/02/2024" = None /\
  clean_date_series ns_bounds [Some "2024-01-15"; Some "31/02/2024"] !! 1%nat = Some None.
Proof.
  repeat (split; [reflexivity|]).
  exact (proj2 (proj2 (proj2 (clean_date_series_total ns_bounds
                                [Some "2024-01-15"; Some "31/02/2024"])))
           1%nat "31/02/2024" eq_refl eq_refl eq_refl eq_refl eq_refl).
Defined.

(** C6 -- the claim fails for a date outside the range of the
    datetime64[ns] column: '1600-01-01' and '9999-12-31' are dates in
    year-month-day form, and both normalize to null. *)
Lemma normalized_date_outside_datetime_range_is_null :
  valid_date (Date 1600 1 1) = true /\
  strftime_ymd (Date 1600 1 1) = "1600-01-01" /\
  clean_date_series ns_bounds [Some "1600-01-01"; Some "9999-12-31"] = [None; None] /\
  ~ (forall d, valid_date d = true ->
       clean_date_series ns_bounds [Some (strftime_ymd d)] = [Some d]).
Proof.
  split; [reflexivity|]. split; [reflexivity|]. split; [vm_compute; reflexivity|].
  intros H. specialize (H (Date 1600 1 1) eq_refl). vm_compute in H. discriminate.
Qed.

Lemma clean_date_series_idempotent_witness :
  valid_date (Date 2024 1 15) = true /\ ns_bounds (Date 2024 1 15) = true /\
  clean_date_series ns_bounds [Some (strftime_ymd (Date 2024 1 15))]
  = [Some (Date 2024 1 15)].
Proof.
  split; [reflexivity|]. split; [reflexivity|].
  exact (proj1 (clean_date_series_idempotent ns_bounds) (Date 2024 1 15) eq_refl eq_refl).
Defined.

(** C7 -- the claim fails when a row without a name reaches the loop:
    the first row has a price and no stock_quantity, the insert of the
    second raises, and the loader is left with no row stored. *)
Lemma stock_absent_row_not_stored_when_loader_raises :
  ProductRaw "P1" (Some "Lamp") (Some "home") (Some 1999) None
    ∈ drop_duplicates prod_product_id example_products_stock_then_unnamed /\
  ~ (exists db' M' id_map,
       process_products empty_database METRICS example_products_stock_then_unnamed
       = Finished (db', M', id_map)).
Proof.
  split; [vm_compute; constructor|].
  intros (db' & M' & id_map & H). vm_compute in H. discriminate.
Qed.

Lemma missing_stock_filled_missing_price_dropped_witness :
  (forall r, r ∈ products_reaching_insert example_products ->
     isna (prod_product_name r) = false) /\
  exists db' M' id_map new,
    process_products empty_database METRICS example_products
    = Finished (db', M', id_map) /\
    products db' = products empty_database ++ new /\
    missing_values_filled M' products_file = 1%nat /\
    exists row, row ∈ new /\ p_stock_quantity row = Some 0 /\ p_price row = 1000 /\
                id_map !! "P1" = Some (p_product_id row).
Proof.
  assert (Hnames : forall r, r ∈ products_reaching_insert example_products ->
                     isna (prod_product_name r) = false).
  { intros r Hr. vm_compute in Hr. apply list_elem_of_In in Hr.
    destruct Hr as [<-|[<-|[]]]; reflexivity. }
  split; [exact Hnames|].
  destruct (missing_stock_filled_missing_price_dropped empty_database METRICS
              example_products) as (_ & _ & Hload).
  destruct (Hload Hnames) as (db' & M' & id_map & new & Hrun & Hnew & Hfilled & _ & _ & Hrow).
  destruct (Hrow (ProductRaw "P1" (Some "Lamp") (Some "home") (Some 1000) None) 1000)
    as (row & Hin & Hstock & Hprice & _ & Hid).
  { vm_compute. constructor. }
  { reflexivity. }
  { reflexivity. }
  exists db', M', id_map, new.
  split; [exact Hrun|]. split; [exact Hnew|]. split; [exact Hfilled|].
  exists row. repeat split; assumption.
Defined.

Lemma example_maps_resolve : maps_resolve example_store example_cust_map example_prod_map.
Proof.
  split; intros k id Hk.
  - unfold example_cust_map in Hk.
    apply lookup_singleton_Some in Hk as [_ <-]. reflexivity.
  - unfold example_prod_map in Hk.
    apply lookup_insert_Some in Hk as [[_ <-]|[_ Hk]]; [reflexivity|].
    apply lookup_singleton_Some in Hk as [_ <-]. reflexivity.
Defined.

Lemma sales_grouped_into_orders_witness :
  maps_resolve example_store example_cust_map example_prod_map /\
  exists db' M',
    process_sales ns_bounds example_store METRICS example_cust_map example_prod_map
                  example_sales = Finished (db', M') /\
    map o_total_amount (orders db') = [2500] /\
    map i_subtotal (order_items db') = [2000; 500].
Proof.
  split; [exact example_maps_resolve|].
  destruct (sales_grouped_into_orders ns_bounds example_store METRICS example_cust_map
              example_prod_map example_sales) as (_ & _ & _ & Hload & _).
  destruct (Hload example_maps_resolve) as (db' & M' & _ & _ & Hrun & _).
  exists db', M'. split; [exact Hrun|].
  vm_compute in Hrun. injection Hrun as <- _. split; reflexivity.
Defined.

Lemma orphan_rows_dropped_witness :
  SaleValid "T1" 1 1 2 1000 (Some "2024-01-15")
    ∈ fst (transform_sales ns_bounds METRICS example_cust_map example_prod_map
             example_sales) /\
  exists raw, raw ∈ example_sales /\
    is_orphan_raw example_cust_map example_prod_map raw = false /\
    example_cust_map !! sale_customer_id raw = Some 1 /\
    example_prod_map !! sale_product_id raw = Some 1.
Proof.
  assert (Hin : SaleValid "T1" 1 1 2 1000 (Some "2024-01-15")
                  ∈ fst (transform_sales ns_bounds METRICS example_cust_map
                           example_prod_map example_sales)).
  { vm_compute. constructor. }
  split; [exact Hin|].
  destruct (orphan_rows_dropped ns_bounds example_store METRICS example_cust_map
              example_prod_map example_sales) as (_ & _ & Hrows & _).
  destruct (Hrows _ Hin) as (raw & Hraw & Horphan & Hc & Hp & _).
  exists raw. repeat split; assumption.
Defined.

(** C8 -- the claim fails on the product loader: the first row has no
    name, the storage refuses it, and the loader raises instead of
    going on to the second row. *)
Lemma product_insert_error_aborts_loader :
  ~ (exists result,
       process_products empty_database METRICS example_products_unnamed
       = Finished result).
Proof. intros [result H]. vm_compute in H. discriminate. Qed.

(** The refused row has taken part in the deduplication: it is logged,
    the second row of its email stays removed and nothing is stored;
    the second row alone is stored. *)
Example refused_row_still_removes_its_duplicate :
  customers (cl_db (process_customers float_of_digit_string ns_bounds empty_database
                      METRICS example_customers_refused_first)) = [] /\
  cl_log (process_customers float_of_digit_string ns_bounds empty_database
            METRICS example_customers_refused_first) = [Some "a@x.com"] /\
  map c_first_name
      (customers (cl_db (process_customers float_of_digit_string ns_bounds empty_database
                           METRICS (tl example_customers_refused_first))))
  = ["Asha"].
Proof. repeat split; vm_compute; reflexivity. Qed.

Lemma insert_error_skipped_by_customer_loader_only_witness :
  (exists r, r ∈ products_reaching_insert example_products_unnamed /\
             prod_product_name r = None) /\
  exists M', process_products empty_database METRICS example_products_unnamed = Raised M'.
Proof.
  assert (Hrow : exists r, r ∈ products_reaching_insert example_products_unnamed /\
                           prod_product_name r = None).
  { exists (ProductRaw "P1" None (Some "home") (Some 1000) (Some 5)).
    split; [vm_compute; constructor|reflexivity]. }
  split; [exact Hrow|].
  destruct (insert_error_skipped_by_customer_loader_only float_of_digit_string ns_bounds)
    as (_ & Hproducts & _).
  exact (proj1 (Hproducts empty_database METRICS example_products_unnamed) Hrow).
Defined.

Lemma metrics_account_for_every_row_witness :
  match run_pipeline float_of_digit_string ns_bounds empty_database
          example_customers example_products example_sales with
  | Finished (_, M) =>
      accounted M customers_file 1 /\ accounted M products_file 2 /\
      accounted M sales_file 2
  | Raised _ => False
  end.
Proof.
  destruct (metrics_account_for_every_row float_of_digit_string ns_bounds
              empty_database example_customers example_products example_sales)
    as [_ Hproducts].
  cbv zeta in Hproducts. unfold run_pipeline.
  set (st := process_customers float_of_digit_string ns_bounds empty_database
               METRICS example_customers) in *.
  set (products_run := process_products (cl_db st) (cl_metrics st) example_products) in *.
  pose (db2 := match products_run with
               | Finished (db, _, _) => db
               | Raised _ => empty_database
               end).
  pose (M2 := match products_run with
              | Finished (_, M, _) => M
              | Raised M => M
              end).
  pose (prod_map := match products_run with
                    | Finished (_, _, id_map) => id_map
                    | Raised _ => ∅
                    end).
  assert (Hp : products_run = Finished (db2, M2, prod_map)) by (vm_compute; reflexivity).
  destruct (Hproducts db2 M2 prod_map Hp) as (_ & _ & _ & Hsales).
  rewrite Hp.
  set (sales_run := process_sales ns_bounds db2 M2 (cl_id_map st) prod_map example_sales)
    in *.
  assert (Hs : sales_run
               = Finished (match sales_run with
                           | Finished (db, _) => db
                           | Raised _ => empty_database
                           end, metrics_of sales_run))
    by (vm_compute; reflexivity).
  destruct (Hsales _ _ Hs) as (Hc & Hpr & Hsa & _).
  rewrite Hs.
  exact (conj Hc (conj Hpr Hsa)).
Defined.

(** ** The further properties at concrete inputs *)

Lemma clean_date_series_reads_other_spellings_witness :
  valid_date (Date 2024 1 15) = true /\ ns_bounds (Date 2024 1 15) = true /\
  clean_date_series ns_bounds [Some "15/01/2024"; Some "01-15-2024"]
  = [Some (Date 2024 1 15); Some (Date 2024 1 15)].
Proof.
  split; [reflexivity|]. split; [reflexivity|].
  exact (clean_date_series_reads_other_spellings ns_bounds (Date 2024 1 15)
           eq_refl eq_refl).
Defined.

Lemma clean_date_series_slash_text_is_day_first_witness :
  valid_date (Date 2024 3 4) = true /\ ns_bounds (Date 2024 3 4) = true /\
  text_mdy_slash (Date 2024 3 4) = "03/04/2024" /\
  clean_date_series ns_bounds [Some "03/04/2024"] = [Some (Date 2024 4 3)].
Proof.
  split; [reflexivity|]. split; [reflexivity|]. split; [reflexivity|].
  exact (clean_date_series_slash_text_is_day_first ns_bounds (Date 2024 3 4)
           eq_refl eq_refl).
Defined.

Lemma clean_phone_keeps_last_ten_digits_witness :
  py_float float_of_digit_string (RawInt 919876543210)
  = Some (py_float_of_int 919876543210) /\
  py_int_of_float (py_float_of_int 919876543210) = Some 919876543210 /\
  1000000000 <= Z.abs 919876543210 /\
  clean_phone float_of_digit_string (RawInt 919876543210) = Some "+91-9876543210".
Proof.
  assert (Hint : py_int_of_float (py_float_of_int 919876543210) = Some 919876543210)
    by (vm_compute; reflexivity).
  assert (Habs : 1000000000 <= Z.abs 919876543210) by (vm_compute; discriminate).
  split; [reflexivity|]. split; [exact Hint|]. split; [exact Habs|].
  exact (clean_phone_keeps_last_ten_digits float_of_digit_string (RawInt 919876543210)
           (py_float_of_int 919876543210) 919876543210 eq_refl Hint Habs).
Defined.

Lemma customer_identity_map_points_to_stored_rows_witness :
  cl_id_map (process_customers float_of_digit_string ns_bounds empty_database
               METRICS example_customers) !! "C1" = Some 1 /\
  exists c r,
    c ∈ customers (cl_db (process_customers float_of_digit_string ns_bounds
                            empty_database METRICS example_customers)) /\
    c_customer_id c = 1 /\ r ∈ example_customers /\
    r ∈ customers_reaching_insert example_customers /\
    cust_customer_id r = "C1" /\ cust_email r = Some (c_email c) /\
    isna (cust_first_name r) = false /\ isna (cust_last_name r) = false.
Proof.
  assert (Hk : cl_id_map (process_customers float_of_digit_string ns_bounds empty_database
                            METRICS example_customers) !! "C1" = Some 1)
    by (vm_compute; reflexivity).
  split; [exact Hk|].
  exact (customer_identity_map_points_to_stored_rows float_of_digit_string ns_bounds
           empty_database METRICS example_customers "C1" 1 Hk).
Defined.

Lemma customer_loader_second_run_stores_nothing_witness :
  customers_wf empty_database /\
  cl_db (process_customers float_of_digit_string ns_bounds
           (cl_db (process_customers float_of_digit_string ns_bounds empty_database
                     METRICS example_customers))
           METRICS example_customers)
  = cl_db (process_customers float_of_digit_string ns_bounds empty_database
             METRICS example_customers) /\
  cl_id_map (process_customers float_of_digit_string ns_bounds
               (cl_db (process_customers float_of_digit_string ns_bounds empty_database
                         METRICS example_customers))
               METRICS example_customers)
  = cl_id_map (process_customers float_of_digit_string ns_bounds empty_database
                 METRICS example_customers).
Proof.
  assert (Hwf : customers_wf empty_database) by (split; [constructor|reflexivity]).
  split; [exact Hwf|].
  destruct (customer_loader_second_run_stores_nothing float_of_digit_string ns_bounds
              empty_database METRICS METRICS example_customers Hwf) as (Hdb & Hmap & _).
  exact (conj Hdb Hmap).
Defined.

Lemma stored_products_are_cleaned_rows_witness :
  exists db' M' id_map new,
    process_products empty_database METRICS example_products = Finished (db', M', id_map) /\
    products db' = products empty_database ++ new /\
    Forall2 (product_stored_from id_map) (products_reaching_insert example_products) new.
Proof.
  set (run := process_products empty_database METRICS example_products).
  pose (db' := match run with Finished (db, _, _) => db | Raised _ => empty_database end).
  pose (M' := match run with Finished (_, M, _) => M | Raised M => M end).
  pose (id_map := match run with
                  | Finished (_, _, id_map) => id_map
                  | Raised _ => (∅ : gmap string Z)
                  end).
  assert (Hrun : run = Finished (db', M', id_map)) by (vm_compute; reflexivity).
  destruct (stored_products_are_cleaned_rows empty_database METRICS example_products
              db' M' id_map Hrun) as (new & Hnew & _ & Hrows).
  exists db', M', id_map, new. split; [exact Hrun|]. split; [exact Hnew|exact Hrows].
Defined.

Lemma py_title_forgets_letter_case_witness :
  ascii_only "electronics" = true /\ ascii_only "ELECTRONICS" = true /\
  lower "electronics" = lower "ELECTRONICS" /\
  py_title "electronics" = py_title "ELECTRONICS" /\
  py_title "ELECTRONICS" = "Electronics".
Proof.
  split; [reflexivity|]. split; [reflexivity|]. split; [reflexivity|].
  split; [|reflexivity].
  exact (proj2 (proj2 (py_title_forgets_letter_case "electronics" "ELECTRONICS"
                         eq_refl eq_refl)) eq_refl).
Defined.

Lemma product_loader_second_run_duplicates_witness :
  exists db1 M1 map1 db2 M2 map2,
    process_products empty_database METRICS example_products = Finished (db1, M1, map1) /\
    process_products db1 METRICS example_products = Finished (db2, M2, map2) /\
    length (products db1) = 2%nat /\ length (products db2) = 4%nat /\
    map1 !! "P1" = Some 1 /\ map2 !! "P1" = Some 3.
Proof.
  set (run := process_products empty_database METRICS example_products).
  pose (db1 := match run with Finished (db, _, _) => db | Raised _ => empty_database end).
  pose (M1 := match run with Finished (_, M, _) => M | Raised M => M end).
  pose (map1 := match run with
                | Finished (_, _, id_map) => id_map
                | Raised _ => (∅ : gmap string Z)
                end).
  assert (Hrun : run = Finished (db1, M1, map1)) by (vm_compute; reflexivity).
  assert (H1 : map1 !! "P1" = Some 1) by (vm_compute; reflexivity).
  destruct (product_loader_second_run_duplicates empty_database METRICS METRICS
              example_products db1 M1 map1 Hrun)
    as (db2 & M2 & map2 & new & Hrun2 & Hp1 & Hp2 & Hlen & Hmap).
  exists db1, M1, map1, db2, M2, map2.
  split; [exact Hrun|]. split; [exact Hrun2|].
  assert (Hnew : length new = 2%nat).
  { apply Nat2Z.inj. rewrite Hlen. reflexivity. }
  split; [rewrite Hp1, length_app, Hnew; reflexivity|].
  split; [rewrite Hp2, !length_app, length_map, Hnew; reflexivity|].
  split; [exact H1|]. exact (Hmap "P1" 1 H1).
Defined.

Lemma product_whose_first_row_has_no_price_is_lost_witness :
  ProductRaw "P1" (Some "Lamp") (Some "home") None (Some 5)
    ∈ drop_duplicates prod_product_id example_products_priceless /\
  (ProductRaw "P1" (Some "Lamp") (Some "home") (Some 1000) (Some 5)
     ∉ products_reaching_insert example_products_priceless) /\
  forall db' M' id_map,
    process_products empty_database METRICS example_products_priceless
    = Finished (db', M', id_map) ->
    id_map !! "P1" = None.
Proof.
  assert (Hin : ProductRaw "P1" (Some "Lamp") (Some "home") None (Some 5)
                  ∈ drop_duplicates prod_product_id example_products_priceless)
    by (vm_compute; constructor).
  destruct (product_whose_first_row_has_no_price_is_lost empty_database METRICS
              example_products_priceless _ Hin eq_refl) as [Hrows Hmap].
  split; [exact Hin|]. split; [|exact Hmap].
  apply Hrows; [|reflexivity].
  unfold example_products_priceless. apply elem_of_cons. right.
  apply elem_of_cons. left. reflexivity.
Defined.

Lemma order_total_is_sum_of_item_subtotals_witness :
  exists db' M' new_orders new_items,
    process_sales ns_bounds example_store METRICS example_cust_map example_prod_map
                  example_sales = Finished (db', M') /\
    orders db' = orders example_store ++ new_orders /\
    order_items db' = order_items example_store ++ concat new_items /\
    Forall2 (fun o its =>
               its <> [] /\
               Forall (fun it => i_order_id it = o_order_id o) its /\
               o_total_amount o = sum_Z (map i_subtotal its))
            new_orders new_items.
Proof.
  set (run := process_sales ns_bounds example_store METRICS example_cust_map
                example_prod_map example_sales).
  pose (db' := match run with Finished (db, _) => db | Raised _ => empty_database end).
  assert (Hrun : run = Finished (db', metrics_of run)) by (vm_compute; reflexivity).
  destruct (order_total_is_sum_of_item_subtotals ns_bounds example_store METRICS
              example_cust_map example_prod_map example_sales db' (metrics_of run) Hrun)
    as (new_orders & new_items & Ho & Hi & _ & _ & Hall).
  exists db', (metrics_of run), new_orders, new_items.
  split; [exact Hrun|]. split; [exact Ho|]. split; [exact Hi|exact Hall].
Defined.

Lemma repeated_sales_row_adds_nothing_witness :
  SaleRaw "T1" "C1" "P1" 2 1000 (Some "2024-01-15") ∈ example_sales /\
  tables_of (process_sales ns_bounds example_store METRICS example_cust_map
               example_prod_map
               (example_sales ++ [SaleRaw "T1" "C1" "P1" 2 1000 (Some "2024-01-15")]))
  = tables_of (process_sales ns_bounds example_store METRICS example_cust_map
                 example_prod_map example_sales).
Proof.
  assert (Hin : SaleRaw "T1" "C1" "P1" 2 1000 (Some "2024-01-15") ∈ example_sales)
    by (unfold example_sales; apply elem_of_cons; left; reflexivity).
  split; [exact Hin|].
  exact (proj1 (repeated_sales_row_adds_nothing ns_bounds example_store METRICS
                  example_cust_map example_prod_map example_sales _ Hin)).
Defined.

Lemma sales_of_unloaded_customer_are_orphans_witness :
  (forall r, r ∈ customers_reaching_insert example_customers ->
     cust_customer_id r <> "C2") /\
  cl_id_map (process_customers float_of_digit_string ns_bounds empty_database METRICS
               example_customers) !! "C2" = None /\
  is_orphan_raw
    (cl_id_map (process_customers float_of_digit_string ns_bounds empty_database METRICS
                  example_customers))
    example_prod_map (SaleRaw "T3" "C2" "P1" 1 1000 (Some "2024-01-17")) = true.
Proof.
  assert (Hnone : forall r, r ∈ customers_reaching_insert example_customers ->
                    cust_customer_id r <> "C2").
  { intros r Hr. vm_compute in Hr. apply list_elem_of_In in Hr.
    destruct Hr as [<-|[]]. discriminate. }
  split; [exact Hnone|].
  exact (sales_of_unloaded_customer_are_orphans float_of_digit_string ns_bounds
           empty_database METRICS example_customers example_prod_map
           (SaleRaw "T3" "C2" "P1" 1 1000 (Some "2024-01-17")) Hnone).
Defined.

Lemma text_after_a_date_is_not_a_date_witness :
  valid_date (Date 2024 1 15) = true /\
  clean_date_series ns_bounds [Some "2024-01-15 10:30:00"] = [None].
Proof.
  assert (Hsuffix : " 10:30:00" <> "") by discriminate.
  split; [reflexivity|].
  exact (text_after_a_date_is_not_a_date ns_bounds (Date 2024 1 15) " 10:30:00"
           eq_refl Hsuffix).
Defined.

Lemma clean_phone_width_witness :
  clean_phone float_of_digit_string (RawStr "9876543210") = Some "+91-9876543210" /\
  exists rest, "+91-9876543210" = "+91-" +:+ rest /\ String.length rest = 10%nat /\
               String.length "+91-9876543210" = 14%nat.
Proof.
  assert (Hout : clean_phone float_of_digit_string (RawStr "9876543210")
                 = Some "+91-9876543210") by (vm_compute; reflexivity).
  split; [exact Hout|].
  exact (clean_phone_width float_of_digit_string (RawStr "9876543210")
           "+91-9876543210" Hout).
Defined.

Lemma run_pipeline_respects_schema_witness :
  schema_respected empty_database /\
  exists db' M',
    run_pipeline float_of_digit_string ns_bounds empty_database
                 example_customers example_products example_sales = Finished (db', M') /\
    schema_respected db'.
Proof.
  assert (Hempty : schema_respected empty_database).
  { unfold schema_respected, empty_database.
    cbn [customers products orders order_items map].
    repeat split; constructor. }
  split; [exact Hempty|].
  set (run := run_pipeline float_of_digit_string ns_bounds empty_database
                example_customers example_products example_sales).
  pose (db' := match run with Finished (db, _) => db | Raised _ => empty_database end).
  assert (Hrun : run = Finished (db', metrics_of run)) by (vm_compute; reflexivity).
  exists db', (metrics_of run). split; [exact Hrun|].
  exact (run_pipeline_respects_schema float_of_digit_string ns_bounds empty_database
           example_customers example_products example_sales db' (metrics_of run)
           Hempty Hrun).
Defined.

Lemma clean_phone_integer_cell_is_exact_witness :
  Z.abs 919876543210 < 2 ^ 53 /\
  py_int_of_float (py_float_of_int 919876543210) = Some 919876543210 /\
  clean_phone float_of_digit_string (RawInt 919876543210) = Some "+91-9876543210".
Proof.
  assert (Hlt : Z.abs 919876543210 < 2 ^ 53) by (vm_compute; reflexivity).
  destruct (clean_phone_integer_cell_is_exact float_of_digit_string 919876543210 Hlt)
    as (Hexact & Hphone & _).
  split; [exact Hlt|]. split; [exact Hexact|]. exact Hphone.
Defined.

Lemma sales_rows_reference_stored_rows_witness :
  exists db2 M2 prod_map,
    process_products
      (cl_db (process_customers float_of_digit_string ns_bounds empty_database METRICS
                example_customers))
      (cl_metrics (process_customers float_of_digit_string ns_bounds empty_database METRICS
                     example_customers))
      example_products = Finished (db2, M2, prod_map) /\
    maps_resolve db2
      (cl_id_map (process_customers float_of_digit_string ns_bounds empty_database METRICS
                    example_customers))
      prod_map /\
    forallb (group_accepted db2)
      (map snd
         (groupby sv_transaction_id
            (fst (transform_sales ns_bounds M2
                    (cl_id_map (process_customers float_of_digit_string ns_bounds
                                  empty_database METRICS example_customers))
                    prod_map example_sales)))) = true.
Proof.
  set (st := process_customers float_of_digit_string ns_bounds empty_database METRICS
               example_customers).
  set (run := process_products (cl_db st) (cl_metrics st) example_products).
  pose (db2 := match run with Finished (db, _, _) => db | Raised _ => empty_database end).
  pose (M2 := match run with Finished (_, M, _) => M | Raised M => M end).
  pose (prod_map := match run with
                    | Finished (_, _, id_map) => id_map
                    | Raised _ => (∅ : gmap string Z)
                    end).
  assert (Hrun : run = Finished (db2, M2, prod_map)) by (vm_compute; reflexivity).
  destruct (sales_rows_reference_stored_rows float_of_digit_string ns_bounds
              empty_database METRICS example_customers example_products example_sales
              db2 M2 prod_map Hrun) as (Hmaps & _ & Hgroups).
  exists db2, M2, prod_map. split; [exact Hrun|]. split; [exact Hmaps|exact Hgroups].
Defined.
